(** * Invoice text extraction: a model of [backend/invoice_ocr_api.py]

    The development follows the parsing half of the backend: numeric
    cleaning ([parse_float]), the line-item reconstructor
    ([parse_line_items]), the field extractor ([parse_invoice_data]) and the
    report builder ([generate_csv_string]).
    The two endpoints of the service ([upload_invoice], [download_csv]) and
    the store between them follow, with the image libraries left as
    parameters.

    Text is a sequence of code points below U+0100 (one [ascii] per
    character); the character classes, case mappings and whitespace sets
    are those of Python 3 on that range.  The vendor field, where code
    points above that range change the answer, is modelled a second time
    on full code points (module [wide]).  Numbers are binary64 values
    ([spec_float] with precision 53 and maximal exponent 1024). *)

From Stdlib Require Import Ascii String.
From Stdlib Require Import List Bool Arith ZArith NArith Lia.
From Stdlib Require Import Floats.SpecFloat.
Import ListNotations.

Set Implicit Arguments.

(** ** Characters *)

Definition str := list ascii.

(** A Python string literal. *)
Definition lit (s : string) : str := list_ascii_of_string s.

Definition code (c : ascii) : N := N_of_ascii c.

Definition between (lo hi : N) (c : ascii) : bool :=
  ((lo <=? code c) && (code c <=? hi))%N.

Definition chr_eqb (a b : ascii) : bool := Ascii.eqb a b.

(** [str.isdecimal] on one character, the class [\d]. *)
Definition isdecimal (c : ascii) : bool := between 48 57 c.

(** [str.isspace] on one character, the class [\s]: TAB..CR, FS..US, SPACE,
    NEL (U+0085) and NBSP (U+00A0). *)
Definition isspace (c : ascii) : bool :=
  between 9 13 c || between 28 32 c || (code c =? 133)%N || (code c =? 160)%N.

(** Letters of the range: A-Z, a-z, U+00AA, U+00B5, U+00BA, U+00C0..U+00D6,
    U+00D8..U+00F6, U+00F8..U+00FF. *)
Definition isalpha (c : ascii) : bool :=
  between 65 90 c || between 97 122 c
  || (code c =? 170)%N || (code c =? 181)%N || (code c =? 186)%N
  || between 192 214 c || between 216 246 c || between 248 255 c.

(** Characters with a numeric value that are not decimal digits: the
    superscripts U+00B2, U+00B3, U+00B9 and the fractions U+00BC..U+00BE. *)
Definition isnumeric_other (c : ascii) : bool :=
  (code c =? 178)%N || (code c =? 179)%N || (code c =? 185)%N || between 188 190 c.

(** The class [\w]: alphanumeric or underscore. *)
Definition isword (c : ascii) : bool :=
  isalpha c || isdecimal c || isnumeric_other c || (code c =? 95)%N.

(** Simple lower-case mapping. *)
Definition tolower (c : ascii) : ascii :=
  if between 65 90 c || (between 192 222 c && negb (code c =? 215)%N)
  then ascii_of_N (code c + 32) else c.

(** [str.upper] on one character, as code points: it leaves the range at
    U+00B5 (to U+039C) and U+00FF (to U+0178) and maps U+00DF to "SS". *)
Definition upper1 (c : ascii) : list N :=
  if between 97 122 c || (between 224 254 c && negb (code c =? 247)%N)
  then [(code c - 32)%N]
  else if (code c =? 223)%N then [83; 83]%N
  else if (code c =? 181)%N then [924%N]
  else if (code c =? 255)%N then [376%N]
  else [code c].

(** ** String methods *)

Fixpoint dropwhile (p : ascii -> bool) (s : str) : str :=
  match s with
  | [] => []
  | a :: s' => if p a then dropwhile p s' else s
  end.

Fixpoint span_len (p : ascii -> bool) (s : str) : nat :=
  match s with
  | [] => 0
  | a :: s' => if p a then S (span_len p s') else 0
  end.

(** [s.strip()] *)
Definition strip (s : str) : str :=
  rev (dropwhile isspace (rev (dropwhile isspace s))).

(** [s.split(sep)] for a one-character separator. *)
Fixpoint split_on (sep : ascii) (s : str) : list str :=
  match s with
  | [] => [[]]
  | a :: s' =>
      if chr_eqb a sep then [] :: split_on sep s'
      else match split_on sep s' with
           | h :: t => (a :: h) :: t
           | [] => [[a]]
           end
  end.

(** [s.split()]: the maximal runs of non-whitespace characters. *)
Fixpoint split_ws_from (cur : str) (s : str) : list str :=
  match s with
  | [] => match cur with [] => [] | _ => [rev cur] end
  | a :: s' =>
      if isspace a
      then match cur with
           | [] => split_ws_from [] s'
           | _ => rev cur :: split_ws_from [] s'
           end
      else split_ws_from (a :: cur) s'
  end.

Definition split_ws (s : str) : list str := split_ws_from [] s.

(** [sep.join(parts)] *)
Fixpoint join (sep : str) (parts : list str) : str :=
  match parts with
  | [] => []
  | [p] => p
  | p :: rest => p ++ sep ++ join sep rest
  end.

(** [s.upper()], as code points. *)
Definition upper (s : str) : list N := flat_map upper1 s.

Fixpoint prefixN (p s : list N) : bool :=
  match p, s with
  | [], _ => true
  | x :: p', y :: s' => (x =? y)%N && prefixN p' s'
  | _ :: _, [] => false
  end.

(** [needle in hay] on code-point sequences. *)
Fixpoint containsN (needle hay : list N) : bool :=
  prefixN needle hay ||
  match hay with
  | [] => false
  | _ :: hay' => containsN needle hay'
  end.

(** [s.replace(c, '')] for a one-character [c]. *)
Definition remove_chr (c : ascii) (s : str) : str :=
  filter (fun a => negb (chr_eqb a c)) s.

(** ** Regular expressions (module [re]) *)

Module re.

(** Members of a character set.  [Wide cp] is a literal code point above
    U+00FF that has no case variant below U+0100 (the patterns use U+20AC
    only); no character of an 8-bit text equals it. *)
Inductive item : Type :=
| Chr (c : ascii)
| Wide (cp : N)
| Range (lo hi : ascii)
| Digit
| Space
| Word.

(** Patterns.  Repetition is greedy and applies to one-character atoms,
    which is all the patterns of the program use; groups carry their
    number. *)
Inductive regex : Type :=
| Eps
| One (cs : list item)
| Seq (r1 r2 : regex)
| Alt (r1 r2 : regex)
| Opt (r : regex)
| Rep (cs : list item) (lo : nat) (hi : option nat)
| Grp (n : nat) (r : regex).

Record flags : Type := { IGNORECASE : bool; MULTILINE : bool }.

Definition item_mem (fl : flags) (a : ascii) (it : item) : bool :=
  match it with
  | Chr c => if IGNORECASE fl then chr_eqb (tolower a) (tolower c) else chr_eqb a c
  | Wide _ => false
  | Range lo hi =>
      if IGNORECASE fl
      then existsb (fun k => chr_eqb (tolower a) (tolower (ascii_of_nat k)))
                   (seq (nat_of_ascii lo) (S (nat_of_ascii hi) - nat_of_ascii lo))
      else between (code lo) (code hi) a
  | Digit => isdecimal a
  | Space => isspace a
  | Word => isword a
  end.

Definition mem (fl : flags) (cs : list item) (a : ascii) : bool :=
  existsb (item_mem fl a) cs.

Definition groups := list (nat * str).

Fixpoint lookup (n : nat) (g : groups) : option str :=
  match g with
  | [] => None
  | (k, v) :: g' => if Nat.eqb k n then Some v else lookup n g'
  end.

(** The text consumed between a position [s] and a later position [s1]. *)
Definition consumed (s s1 : str) : str := firstn (length s - length s1) s.

(** How many leading characters a greedy repetition can take. *)
Fixpoint span (fl : flags) (cs : list item) (hi : option nat) (s : str) : nat :=
  match hi with
  | Some 0 => 0
  | _ =>
      match s with
      | [] => 0
      | a :: s' =>
          if mem fl cs a then S (span fl cs (option_map pred hi) s') else 0
      end
  end.

(** All the ways [r] matches at the head of [s], in the order a backtracking
    matcher tries them; each is the remaining text and the groups set. *)
Fixpoint run (fl : flags) (r : regex) (s : str) (g : groups) : list (str * groups) :=
  match r with
  | Eps => [(s, g)]
  | One cs =>
      match s with
      | a :: s' => if mem fl cs a then [(s', g)] else []
      | [] => []
      end
  | Seq r1 r2 => flat_map (fun x => run fl r2 (fst x) (snd x)) (run fl r1 s g)
  | Alt r1 r2 => run fl r1 s g ++ run fl r2 s g
  | Opt r1 => run fl r1 s g ++ [(s, g)]
  | Rep cs lo hi =>
      map (fun k => (skipn k s, g)) (rev (seq lo (S (span fl cs hi s) - lo)))
  | Grp n r1 =>
      map (fun x => (fst x, (n, consumed s (fst x)) :: snd x)) (run fl r1 s g)
  end.

Fixpoint ngroups (r : regex) : nat :=
  match r with
  | Eps | One _ | Rep _ _ _ => 0
  | Seq r1 r2 | Alt r1 r2 => Nat.max (ngroups r1) (ngroups r2)
  | Opt r1 => ngroups r1
  | Grp n r1 => Nat.max n (ngroups r1)
  end.

(** A match object. *)
Record Match : Type := {
  m_start : nat;
  m_end : nat;
  m_groups : groups;
  m_ngroups : nat
}.

Fixpoint search_from (fl : flags) (r : regex) (s : str) (pos : nat) : option Match :=
  match run fl r s [] with
  | (rest, g) :: _ =>
      Some {| m_start := pos; m_end := pos + (length s - length rest);
              m_groups := g; m_ngroups := ngroups r |}
  | [] =>
      match s with
      | [] => None
      | _ :: s' => search_from fl r s' (S pos)
      end
  end.

(** [re.search(pattern, string, flags)]: the first position with a match. *)
Definition search (r : regex) (s : str) (fl : flags) : option Match :=
  search_from fl r s 0.

(** [re.sub(pattern, repl, string)] for a pattern that is one character
    set. *)
Definition sub (fl : flags) (cs : list item) (repl : str) (s : str) : str :=
  flat_map (fun a => if mem fl cs a then repl else [a]) s.

(** Pattern builders. *)
Definition chr (c : ascii) : regex := One [Chr c].

Fixpoint seqs (rs : list regex) : regex :=
  match rs with
  | [] => Eps
  | [r] => r
  | r :: rs' => Seq r (seqs rs')
  end.

Fixpoint alts (rs : list regex) : regex :=
  match rs with
  | [] => One []
  | [r] => r
  | r :: rs' => Alt r (alts rs')
  end.

(** A run of literal characters. *)
Definition word (w : string) : regex := seqs (map chr (list_ascii_of_string w)).

Definition star (cs : list item) : regex := Rep cs 0 None.
Definition plus (cs : list item) : regex := Rep cs 1 None.
Definition times (cs : list item) (lo hi : nat) : regex := Rep cs lo (Some hi).

Definition no_flags : flags := {| IGNORECASE := false; MULTILINE := false |}.
Definition I : flags := {| IGNORECASE := true; MULTILINE := false |}.
Definition IM : flags := {| IGNORECASE := true; MULTILINE := true |}.

End re.

(** ** Exceptions *)

Inductive exception : Type :=
| IndexError
| KeyError
| ValueError
| OverflowError
| AttributeError
| ZeroDivisionError
| ValidationError.

Inductive exc (A : Type) : Type :=
| Ok (a : A)
| Raise (e : exception).

Arguments Ok {A} a.
Arguments Raise {A} e.

Definition bind {A B : Type} (m : exc A) (k : A -> exc B) : exc B :=
  match m with
  | Ok a => k a
  | Raise e => Raise e
  end.

Notation "x <- m ;; k" := (bind m (fun x => k))
  (at level 61, m at next level, right associativity).

(** [try: body except ...]: the handler names the exceptions it takes. *)
Definition catch {A : Type} (body : exc A) (handler : exception -> option (exc A)) : exc A :=
  match body with
  | Ok a => Ok a
  | Raise e =>
      match handler e with
      | Some r => r
      | None => Raise e
      end
  end.

(** [xs[i]] *)
Definition index {A : Type} (xs : list A) (i : nat) : exc A :=
  match nth_error xs i with
  | Some x => Ok x
  | None => Raise IndexError
  end.

(** [match.group(i)]: [None] for a group that took no part in the match. *)
Definition group (m : re.Match) (i : nat) : exc (option str) :=
  if Nat.leb i (re.m_ngroups m) then Ok (re.lookup i (re.m_groups m))
  else Raise IndexError.

(** [x.strip()] on a value that may be [None]. *)
Definition strip_opt (x : option str) : exc str :=
  match x with
  | Some s => Ok (strip s)
  | None => Raise AttributeError
  end.

(** ** Binary64 numbers *)

Definition float := spec_float.

Definition prec : Z := 53.
Definition emax : Z := 1024.

Definition zero : float := S754_zero false.

(** The number [m * 10^e] rounded to the nearest binary64 value, ties to
    even; [m] is not negative. *)
Definition of_decimal (sign : bool) (m e : Z) : float :=
  match m with
  | Z0 => S754_zero sign
  | _ =>
      if (0 <=? e)%Z
      then binary_normalize prec emax ((if sign then - m else m) * 10 ^ e)%Z 0 false
      else
        let '(q, e', l) := SFdiv_core_binary prec emax m 0 (10 ^ (- e))%Z 0 in
        binary_round_aux prec emax sign q e' l
  end.

(** The value of a run of decimal digits. *)
Definition digit_val (c : ascii) : Z := Z.of_N (code c) - 48.

Definition digits_val (ds : str) : Z :=
  fold_left (fun acc c => acc * 10 + digit_val c)%Z ds 0%Z.

Definition take_digits (s : str) : str * str :=
  (firstn (span_len isdecimal s) s, skipn (span_len isdecimal s) s).

(** Every underscore stands between two decimal digits. *)
Fixpoint underscores_ok (prev : option ascii) (s : str) : bool :=
  match s with
  | [] => true
  | a :: s' =>
      (if chr_eqb a "_"
       then match prev with Some p => isdecimal p | None => false end
            && match s' with b :: _ => isdecimal b | [] => false end
       else true)
      && underscores_ok (Some a) s'
  end.

Definition lower_str (s : str) : str := map tolower s.

Definition str_eqb (a b : str) : bool :=
  if list_eq_dec ascii_dec a b then true else false.

Definition split_sign (s : str) : bool * str :=
  match s with
  | a :: s' =>
      if chr_eqb a "-" then (true, s')
      else if chr_eqb a "+" then (false, s')
      else (false, s)
  | [] => (false, s)
  end.

(** [float(s)] for a string: surrounding whitespace is dropped; the rest is
    an optional sign and then [inf], [infinity], [nan] (in any case) or a
    decimal numeral with an optional fraction and exponent. *)
Definition float_of_str (s0 : str) : exc float :=
  let s1 := strip s0 in
  if negb (underscores_ok None s1) then Raise ValueError else
  let s := remove_chr "_" s1 in
  let '(sign, body) := split_sign s in
  let low := lower_str body in
  if str_eqb low (lit "inf") || str_eqb low (lit "infinity") then Ok (S754_infinity sign)
  else if str_eqb low (lit "nan") then Ok S754_nan
  else
    let '(ip, r1) := take_digits body in
    let '(fp, r2) :=
      match r1 with
      | a :: t => if chr_eqb a "." then take_digits t else ([], r1)
      | [] => ([], r1)
      end in
    match ip ++ fp with
    | [] => Raise ValueError
    | ds =>
        let m := digits_val ds in
        let fe := (- Z.of_nat (length fp))%Z in
        match r2 with
        | [] => Ok (of_decimal sign m fe)
        | a :: t =>
            if chr_eqb a "e" || chr_eqb a "E" then
              let '(esign, t') := split_sign t in
              let '(ed, r3) := take_digits t' in
              match ed, r3 with
              | _ :: _, [] =>
                  let ev := digits_val ed in
                  Ok (of_decimal sign m (fe + (if esign then - ev else ev))%Z)
              | _, _ => Raise ValueError
              end
            else Raise ValueError
        end
    end.

(** The integer nearest to [m * 2^e], ties to even. *)
Definition round_half_even (m e : Z) : Z :=
  if (0 <=? e)%Z then (m * 2 ^ e)%Z
  else
    let d := (2 ^ (- e))%Z in
    let q := (m / d)%Z in
    let r := (m mod d)%Z in
    match (2 * r ?= d)%Z with
    | Lt => q
    | Gt => (q + 1)%Z
    | Eq => if Z.even q then q else (q + 1)%Z
    end.

(** [round(x)] for a float: an integer, or an error at infinity and NaN. *)
Definition py_round (x : float) : exc Z :=
  match x with
  | S754_zero _ => Ok 0%Z
  | S754_infinity _ => Raise OverflowError
  | S754_nan => Raise ValueError
  | S754_finite s m e => Ok (cond_Zopp s (round_half_even (Zpos m) e))
  end.

(** [float(n)] for an integer. *)
Definition float_of_int (n : Z) : exc float :=
  match binary_normalize prec emax n 0 false with
  | S754_infinity _ => Raise OverflowError
  | f => Ok f
  end.

(** [x / y] on floats. *)
Definition truediv (x y : float) : exc float :=
  if SFeqb y zero then Raise ZeroDivisionError else Ok (SFdiv prec emax x y).

(** [x > 0] *)
Definition gt0 (x : float) : bool := SFltb zero x.

(** Truth value of an [Optional[float]]: [None] and zero are false. *)
Definition truthy (x : option float) : bool :=
  match x with
  | None => false
  | Some f => negb (SFeqb f zero)
  end.

(** The float [1.0]. *)
Definition one : float := S754_finite false 4503599627370496 (-52).

(** A number that is a float or an integer, as the variable [quantity]. *)
Inductive number : Type :=
| Float (f : float)
| Int (n : Z).

(** [float(x)] *)
Definition to_float (x : number) : exc float :=
  match x with
  | Float f => Ok f
  | Int n => float_of_int n
  end.

(** ** Numeric cleaning *)

(** The set [[$,€£()]]. *)
Definition currency_set : list re.item :=
  [re.Chr "$"; re.Chr ","; re.Wide 8364; re.Chr (ascii_of_nat 163); re.Chr "("; re.Chr ")"].

(** Only [ValueError] is handled; any other exception would leave the
    function. *)
Definition parse_float (value : str) : exc (option float) :=
  match value with
  | [] => Ok None
  | _ =>
      let clean_value := strip (remove_chr "," (re.sub re.no_flags currency_set [] value)) in
      catch (f <- float_of_str clean_value ;; Ok (Some f))
            (fun e => match e with ValueError => Some (Ok None) | _ => None end)
  end.

(** ** Line items *)

Record LineItem : Type := {
  quantity : option float;
  description : str;
  unit_price : option float;
  line_total : option float
}.

(** r"ITEM NAME \d" *)
Definition header_re : re.regex :=
  re.Seq (re.word "ITEM NAME ") (re.One [re.Digit]).

(** r"(SUBTOTAL|TAX|TOTAL|BALANCE|GST|PAYABLE)" *)
Definition summary_re : re.regex :=
  re.Grp 1 (re.alts [re.word "SUBTOTAL"; re.word "TAX"; re.word "TOTAL";
                     re.word "BALANCE"; re.word "GST"; re.word "PAYABLE"]).

(** The index of the first line with the header, [-1] in the source when
    there is none. *)
Fixpoint find_start (lines : list str) (i : nat) : option nat :=
  match lines with
  | [] => None
  | line :: rest =>
      match re.search header_re line re.I with
      | Some _ => Some i
      | None => find_start rest (S i)
      end
  end.

(** The body of the [try] block: the item built from a matching line,
    appended to [line_items]. *)
Definition append_item (m : re.Match) (line : str) (line_items : list LineItem)
  : exc (list LineItem) :=
  tok <- index (split_ws line) 2 ;;
  let description := lit "ITEM NAME " ++ tok in
  g1 <- group m 1 ;;
  s1 <- strip_opt g1 ;;
  unit_price <- parse_float s1 ;;
  g2 <- group m 2 ;;
  s2 <- strip_opt g2 ;;
  line_total <- parse_float s2 ;;
  quantity <-
    (if truthy unit_price && truthy line_total
        && match unit_price with Some u => gt0 u | None => false end
     then
       match unit_price, line_total with
       | Some u, Some t => q <- truediv t u ;; n <- py_round q ;; Ok (Int n)
       | _, _ => Ok (Float one)
       end
     else Ok (Float one)) ;;
  match description with
  | [] => Ok line_items
  | _ =>
      qf <- to_float quantity ;;
      Ok (line_items ++ [{| quantity := Some qf; description := description;
                            unit_price := unit_price; line_total := line_total |}])
  end.

(** One turn of the loop over the lines of the section. *)
Definition line_step (pattern : re.regex) (line : str) (line_items : list LineItem)
  : exc (list LineItem) :=
  match re.search summary_re line re.I with
  | Some _ => Ok line_items
  | None =>
      match re.search pattern line re.I with
      | Some m =>
          catch (append_item m line line_items)
                (fun e => match e with
                          | IndexError => Some (Ok line_items)
                          | _ => Some (Ok line_items)
                          end)
      | None => Ok line_items
      end
  end.

Fixpoint for_lines (pattern : re.regex) (lines : list str) (line_items : list LineItem)
  : exc (list LineItem) :=
  match lines with
  | [] => Ok line_items
  | line :: rest =>
      line_items' <- line_step pattern line line_items ;;
      for_lines pattern rest line_items'
  end.

Definition parse_line_items (raw_text : str) (pattern : re.regex) : exc (list LineItem) :=
  let lines := split_on (ascii_of_nat 10) raw_text in
  match find_start lines 0 with
  | Some start_index => for_lines pattern (skipn start_index lines) []
  | None => Ok []
  end.

(** ** Pattern configuration *)

Definition dict (V : Type) := list (string * V).

Fixpoint dict_get {V : Type} (k : string) (d : dict V) : option V :=
  match d with
  | [] => None
  | (k', v) :: d' => if String.eqb k' k then Some v else dict_get k d'
  end.

(** [d[k] = v]: an existing key keeps its place, a new one goes last. *)
Fixpoint dict_set {V : Type} (k : string) (v : V) (d : dict V) : dict V :=
  match d with
  | [] => [(k, v)]
  | (k', v') :: d' =>
      if String.eqb k' k then (k', v) :: d' else (k', v') :: dict_set k v d'
  end.

(** [d.update(other)] *)
Definition dict_update {V : Type} (d other : dict V) : dict V :=
  fold_left (fun acc kv => dict_set (fst kv) (snd kv) acc) other d.

Definition sp_star : re.regex := re.star [re.Space].
Definition sp_plus : re.regex := re.plus [re.Space].
Definition amount : re.regex := re.plus [re.Digit; re.Chr ","; re.Chr "."].

(** r"(?:Invoice No\.|Invoice|Bill)\s*[:#-]\s*(\w+)" *)
Definition invoice_number_re : re.regex :=
  re.seqs [re.alts [re.word "Invoice No."; re.word "Invoice"; re.word "Bill"];
           sp_star; re.One [re.Chr ":"; re.Chr "#"; re.Chr "-"]; sp_star;
           re.Grp 1 (re.plus [re.Word])].

(** r"(?:Invoice Date|DATED|Date)\s*[:#-]\s*(\d{2}[-/]\d{2}[-/]\d{2,4})" *)
Definition date_re : re.regex :=
  re.seqs [re.alts [re.word "Invoice Date"; re.word "DATED"; re.word "Date"];
           sp_star; re.One [re.Chr ":"; re.Chr "#"; re.Chr "-"]; sp_star;
           re.Grp 1 (re.seqs [re.times [re.Digit] 2 2; re.One [re.Chr "-"; re.Chr "/"];
                              re.times [re.Digit] 2 2; re.One [re.Chr "-"; re.Chr "/"];
                              re.times [re.Digit] 2 4])].

(** r"(?:PAYABLE AMOUNT|GRAND TOTAL|TOTAL|AMOUNT DUE|BALANCE)\s*", then the
    optional currency marker, one of r"[A-Z]{3}", r"\$", U+20AC, U+00A3 and
    r"Rs\.\s*", then r"\s*([\d,\.]+)". *)
Definition total_amount_re : re.regex :=
  re.seqs [re.alts [re.word "PAYABLE AMOUNT"; re.word "GRAND TOTAL"; re.word "TOTAL";
                    re.word "AMOUNT DUE"; re.word "BALANCE"];
           sp_star;
           re.Opt (re.alts [re.times [re.Range "A" "Z"] 3 3; re.chr "$";
                            re.One [re.Wide 8364]; re.chr (ascii_of_nat 163);
                            re.Seq (re.word "Rs.") sp_star]);
           sp_star;
           re.Grp 1 amount].

(** r"(?:TAX|GST|VAT|SGST|CGST)\s*RATE\s*@\s*\d+%?\s*Rs\.\s*([\d,\.]+)" *)
Definition tax_amount_re : re.regex :=
  re.seqs [re.alts [re.word "TAX"; re.word "GST"; re.word "VAT"; re.word "SGST";
                    re.word "CGST"];
           sp_star; re.word "RATE"; sp_star; re.chr "@"; sp_star;
           re.plus [re.Digit]; re.Opt (re.chr "%"); sp_star; re.word "Rs."; sp_star;
           re.Grp 1 amount].

(** r"(S\.K\.P\.S DIGITAL)" *)
Definition vendor_name_re : re.regex := re.Grp 1 (re.word "S.K.P.S DIGITAL").

(** r"(?:GSTIN|VAT ID|Tax ID)\s*[:#]\s*(\w+)" *)
Definition gst_number_re : re.regex :=
  re.seqs [re.alts [re.word "GSTIN"; re.word "VAT ID"; re.word "Tax ID"];
           sp_star; re.One [re.Chr ":"; re.Chr "#"]; sp_star;
           re.Grp 1 (re.plus [re.Word])].

(** r"ITEM NAME \d\s+Rs\.\s*([\d,\.]+)\s+Rs\.\s*([\d,\.]+)" *)
Definition line_item_re : re.regex :=
  re.seqs [re.word "ITEM NAME "; re.One [re.Digit]; sp_plus; re.word "Rs."; sp_star;
           re.Grp 1 amount; sp_plus; re.word "Rs."; sp_star; re.Grp 2 amount].

Definition INVOICE_CONFIG : dict re.regex :=
  [("invoice_number", invoice_number_re);
   ("date", date_re);
   ("total_amount", total_amount_re);
   ("tax_amount", tax_amount_re);
   ("vendor_name", vendor_name_re);
   ("gst_number", gst_number_re);
   ("line_item_pattern", line_item_re)]%string.

(** r"ACME-INV-(\d+)" *)
Definition acme_invoice_number_re : re.regex :=
  re.Seq (re.word "ACME-INV-") (re.Grp 1 (re.plus [re.Digit])).

(** r"Billing Date:\s*(\d{4}-\d{2}-\d{2})" *)
Definition acme_date_re : re.regex :=
  re.seqs [re.word "Billing Date:"; sp_star;
           re.Grp 1 (re.seqs [re.times [re.Digit] 4 4; re.chr "-";
                              re.times [re.Digit] 2 2; re.chr "-";
                              re.times [re.Digit] 2 2])].

Record vendor_template : Type := {
  template_vendor_name : str;
  regex_overrides : dict re.regex
}.

Definition KNOWN_VENDOR_TEMPLATE : vendor_template :=
  {| template_vendor_name := lit "Acme Corp";
     regex_overrides := [("invoice_number", acme_invoice_number_re);
                         ("date", acme_date_re)]%string |}.

(** [d[k]] *)
Definition dict_index {V : Type} (d : dict V) (k : string) : exc V :=
  match dict_get k d with
  | Some v => Ok v
  | None => Raise KeyError
  end.

(** ** Field extraction *)

Record ParsedInvoice : Type := {
  invoice_id : str;
  vendor_name : option str;
  invoice_number : option str;
  date : option str;
  total_amount : option float;
  tax_amount : option float;
  gst_number : option str;
  line_items : list LineItem;
  raw_text : str
}.

(** The values stored in [parsed_data]. *)
Inductive value : Type :=
| VNone
| VStr (s : str)
| VFloat (f : float).

Definition of_opt_float (x : option float) : value :=
  match x with
  | Some f => VFloat f
  | None => VNone
  end.

(** The process-wide state the parser reads: the two configuration
    objects and the source of fresh identifiers ([uuid_values k] is the
    [k]-th value [uuid.uuid4()] yields). *)
Record world : Type := {
  config : dict re.regex;
  template : vendor_template;
  uuid_values : nat -> str;
  uuid_calls : nat
}.

(** [str(uuid.uuid4())] *)
Definition uuid4 (w : world) : str * world :=
  (uuid_values w (uuid_calls w),
   {| config := config w; template := template w;
      uuid_values := uuid_values w; uuid_calls := S (uuid_calls w) |}).

(** The state after the module is loaded. *)
Definition loaded (ids : nat -> str) (calls : nat) : world :=
  {| config := INVOICE_CONFIG; template := KNOWN_VENDOR_TEMPLATE;
     uuid_values := ids; uuid_calls := calls |}.

Definition newline : ascii := ascii_of_nat 10.

(** The vendor check on the first five lines. *)
Definition is_known_vendor (t : vendor_template) (raw_text : str) : bool :=
  let first_lines := upper (join [newline] (firstn 5 (split_on newline raw_text))) in
  containsN (upper (template_vendor_name t)) first_lines.

(** The pattern set in force: a copy of the configuration, with the
    overrides of the template when the vendor is known. *)
Definition effective_patterns (w : world) (raw_text : str) : dict re.regex :=
  let patterns := config w in
  if is_known_vendor (template w) raw_text
  then dict_update patterns (regex_overrides (template w))
  else patterns.

Definition is_monetary (field : string) : bool :=
  String.eqb field "total_amount" || String.eqb field "tax_amount".

(** One turn of the loop over [patterns.items()]. *)
Definition field_step (raw_text : str) (field : string) (pattern : re.regex)
  (parsed_data : dict value) : exc (dict value) :=
  if String.eqb field "line_item_pattern" then Ok parsed_data
  else
    match re.search pattern raw_text re.IM with
    | Some m =>
        catch
          (g <- group m 1 ;;
           value <- strip_opt g ;;
           if is_monetary field
           then f <- parse_float value ;; Ok (dict_set field (of_opt_float f) parsed_data)
           else Ok (dict_set field (VStr value) parsed_data))
          (fun e => match e with IndexError => Some (Ok parsed_data) | _ => None end)
    | None => Ok parsed_data
    end.

Fixpoint for_fields (raw_text : str) (items : dict re.regex) (parsed_data : dict value)
  : exc (dict value) :=
  match items with
  | [] => Ok parsed_data
  | (field, pattern) :: rest =>
      parsed_data' <- field_step raw_text field pattern parsed_data ;;
      for_fields raw_text rest parsed_data'
  end.

(** Validation of a keyword argument of the model: a text field. *)
Definition str_field (d : dict value) (k : string) : exc (option str) :=
  match dict_get k d with
  | None | Some VNone => Ok None
  | Some (VStr s) => Ok (Some s)
  | Some (VFloat _) => Raise ValidationError
  end.

(** Validation of a keyword argument of the model: a numeric field.  The
    parser stores only numbers under these keys. *)
Definition float_field (d : dict value) (k : string) : exc (option float) :=
  match dict_get k d with
  | None | Some VNone => Ok None
  | Some (VFloat f) => Ok (Some f)
  | Some (VStr _) => Raise ValidationError
  end.

(** [ParsedInvoice(invoice_id=..., raw_text=..., line_items=..., **parsed_data)] *)
Definition make_invoice (id raw : str) (items : list LineItem) (d : dict value)
  : exc ParsedInvoice :=
  vn <- str_field d "vendor_name" ;;
  num <- str_field d "invoice_number" ;;
  dt <- str_field d "date" ;;
  tot <- float_field d "total_amount" ;;
  tax <- float_field d "tax_amount" ;;
  gst <- str_field d "gst_number" ;;
  Ok {| invoice_id := id; vendor_name := vn; invoice_number := num; date := dt;
        total_amount := tot; tax_amount := tax; gst_number := gst;
        line_items := items; raw_text := raw |}.

Definition parse_invoice_data (raw_text : str) (w : world) : exc ParsedInvoice * world :=
  let '(invoice_id, w1) := uuid4 w in
  let patterns := effective_patterns w1 raw_text in
  (parsed_data <- for_fields raw_text patterns [] ;;
   pattern <- dict_index (config w1) "line_item_pattern" ;;
   line_items <- parse_line_items raw_text pattern ;;
   make_invoice invoice_id raw_text line_items parsed_data,
   w1).

(** ** Numbers as text *)

Definition digit_chr (d : Z) : ascii := ascii_of_N (Z.to_N (48 + d)).

Fixpoint dec_digits_fuel (fuel : nat) (n : Z) (acc : str) : str :=
  match fuel with
  | 0 => acc
  | S fuel' =>
      let acc' := digit_chr (n mod 10) :: acc in
      if (n <? 10)%Z then acc' else dec_digits_fuel fuel' (n / 10)%Z acc'
  end.

(** [str(n)] for an integer that is not negative. *)
Definition dec_digits (n : Z) : str :=
  dec_digits_fuel (S (Z.to_nat (Z.log2 n))) n [].

Definition float_eqb (x y : float) : bool :=
  match x, y with
  | S754_zero a, S754_zero b => Bool.eqb a b
  | S754_infinity a, S754_infinity b => Bool.eqb a b
  | S754_nan, S754_nan => true
  | S754_finite a m e, S754_finite b m' e' =>
      Bool.eqb a b && Pos.eqb m m' && Z.eqb e e'
  | _, _ => false
  end.

(** The text of a float from its significant digits [ds] and the position
    [decpt] of the decimal point (the value is [0.ds * 10^decpt]): exponent
    notation when [decpt <= -4] or [decpt > 16], and otherwise positional
    notation that always shows a fractional part. *)
Definition format_repr (sign : bool) (ds : str) (decpt : Z) : str :=
  let n := Z.of_nat (length ds) in
  (if sign then ["-"%char] else []) ++
  if ((decpt <=? -4) || (16 <? decpt))%Z then
    let exp := (decpt - 1)%Z in
    let xs := dec_digits (Z.abs exp) in
    firstn 1 ds
    ++ match skipn 1 ds with [] => [] | rest => "."%char :: rest end
    ++ ["e"%char; if (exp <? 0)%Z then "-"%char else "+"%char]
    ++ match xs with [_] => "0"%char :: xs | _ => xs end
  else if (decpt <=? 0)%Z then
    lit "0." ++ repeat "0"%char (Z.to_nat (- decpt)) ++ ds
  else if (decpt <? n)%Z then
    firstn (Z.to_nat decpt) ds ++ "."%char :: skipn (Z.to_nat decpt) ds
  else
    ds ++ repeat "0"%char (Z.to_nat (decpt - n)) ++ lit ".0".

(** The fraction [num / den] equal to [m * 2^e]. *)
Definition ratio (m : positive) (e : Z) : Z * Z :=
  if (0 <=? e)%Z then (Zpos m * 2 ^ e, 1)%Z else (Zpos m, 2 ^ (- e))%Z.

(** [num / den] divided by [10^k], as a fraction. *)
Definition scaled (num den k : Z) : Z * Z :=
  if (0 <=? k)%Z then (num, den * 10 ^ k)%Z else (num * 10 ^ (- k), den)%Z.

(** The integer [p] with [10^p <= num / den < 10^(p+1)]. *)
Definition ilog10 (num den : Z) : Z :=
  let c := (Z.of_nat (length (dec_digits num)) - Z.of_nat (length (dec_digits den)))%Z in
  let '(x, d) := scaled num den c in
  if (d <=? x)%Z then c else (c - 1)%Z.

Definition rstrip_zeros (ds : str) : str :=
  rev (dropwhile (fun a => chr_eqb a "0") (rev ds)).

(** Digits and decimal point of the number [d * 10^k]. *)
Definition digits_of (d k : Z) : str * Z :=
  let ds := dec_digits d in
  (rstrip_zeros ds, Z.of_nat (length ds) + k)%Z.

(** The decimals of [nd] significant digits next to [num / den], the nearer
    one first. *)
Definition candidates_at (num den : Z) (nd : nat) : list (str * Z) :=
  let k := (ilog10 num den + 1 - Z.of_nat nd)%Z in
  let '(x, d) := scaled num den k in
  let lo := (x / d)%Z in
  let r := (x mod d)%Z in
  let hi := (lo + 1)%Z in
  if (r =? 0)%Z then [digits_of lo k]
  else
    match (2 * r ?= d)%Z with
    | Lt => [digits_of lo k; digits_of hi k]
    | Gt => [digits_of hi k; digits_of lo k]
    | Eq => if Z.even lo then [digits_of lo k; digits_of hi k]
            else [digits_of hi k; digits_of lo k]
    end.

Definition reads_back (x : float) (sign : bool) (c : str * Z) : bool :=
  match float_of_str (format_repr sign (fst c) (snd c)) with
  | Ok y => float_eqb y x
  | Raise _ => false
  end.

(** The exact decimal expansion of [m * 2^e]: the digits of [m * 2^e], or
    of [m * 5^(-e)] with the point moved [-e] places to the left. *)
Definition exact_digits (m : positive) (e : Z) : str * Z :=
  let d := if (0 <=? e)%Z then (Zpos m * 2 ^ e)%Z else (Zpos m * 5 ^ (- e))%Z in
  let ds := dec_digits d in
  (ds, Z.of_nat (length ds) + Z.min e 0)%Z.

(** The shortest digit string that reads back as the same float, and
    among the shortest the one nearest to it.  Seventeen digits are enough
    for every binary64 value; the exact expansion, which reads back as
    well, stands behind the search so that the function is total. *)
Definition shortest_digits (sign : bool) (m : positive) (e : Z) : str * Z :=
  let '(num, den) := ratio m e in
  match find (reads_back (S754_finite sign m e) sign)
             (flat_map (candidates_at num den) (seq 1 17)) with
  | Some c => c
  | None => exact_digits m e
  end.

(** [repr(x)], which is also [str(x)], for a float. *)
Definition float_repr (x : float) : str :=
  match x with
  | S754_nan => lit "nan"
  | S754_infinity s => if s then lit "-inf" else lit "inf"
  | S754_zero s => format_repr s (lit "0") 1
  | S754_finite s m e =>
      let c := shortest_digits s m e in format_repr s (fst c) (snd c)
  end.

(** ** The report *)

(** A value handed to the CSV writer. *)
Inductive cell : Type :=
| CNone
| CStr (s : str)
| CFloat (f : float).

Definition cell_text (c : cell) : str :=
  match c with
  | CNone => []
  | CStr s => s
  | CFloat f => float_repr f
  end.

Definition comma : ascii := ",".
Definition dquote : ascii := ascii_of_nat 34.
Definition cr : ascii := ascii_of_nat 13.

(** The characters that make the writer quote a field: the delimiter, the
    quote character and the characters of the line terminator. *)
Definition special (a : ascii) : bool :=
  chr_eqb a comma || chr_eqb a dquote || chr_eqb a cr || chr_eqb a newline.

Definition double_quotes (s : str) : str :=
  flat_map (fun a => if chr_eqb a dquote then [dquote; dquote] else [a]) s.

Definition quoted (s : str) : str := dquote :: double_quotes s ++ [dquote].

(** One field under minimal quoting. *)
Definition write_field (s : str) : str :=
  if existsb special s then quoted s else s.

(** [writer.writerow(row)] in the default dialect: fields joined by commas,
    a lone empty field written as two quotes, and CR LF at the end. *)
Definition writerow (row : list cell) : str :=
  match map cell_text row with
  | [[]] => [dquote; dquote; cr; newline]
  | texts => join [comma] (map write_field texts) ++ [cr; newline]
  end.

Definition opt_str (x : option str) : cell :=
  match x with Some s => CStr s | None => CNone end.

Definition opt_float (x : option float) : cell :=
  match x with Some f => CFloat f | None => CNone end.

Definition header_rows (invoice : ParsedInvoice) : list (list cell) :=
  [[CStr (lit "Invoice ID"); CStr (invoice_id invoice)];
   [CStr (lit "Vendor Name"); opt_str (vendor_name invoice)];
   [CStr (lit "Invoice Number"); opt_str (invoice_number invoice)];
   [CStr (lit "Date"); opt_str (date invoice)];
   [CStr (lit "GST Number"); opt_str (gst_number invoice)];
   [CStr (lit "Tax Amount"); opt_float (tax_amount invoice)];
   [CStr (lit "Total Amount"); opt_float (total_amount invoice)]].

Definition item_row (item : LineItem) : list cell :=
  [CStr (description item); opt_float (quantity item);
   opt_float (unit_price item); opt_float (line_total item)].

(** The rows written, in order. *)
Definition report_rows (invoice : ParsedInvoice) : list (list cell) :=
  [[CStr (lit "--- INVOICE HEADER DETAILS ---")]]
  ++ header_rows invoice
  ++ [[]]
  ++ [[CStr (lit "--- LINE ITEMS ---")]]
  ++ [[CStr (lit "Description"); CStr (lit "Quantity"); CStr (lit "Unit Price");
       CStr (lit "Line Total")]]
  ++ map item_row (line_items invoice).

Definition generate_csv_string (invoice : ParsedInvoice) : str :=
  concat (map writerow (report_rows invoice)).

(** *** Reading the report back *)

(** Modelled from the spec: the states of the reader of the export; the
    repository has the writer only. *)
Inductive rstate : Type :=
| AtRecord      (* at the start of a record *)
| AtField       (* after a delimiter *)
| InField       (* inside an unquoted field *)
| InQuoted      (* inside a quoted field *)
| AfterQuote    (* after a quote inside a quoted field *)
| AfterCR.      (* after the carriage return that ends a record *)

(** Modelled from the spec: what the reader holds while it reads. *)
Record reader : Type := {
  r_state : rstate;
  r_field : str;                (* the current field, reversed *)
  r_row : list str;             (* the current record, reversed *)
  r_rows : list (list str)      (* the records read so far, reversed *)
}.

Definition end_record (row : list str) (rows : list (list str)) (st : rstate) : reader :=
  {| r_state := st; r_field := []; r_row := []; r_rows := rev row :: rows |}.

Definition end_field (fld : str) (row : list str) (rows : list (list str)) : reader :=
  {| r_state := AtField; r_field := []; r_row := rev fld :: row; r_rows := rows |}.

Definition in_state (st : rstate) (fld : str) (row : list str) (rows : list (list str))
  : reader :=
  {| r_state := st; r_field := fld; r_row := row; r_rows := rows |}.

(** Modelled from the spec: one step of the reader of the delimited export,
    which the repository does not contain (it has the writer only).  It
    reads the dialect the writer produces: fields separated by commas,
    records ended by CR LF (or CR or LF alone), fields quoted with double
    quotes, a quote inside a quoted field written twice. *)
Definition read_chr (r : reader) (a : ascii) : reader :=
  let fld := r_field r in
  let row := r_row r in
  let rows := r_rows r in
  let start_field (record_start : bool) :=
    if chr_eqb a cr
    then (if record_start then end_record [] rows AfterCR
          else end_record ([] :: row) rows AfterCR)
    else if chr_eqb a newline
    then (if record_start then end_record [] rows AtRecord
          else end_record ([] :: row) rows AtRecord)
    else if chr_eqb a dquote then in_state InQuoted [] row rows
    else if chr_eqb a comma then end_field [] row rows
    else in_state InField [a] row rows in
  match r_state r with
  | AtRecord => start_field true
  | AfterCR =>
      if chr_eqb a newline then in_state AtRecord [] [] rows else start_field true
  | AtField => start_field false
  | InField =>
      if chr_eqb a cr then end_record (rev fld :: row) rows AfterCR
      else if chr_eqb a newline then end_record (rev fld :: row) rows AtRecord
      else if chr_eqb a comma then end_field fld row rows
      else in_state InField (a :: fld) row rows
  | InQuoted =>
      if chr_eqb a dquote then in_state AfterQuote fld row rows
      else in_state InQuoted (a :: fld) row rows
  | AfterQuote =>
      if chr_eqb a dquote then in_state InQuoted (a :: fld) row rows
      else if chr_eqb a cr then end_record (rev fld :: row) rows AfterCR
      else if chr_eqb a newline then end_record (rev fld :: row) rows AtRecord
      else if chr_eqb a comma then end_field fld row rows
      else in_state InField (a :: fld) row rows
  end.

(** Modelled from the spec: the records read once the input ends; a last
    record without a line end is kept. *)
Definition read_end (r : reader) : list (list str) :=
  match r_state r with
  | AtRecord | AfterCR => rev (r_rows r)
  | _ => rev (rev (rev (r_field r) :: r_row r) :: r_rows r)
  end.

(** Modelled from the spec: reading a document from a reader state. *)
Definition read_from (r : reader) (inp : str) : list (list str) :=
  read_end (fold_left read_chr inp r).

(** Modelled from the spec: re-reading the export as rows of cells. *)
Definition read_csv (doc : str) : list (list str) :=
  read_from (in_state AtRecord [] [] []) doc.

(** ** Notions used in the statements *)

(** What one line of the section adds to the result. *)
Definition emits (pattern : re.regex) (line : str) : list LineItem :=
  match line_step pattern line [] with
  | Ok items => items
  | Raise _ => []
  end.

(** The lines scanned for items: from the first header line onward. *)
Definition section_lines (raw_text : str) : list str :=
  let lines := split_on newline raw_text in
  match find_start lines 0 with
  | Some start_index => skipn start_index lines
  | None => []
  end.

(** Equality of texts up to letter case. *)
Definition eq_upto_case (a b : str) : Prop := lower_str a = lower_str b.

(** [line] contains [kw], letter case ignored. *)
Definition contains_ci (kw line : str) : Prop :=
  exists pre w post, line = pre ++ w ++ post /\ eq_upto_case w kw.

Definition summary_keywords : list str :=
  map lit ["SUBTOTAL"; "TAX"; "TOTAL"; "BALANCE"; "GST"; "PAYABLE"]%string.

(** [w] at the head of [s], under the flags. *)
Fixpoint starts_with (fl : re.flags) (w s : str) : bool :=
  match w, s with
  | [], _ => true
  | c :: w', a :: s' => re.item_mem fl a (re.Chr c) && starts_with fl w' s'
  | _ :: _, [] => false
  end.

(** The quantity derived from a rate [u] and a total [t]:
    [float(round(t / u))]. *)
Definition derived (u t : float) : exc float :=
  q <- truediv t u ;; n <- py_round q ;; float_of_int n.

(** A number that is not negative (and not NaN). *)
Definition nonneg (f : float) : bool :=
  match f with
  | S754_zero false | S754_infinity false | S754_finite false _ _ => true
  | _ => false
  end.

(** The characters of the set r"[\d,\.]". *)
Definition amount_chr (a : ascii) : bool :=
  isdecimal a || chr_eqb a "," || chr_eqb a ".".

(** Every group of [r] holds text that satisfies [Q]. *)
Fixpoint groups_sound (fl : re.flags) (Q : nat -> str -> Prop) (r : re.regex) : Prop :=
  match r with
  | re.Eps | re.One _ | re.Rep _ _ _ => True
  | re.Seq r1 r2 | re.Alt r1 r2 => groups_sound fl Q r1 /\ groups_sound fl Q r2
  | re.Opt r1 => groups_sound fl Q r1
  | re.Grp n r1 =>
      (forall s g s1 g1, In (s1, g1) (re.run fl r1 s g) -> Q n (re.consumed s s1))
      /\ groups_sound fl Q r1
  end.

(** Decimal digits and the point. *)
Definition digdot (a : ascii) : bool := isdecimal a || chr_eqb a ".".

(** Group [n] is set by every match of [r]. *)
Fixpoint always_sets (n : nat) (r : re.regex) : bool :=
  match r with
  | re.Grp k r1 => Nat.eqb k n || always_sets n r1
  | re.Seq r1 r2 => always_sets n r1 || always_sets n r2
  | re.Alt r1 r2 => always_sets n r1 && always_sets n r2
  | _ => false
  end.

(** A pattern set whose keys are distinct and whose field patterns have a
    first group that every match sets. *)
Fixpoint good_patterns (items : dict re.regex) : bool :=
  match items with
  | [] => true
  | (k, p) :: rest =>
      (String.eqb k "line_item_pattern"
       || (always_sets 1 p && Nat.leb 1 (re.ngroups p)))
      && negb (existsb (fun kv => String.eqb (fst kv) k) rest)
      && good_patterns rest
  end.

(** Numeric cleaning of an optional text. *)
Definition cleaned (o : option str) : option float :=
  match o with
  | Some v => match parse_float v with Ok r => r | Raise _ => None end
  | None => None
  end.

(** The trimmed first group of the first match of [p] in the text. *)
Definition first_group (raw : str) (p : re.regex) : option str :=
  match re.search p raw re.IM with
  | Some m => option_map strip (re.lookup 1 (re.m_groups m))
  | None => None
  end.

(** The same for the pattern in force for [field]. *)
Definition found (w : world) (raw : str) (field : string) : option str :=
  match dict_get field (effective_patterns w raw) with
  | Some p => first_group raw p
  | None => None
  end.

(** What the loop stores for [field]. *)
Definition field_value (raw : str) (field : string) (p : re.regex) : option value :=
  match first_group raw p with
  | Some v => Some (if is_monetary field then of_opt_float (cleaned (Some v)) else VStr v)
  | None => None
  end.

Definition extracted (raw : str) (items : dict re.regex) (k : string) : option value :=
  if String.eqb k "line_item_pattern" then None
  else match dict_get k items with
       | Some p => field_value raw k p
       | None => None
       end.



(** The record the parser builds from a text, but for the identifier. *)
Definition parsed (w : world) (raw : str) (lp : re.regex) (id : str) : ParsedInvoice :=
  {| invoice_id := id;
     vendor_name := found w raw "vendor_name";
     invoice_number := found w raw "invoice_number";
     date := found w raw "date";
     total_amount := cleaned (found w raw "total_amount");
     tax_amount := cleaned (found w raw "tax_amount");
     gst_number := found w raw "gst_number";
     line_items := flat_map (emits lp) (section_lines raw);
     raw_text := raw |}.

(** A decimal numeral: sign, integer digits, optional fraction, optional
    exponent (its sign and digits). *)
Definition numeral (sign : bool) (ip : str) (frac : option str)
  (ex : option (bool * str)) : str :=
  (if sign then ["-"%char] else [])
  ++ ip
  ++ match frac with Some fp => "."%char :: fp | None => [] end
  ++ match ex with
     | Some (es, ed) => "e"%char :: (if es then "-"%char else "+"%char) :: ed
     | None => []
     end.

(** The characters of a numeral. *)
Definition numchr (a : ascii) : bool :=
  isdecimal a || chr_eqb a "." || chr_eqb a "e" || chr_eqb a "+" || chr_eqb a "-".

(** ** The service *)

(** The text [extract_text_tesseract] returns when the OCR libraries are
    not installed. *)
Definition placeholder_text : str :=
  join [newline]
    (map lit ["Acme Corp"; "123 Main St, Anytown, USA";
              "Invoice No: ACME-INV-45678"; "Date: 01/01/2024";
              "GSTIN: 22AAAAA0000A1Z5"; "ITEM QTY RATE TOTAL";
              "1. Consulting Service 1 500.00 500.00";
              "2. Software License 2 150.00 300.00";
              "Subtotal: 800.00"; "TAX (10%): 80.00";
              "GRAND TOTAL: 880.00"]%string).

(** What the code of a request handler can raise, as far as its [except]
    clauses tell exceptions apart: the built-in exceptions of the parser,
    [RuntimeError], the [HTTPException] of the web framework, and any
    exception that is neither a [RuntimeError] nor a [ValueError]. *)
Inductive raised : Type :=
| Builtin (e : exception)
| RuntimeError
| HTTPException (status_code : nat)
| OtherException.

Inductive outcome (A : Type) : Type :=
| Returns (a : A)
| Raises (e : raised).

Arguments Returns {A} a.
Arguments Raises {A} e.

(** What the client of an endpoint receives: the body of a 200 response,
    or the status code of the [HTTPException] that left the handler (the
    detail text is not kept). *)
Inductive response (A : Type) : Type :=
| Success (body : A)
| Failure (status_code : nat).

Arguments Success {A} body.
Arguments Failure {A} status_code.

(** [MOCK_DATABASE]: the stored invoices by identifier.  The source stores
    [model_dump()] of the record and rebuilds the record from it. *)
Definition database := list (str * ParsedInvoice).

(** [MOCK_DATABASE.get(k)] *)
Fixpoint db_get (k : str) (d : database) : option ParsedInvoice :=
  match d with
  | [] => None
  | (k', v) :: d' => if str_eqb k' k then Some v else db_get k d'
  end.

(** [MOCK_DATABASE[k] = v] *)
Fixpoint db_set (k : str) (v : ParsedInvoice) (d : database) : database :=
  match d with
  | [] => [(k, v)]
  | (k', v') :: d' =>
      if str_eqb k' k then (k', v) :: d' else (k', v') :: db_set k v d'
  end.

(** The state of the running service. *)
Record server : Type := {
  state : world;
  MOCK_DATABASE : database
}.

Definition accepted_types : list string :=
  ["image/jpeg"; "image/png"; "application/pdf"; "image/tiff"]%string.

(** [file.content_type not in [...]]; the content type may be missing. *)
Definition not_accepted (content_type : option string) : bool :=
  match content_type with
  | Some t => negb (existsb (String.eqb t) accepted_types)
  | None => true
  end.

(** The status of the [HTTPException] each [except] clause of
    [upload_invoice] raises.  The validation error of the record model is a
    [ValueError]. *)
Definition handler_status (e : raised) : nat :=
  match e with
  | RuntimeError => 500
  | Builtin ValueError | Builtin ValidationError => 422
  | Builtin _ | HTTPException _ | OtherException => 500
  end.

(** The body of the response of [download_csv]. *)
Record csv_response : Type := {
  content : str;
  media_type : str;
  content_disposition : str
}.

Section Service.

(** The image libraries stay outside the model: [preprocess_image] turns
    the bytes of the upload into an image or raises, and
    [pytesseract.image_to_string] turns an image into text or raises. *)
Variable Image : Type.
Variable preprocess_image : str -> outcome Image.
Variable image_to_string : Image -> outcome str.
Variable HAS_OCR_DEPS : bool.

Definition extract_text_tesseract (image : Image) : outcome str :=
  if negb HAS_OCR_DEPS then Returns placeholder_text
  else
    match image_to_string image with
    | Returns text => Returns text
    | Raises _ => Raises RuntimeError
    end.

(** The [try] block of [upload_invoice]. *)
Definition upload_body (file_bytes : str) (sv : server) : outcome ParsedInvoice * server :=
  match preprocess_image file_bytes with
  | Raises e => (Raises e, sv)
  | Returns preprocessed_img =>
      match extract_text_tesseract preprocessed_img with
      | Raises e => (Raises e, sv)
      | Returns raw_text =>
          match strip raw_text with
          | [] => (Raises (HTTPException 500), sv)
          | _ =>
              let '(r, w) := parse_invoice_data raw_text (state sv) in
              match r with
              | Raise e =>
                  (Raises (Builtin e),
                   {| state := w; MOCK_DATABASE := MOCK_DATABASE sv |})
              | Ok parsed_invoice =>
                  (Returns parsed_invoice,
                   {| state := w;
                      MOCK_DATABASE := db_set (invoice_id parsed_invoice) parsed_invoice
                                         (MOCK_DATABASE sv) |})
              end
          end
      end
  end.

Definition upload_invoice (content_type : option string) (file_bytes : str) (sv : server)
  : response ParsedInvoice * server :=
  if not_accepted content_type then (Failure 400, sv)
  else
    let '(r, sv') := upload_body file_bytes sv in
    match r with
    | Returns parsed_invoice => (Success parsed_invoice, sv')
    | Raises e => (Failure (handler_status e), sv')
    end.

Definition download_csv (invoice_id : str) (sv : server) : response csv_response :=
  match db_get invoice_id (MOCK_DATABASE sv) with
  | None => Failure 404
  | Some invoice_model =>
      Success {| content := generate_csv_string invoice_model;
                 media_type := lit "text/csv";
                 content_disposition :=
                   lit "attachment; filename=invoice_data_" ++ invoice_id ++ lit ".csv" |}
  end.

(** A request to the service, and the service after a run of requests. *)
Inductive request : Type :=
| Upload (content_type : option string) (file_bytes : str)
| Download (invoice_id : str).

Definition handle (sv : server) (rq : request) : server :=
  match rq with
  | Upload content_type file_bytes => snd (upload_invoice content_type file_bytes sv)
  | Download _ => sv
  end.

Definition serve (rqs : list request) (sv : server) : server :=
  fold_left handle rqs sv.

End Service.

(** The service as it starts: the module loaded, nothing stored. *)
Definition started (ids : nat -> str) : server :=
  {| state := loaded ids 0; MOCK_DATABASE := [] |}.

(** The identifiers drawn so far. *)
Definition issued (w : world) (id : str) : Prop :=
  exists k, k < uuid_calls w /\ uuid_values w k = id.

(** What holds of the service after every request: the state is that of
    the loaded module, and every stored invoice is the record parsed from a
    text that is not blank, filed under its identifier. *)
Definition service_inv (ids : nat -> str) (sv : server) : Prop :=
  exists n, state sv = loaded ids n /\
    forall id inv, db_get id (MOCK_DATABASE sv) = Some inv ->
      exists k raw, k < n /\ id = ids k /\ strip raw <> [] /\
        inv = parsed (loaded ids k) raw line_item_re (ids k).

(** ** Shapes of matched text *)

(** The character sets a pattern reads characters with. *)
Fixpoint sets_of (r : re.regex) : list (list re.item) :=
  match r with
  | re.Eps => []
  | re.One cs | re.Rep cs _ _ => [cs]
  | re.Seq r1 r2 | re.Alt r1 r2 => sets_of r1 ++ sets_of r2
  | re.Opt r1 | re.Grp _ r1 => sets_of r1
  end.

(** The least and the greatest length of a text a pattern matches; [None]
    for no upper bound. *)
Fixpoint min_len (r : re.regex) : nat :=
  match r with
  | re.Eps => 0
  | re.One _ => 1
  | re.Seq r1 r2 => min_len r1 + min_len r2
  | re.Alt r1 r2 => Nat.min (min_len r1) (min_len r2)
  | re.Opt _ => 0
  | re.Rep _ lo _ => lo
  | re.Grp _ r1 => min_len r1
  end.

Fixpoint max_len (r : re.regex) : option nat :=
  match r with
  | re.Eps => Some 0
  | re.One _ => Some 1
  | re.Seq r1 r2 =>
      match max_len r1, max_len r2 with
      | Some a, Some b => Some (a + b)
      | _, _ => None
      end
  | re.Alt r1 r2 =>
      match max_len r1, max_len r2 with
      | Some a, Some b => Some (Nat.max a b)
      | _, _ => None
      end
  | re.Opt r1 | re.Grp _ r1 => max_len r1
  | re.Rep _ _ hi => hi
  end.

Definition at_most (n : nat) (bound : option nat) : Prop :=
  match bound with
  | Some b => n <= b
  | None => True
  end.

(** A text of characters in [P] whose length is within the bounds. *)
Definition shaped (P : ascii -> bool) (lo : nat) (hi : option nat) (w : str) : Prop :=
  forallb P w = true /\ lo <= length w /\ at_most (length w) hi.

(** The groups of a pattern: number and body. *)
Fixpoint grps (r : re.regex) : list (nat * re.regex) :=
  match r with
  | re.Eps | re.One _ | re.Rep _ _ _ => []
  | re.Seq r1 r2 | re.Alt r1 r2 => grps r1 ++ grps r2
  | re.Opt r1 => grps r1
  | re.Grp n r1 => (n, r1) :: grps r1
  end.

(** The characters of a date: digits, hyphen and slash. *)
Definition date_chr (a : ascii) : bool :=
  isdecimal a || chr_eqb a "-" || chr_eqb a "/".

(** The characters [parse_float] removes before the conversion. *)
Definition removed_chr (a : ascii) : bool :=
  chr_eqb a "$" || chr_eqb a "," || chr_eqb a (ascii_of_nat 163)
  || chr_eqb a "(" || chr_eqb a ")".

(** A float that is a real number: neither infinite nor NaN. *)
Definition is_real (f : float) : bool :=
  match f with
  | S754_zero _ | S754_finite _ _ _ => true
  | S754_infinity _ | S754_nan => false
  end.

(** ** Text with code points above U+00FF *)

Module wide.

(** Python text in full: one code point per character. *)
Definition text := list N.


(** The code points a pattern character [c] of the ASCII range matches
    under [re.IGNORECASE]: the character itself and, for a letter, its
    other case and the code points that the case mappings lead to it:
    U+0130 and U+0131 for i, U+017F for s, U+212A for k. *)
Definition variants (c : ascii) : list N :=
  if between 65 90 c || between 97 122 c then
    let lo := code (tolower c) in
    [lo; (lo - 32)%N]
    ++ (if (lo =? 105)%N then [304%N; 305%N]
        else if (lo =? 115)%N then [383%N]
        else if (lo =? 107)%N then [8490%N]
        else [])
  else [code c].

Definition matches (ch : N) (c : ascii) : bool := existsb (N.eqb ch) (variants c).

(** The literal [w] at the head of [s], letter case ignored. *)
Fixpoint prefix (w : str) (s : text) : bool :=
  match w, s with
  | [], _ => true
  | c :: w', ch :: s' => matches ch c && prefix w' s'
  | _ :: _, [] => false
  end.

(** [re.search] for a pattern that is one group around the literal [w],
    under [re.IGNORECASE]: the text of the group at the first match. *)
Fixpoint find (w : str) (s : text) : option text :=
  if prefix w s then Some (firstn (length w) s)
  else match s with
       | [] => None
       | _ :: s' => find w s'
       end.

(** [str.isspace] on one code point. *)
Definition isspace (ch : N) : bool :=
  ((9 <=? ch) && (ch <=? 13) || (28 <=? ch) && (ch <=? 32) || (ch =? 133) || (ch =? 160)
   || (ch =? 5760) || (8192 <=? ch) && (ch <=? 8202) || (ch =? 8232) || (ch =? 8233)
   || (ch =? 8239) || (ch =? 8287) || (ch =? 12288))%N.

Fixpoint dropwhile (p : N -> bool) (s : text) : text :=
  match s with
  | [] => []
  | ch :: s' => if p ch then dropwhile p s' else s
  end.

(** [s.strip()] *)
Definition strip (s : text) : text :=
  rev (dropwhile isspace (rev (dropwhile isspace s))).

(** What the field loop stores under the key "vendor_name", which no
    override replaces: [match.group(1).strip()] for the first match of
    r"(S\.K\.P\.S DIGITAL)" in the text. *)
Definition vendor_name (raw_text : text) : option text :=
  option_map strip (find (lit "S.K.P.S DIGITAL") raw_text).







End wide.

(** * Properties *)

Unset Implicit Arguments.

(** ** The matcher *)

Lemma run_word (fl : re.flags) (w : str) (s : str) (g : re.groups) :
  re.run fl (re.seqs (map re.chr w)) s g =
  if starts_with fl w s then [(skipn (length w) s, g)] else [].
Proof.
  revert s g. induction w as [|c w IH]; intros s g.
  - reflexivity.
  - destruct w as [|c' w'].
    + cbn [map re.seqs re.chr re.run starts_with length skipn].
      destruct s as [|a s]; [reflexivity|].
      unfold re.mem. cbn [existsb]. rewrite orb_false_r, andb_true_r.
      destruct (re.item_mem fl a (re.Chr c)); reflexivity.
    + change (re.seqs (map re.chr (c :: c' :: w')))
        with (re.Seq (re.chr c) (re.seqs (map re.chr (c' :: w')))).
      cbn [re.run re.chr]. destruct s as [|a s]; [reflexivity|].
      unfold re.mem. cbn [existsb]. rewrite orb_false_r.
      cbn [starts_with]. destruct (re.item_mem fl a (re.Chr c)); cbn [flat_map andb].
      * cbn [fst snd]. rewrite IH, app_nil_r. reflexivity.
      * reflexivity.
Qed.

Lemma run_alts_in (fl : re.flags) (rs : list re.regex) (r : re.regex) (s : str)
  (g : re.groups) :
  In r rs -> re.run fl r s g <> [] -> re.run fl (re.alts rs) s g <> [].
Proof.
  induction rs as [|r0 rs IH]; intros Hin Hr; [contradiction|].
  destruct rs as [|r1 rs'].
  - destruct Hin as [->|[]]. exact Hr.
  - change (re.alts (r0 :: r1 :: rs')) with (re.Alt r0 (re.alts (r1 :: rs'))).
    cbn [re.run]. destruct Hin as [->|Hin].
    + destruct (re.run fl r s g); [contradiction|discriminate].
    + specialize (IH Hin Hr). intros Happ. apply app_eq_nil in Happ. tauto.
Qed.

Lemma search_from_app (fl : re.flags) (r : re.regex) (s1 s2 : str) (pos : nat) :
  re.run fl r s2 [] <> [] ->
  exists m, re.search_from fl r (s1 ++ s2) pos = Some m.
Proof.
  revert pos. induction s1 as [|a s1 IH]; intros pos Hne.
  - cbn [app]. destruct s2 as [|b s2]; cbn [re.search_from];
      destruct (re.run fl r _ []) as [|[rest g0] tl]; try contradiction; eauto.
  - cbn [app re.search_from].
    destruct (re.run fl r (a :: s1 ++ s2) []) as [|[rest g0] tl]; eauto.
Qed.

Lemma search_from_ngroups (fl : re.flags) (r : re.regex) (s : str) (pos : nat)
  (m : re.Match) :
  re.search_from fl r s pos = Some m -> re.m_ngroups m = re.ngroups r.
Proof.
  revert pos. induction s as [|a s IH]; intros pos; cbn [re.search_from];
    destruct (re.run fl r _ []) as [|[rest g0] tl]; intros H;
    try discriminate; try (injection H as <-; reflexivity).
  eapply IH; eauto.
Qed.

(** A match found by [search] is the first result of the matcher at its
    start, and no earlier position has one. *)
Lemma search_from_found (fl : re.flags) (r : re.regex) (s : str) (pos : nat)
  (m : re.Match) :
  re.search_from fl r s pos = Some m ->
  exists k rest tl,
    re.m_start m = pos + k /\ k <= length s /\
    re.run fl r (skipn k s) [] = (rest, re.m_groups m) :: tl /\
    forall j, j < k -> re.run fl r (skipn j s) [] = [].
Proof.
  revert pos. induction s as [|a s IH]; intros pos; cbn [re.search_from].
  - destruct (re.run fl r [] []) as [|[rest g0] tl] eqn:E; [discriminate|].
    intros H. injection H as <-. exists 0, rest, tl. cbn.
    repeat split; try lia. exact E.
  - destruct (re.run fl r (a :: s) []) as [|[rest g0] tl] eqn:E.
    + intros H. destruct (IH _ H) as (k & rest & tl & Hs & Hk & Hrun & Hno).
      exists (S k), rest, tl. cbn [skipn length]. repeat split; try lia; trivial.
      intros [|j] Hj; cbn [skipn]; [exact E|]. apply Hno. lia.
    + intros H. injection H as <-. exists 0, rest, tl. cbn.
      repeat split; try lia. exact E.
Qed.

Lemma search_from_none (fl : re.flags) (r : re.regex) (s : str) (pos : nat) :
  re.search_from fl r s pos = None ->
  forall j, re.run fl r (skipn j s) [] = [].
Proof.
  revert pos. induction s as [|a s IH]; intros pos; cbn [re.search_from];
    destruct (re.run fl r _ []) as [|[rest g0] tl] eqn:E; try discriminate.
  - intros _ [|j]; exact E.
  - intros H [|j]; cbn [skipn]; [exact E|]. eapply IH; eauto.
Qed.

(** ** The loop over the lines *)

Lemma append_item_acc (m : re.Match) (line : str) (acc : list LineItem) :
  append_item m line acc =
  (items <- append_item m line [] ;; Ok (acc ++ items)).
Proof.
  unfold append_item.
  destruct (index (split_ws line) 2) as [tok|e]; [|reflexivity]. cbn [bind].
  destruct (group m 1) as [g1|e]; [|reflexivity]. cbn [bind].
  destruct (strip_opt g1) as [s1|e]; [|reflexivity]. cbn [bind].
  destruct (parse_float s1) as [up|e]; [|reflexivity]. cbn [bind].
  destruct (group m 2) as [g2|e]; [|reflexivity]. cbn [bind].
  destruct (strip_opt g2) as [s2|e]; [|reflexivity]. cbn [bind].
  destruct (parse_float s2) as [lt|e]; [|reflexivity]. cbn [bind].
  match goal with
  | |- bind ?q _ = _ => destruct q as [qty|e]; [|reflexivity]
  end.
  cbn [bind lit list_ascii_of_string app].
  destruct (to_float qty) as [qf|e]; reflexivity.
Qed.

Lemma line_step_acc (pattern : re.regex) (line : str) (acc : list LineItem) :
  line_step pattern line acc = Ok (acc ++ emits pattern line).
Proof.
  unfold emits, line_step.
  destruct (re.search summary_re line re.I); [now rewrite app_nil_r|].
  destruct (re.search pattern line re.I) as [m|]; [|now rewrite app_nil_r].
  rewrite append_item_acc.
  destruct (append_item m line []) as [items|e]; cbn [bind catch].
  - reflexivity.
  - destruct e; now rewrite app_nil_r.
Qed.

Lemma for_lines_flat (pattern : re.regex) (lines : list str) (acc : list LineItem) :
  for_lines pattern lines acc = Ok (acc ++ flat_map (emits pattern) lines).
Proof.
  revert acc. induction lines as [|line rest IH]; intros acc; cbn [for_lines flat_map].
  - now rewrite app_nil_r.
  - rewrite line_step_acc. cbn [bind]. rewrite IH, app_assoc. reflexivity.
Qed.

Lemma parse_line_items_flat (raw : str) (pattern : re.regex) :
  parse_line_items raw pattern = Ok (flat_map (emits pattern) (section_lines raw)).
Proof.
  unfold parse_line_items, section_lines. fold newline.
  destruct (find_start (split_on newline raw) 0); [|reflexivity].
  apply for_lines_flat.
Qed.

Lemma find_start_none (lines : list str) (i : nat) :
  (forall line, In line lines -> re.search header_re line re.I = None) ->
  find_start lines i = None.
Proof.
  revert i. induction lines as [|line rest IH]; intros i H; cbn [find_start].
  - reflexivity.
  - rewrite (H line (or_introl eq_refl)). apply IH. intros l Hl. apply H. now right.
Qed.

(** C6: the line-item reconstructor always returns a sequence, whatever the
    text and the pattern, and the sequence is empty when no line of the text
    has the section header. *)
Theorem parse_line_items_total (raw : str) (pattern : re.regex) :
  (exists items, parse_line_items raw pattern = Ok items) /\
  ((forall line, In line (split_on newline raw) ->
               re.search header_re line re.I = None) ->
   parse_line_items raw pattern = Ok []).
Proof.
  split.
  - eexists. apply parse_line_items_flat.
  - intros H. unfold parse_line_items. fold newline.
    now rewrite (find_start_none _ 0 H).
Qed.

Lemma parse_line_items_total_witness :
  (forall line, In line (split_on newline (lit "Acme Corp")) ->
                re.search header_re line re.I = None) /\
  parse_line_items (lit "Acme Corp") line_item_re = Ok [].
Proof.
  assert (H : forall line, In line (split_on newline (lit "Acme Corp")) ->
                           re.search header_re line re.I = None).
  { intros line [<-|[]]. vm_compute. reflexivity. }
  split; [exact H|].
  exact (proj2 (parse_line_items_total (lit "Acme Corp") line_item_re) H).
Defined.

(** ** Summary lines *)

Lemma starts_with_ci (kw w post : str) :
  eq_upto_case w kw -> starts_with re.I kw (w ++ post) = true.
Proof.
  unfold eq_upto_case, lower_str. revert w.
  induction kw as [|c kw IH]; intros w H; [reflexivity|].
  destruct w as [|a w]; [discriminate|].
  cbn [map] in H. injection H as Ha Hw.
  cbn [app starts_with re.item_mem re.IGNORECASE re.I].
  rewrite Ha, (IH _ Hw). unfold chr_eqb. now rewrite Ascii.eqb_refl.
Qed.

Lemma summary_found (kw line : str) :
  In kw summary_keywords -> contains_ci kw line ->
  exists m, re.search summary_re line re.I = Some m.
Proof.
  intros Hin (pre & w & post & -> & Hw).
  apply search_from_app.
  unfold summary_re. cbn [re.run].
  intros Hmap. apply map_eq_nil in Hmap. revert Hmap.
  assert (Hkw : re.run re.I (re.seqs (map re.chr kw)) (w ++ post) [] <> []).
  { rewrite run_word, (starts_with_ci _ _ _ Hw). discriminate. }
  apply run_alts_in with (r := re.seqs (map re.chr kw)); [|exact Hkw].
  unfold summary_keywords in Hin. cbn [map] in Hin.
  repeat (destruct Hin as [<-|Hin]; [cbn; tauto|]). destruct Hin.
Qed.

(** C7: the result is, line by line, what [emits] gives for the lines of the
    section, and a line that contains one of the summary keywords, in any
    letter case, emits nothing. *)
Theorem summary_lines_emit_nothing (raw : str) (pattern : re.regex) :
  parse_line_items raw pattern = Ok (flat_map (emits pattern) (section_lines raw)) /\
  forall line kw, In kw summary_keywords -> contains_ci kw line ->
                  emits pattern line = [].
Proof.
  split; [apply parse_line_items_flat|].
  intros line kw Hin Hc. destruct (summary_found _ _ Hin Hc) as [m Hm].
  unfold emits, line_step. now rewrite Hm.
Qed.

(** ** Items *)

Lemma gt0_nonzero (u : float) : gt0 u = true -> SFeqb u zero = false.
Proof. destruct u as [[]|[]| |[] m e]; cbn; congruence. Qed.

(** What an emitted item is made of. *)
Lemma emits_item (pattern : re.regex) (line : str) (it : LineItem) :
  In it (emits pattern line) ->
  exists m tok g1 g2 q,
    re.search summary_re line re.I = None /\
    re.search pattern line re.I = Some m /\
    index (split_ws line) 2 = Ok tok /\
    group m 1 = Ok (Some g1) /\ group m 2 = Ok (Some g2) /\
    parse_float (strip g1) = Ok (unit_price it) /\
    parse_float (strip g2) = Ok (line_total it) /\
    description it = lit "ITEM NAME " ++ tok /\
    quantity it = Some q /\
    match unit_price it, line_total it with
    | Some u, Some t =>
        if gt0 u && negb (SFeqb t zero) then derived u t = Ok q else q = one
    | _, _ => q = one
    end.
Proof.
  unfold emits, line_step.
  destruct (re.search summary_re line re.I) as [?|] eqn:Es; [intros []|].
  destruct (re.search pattern line re.I) as [m|] eqn:Em; [|intros []].
  unfold append_item.
  destruct (index (split_ws line) 2) as [tok|e] eqn:Et;
    [|destruct e; intros []]. cbn [bind].
  destruct (group m 1) as [[g1|]|e] eqn:E1; cbn [bind strip_opt catch];
    [| intros [] | destruct e; intros []].
  destruct (parse_float (strip g1)) as [up|e] eqn:Eu; cbn [bind catch];
    [|destruct e; intros []].
  destruct (group m 2) as [[g2|]|e] eqn:E2; cbn [bind strip_opt catch];
    [| intros [] | destruct e; intros []].
  destruct (parse_float (strip g2)) as [lt|e] eqn:El; cbn [bind catch];
    [|destruct e; intros []].
  assert (Hq : forall qty : exc number,
    (qty = if truthy up && truthy lt && match up with Some u => gt0 u | None => false end
           then match up, lt with
                | Some u, Some t => q <- truediv t u ;; n <- py_round q ;; Ok (Int n)
                | _, _ => Ok (Float one)
                end
           else Ok (Float one)) ->
    forall qv qf, qty = Ok qv -> to_float qv = Ok qf ->
    match up, lt with
    | Some u, Some t =>
        if gt0 u && negb (SFeqb t zero) then derived u t = Ok qf else qf = one
    | _, _ => qf = one
    end).
  { intros qty -> qv qf Hqv Hqf.
    destruct up as [u|]; [|cbn in Hqv; injection Hqv as <-; cbn in Hqf; congruence].
    destruct lt as [t|];
      [|cbn in Hqv; rewrite andb_false_r in Hqv; injection Hqv as <-;
        cbn in Hqf; congruence].
    cbn [truthy] in Hqv.
    destruct (gt0 u) eqn:Eg.
    - rewrite (gt0_nonzero _ Eg) in Hqv. cbn [negb andb] in Hqv |- *.
      destruct (SFeqb t zero); cbn [negb andb] in Hqv |- *.
      + injection Hqv as <-. cbn in Hqf. congruence.
      + unfold derived. destruct (truediv t u) as [q|]; [|discriminate].
        cbn [bind] in Hqv |- *. destruct (py_round q) as [n|]; [|discriminate].
        cbn [bind] in Hqv |- *. injection Hqv as <-. exact Hqf.
    - rewrite andb_false_r in Hqv. cbn [andb]. injection Hqv as <-.
      cbn in Hqf. congruence. }
  match goal with
  | |- In it match catch (bind ?qty _) _ with _ => _ end -> _ =>
      specialize (Hq qty eq_refl); destruct qty as [qv|e]
  end; cbn [bind catch]; [|destruct e; intros []].
  cbn [lit list_ascii_of_string app].
  destruct (to_float qv) as [qf|e] eqn:Ef; cbn [bind catch];
    [|destruct e; intros []].
  intros [<-|[]]. cbn [unit_price line_total description quantity].
  exists m, tok, g1, g2, qf. repeat split; trivial.
  exact (Hq qv qf eq_refl Ef).
Qed.

Lemma derived_at_zero (u t : float) :
  gt0 u = true -> SFeqb t zero = true -> derived u t = Ok zero.
Proof.
  intros Hu Ht. unfold derived, truediv. rewrite (gt0_nonzero u Hu). cbn [bind].
  destruct t as [s|s| |s m e]; unfold SFeqb in Ht; cbn in Ht;
    try discriminate Ht; try (destruct s; discriminate Ht).
  destruct u as [[]|[]| |[] mu eu]; try discriminate Hu; destruct s; reflexivity.
Qed.

(** C1: the quantity of an item, from the two groups of the match on its
    line.  The rate is the number read from group 1 and the total the
    number read from group 2.  When both are read and the rate is greater
    than zero, the quantity is [round(total / rate)] if the total is not
    zero; if the total is zero the quantity is 1.0, although
    [round(total / rate)] is 0.  In every other case it is 1.0. *)
Theorem quantity_from_groups (raw : str) (pattern : re.regex)
  (items : list LineItem) (it : LineItem) :
  parse_line_items raw pattern = Ok items -> In it items ->
  exists line m g1 g2 q,
    In line (section_lines raw) /\ In it (emits pattern line) /\
    re.search pattern line re.I = Some m /\
    group m 1 = Ok (Some g1) /\ group m 2 = Ok (Some g2) /\
    parse_float (strip g1) = Ok (unit_price it) /\
    parse_float (strip g2) = Ok (line_total it) /\
    quantity it = Some q /\
    match unit_price it, line_total it with
    | Some u, Some t =>
        if gt0 u
        then if SFeqb t zero
             then q = one /\ derived u t = Ok zero /\ one <> zero
             else derived u t = Ok q
        else q = one
    | _, _ => q = one
    end.
Proof.
  rewrite parse_line_items_flat. intros H Hin. injection H as <-.
  apply in_flat_map in Hin. destruct Hin as (line & Hl & Hin).
  destruct (emits_item _ _ _ Hin)
    as (m & tok & g1 & g2 & q & _ & Hm & _ & H1 & H2 & Hu & Ht & _ & Hq & Hrule).
  exists line, m, g1, g2, q. repeat (split; [assumption|]).
  destruct (unit_price it) as [u|]; [|exact Hrule].
  destruct (line_total it) as [t|]; [|exact Hrule].
  destruct (gt0 u) eqn:Eu; [|exact Hrule].
  destruct (SFeqb t zero) eqn:Et; cbn [negb andb] in Hrule; [|exact Hrule].
  split; [exact Hrule|]. split; [exact (derived_at_zero u t Eu Et)|discriminate].
Qed.

Lemma quantity_from_groups_witness :
  let it := {| quantity := Some one; description := lit "ITEM NAME 1";
               unit_price := Some (S754_finite false 5629499534213120 (-50));
               line_total := Some zero |} in
  exists line m g1 g2 q,
    In line (section_lines (lit "ITEM NAME 1 Rs. 5 Rs. 0")) /\
    In it (emits line_item_re line) /\
    re.search line_item_re line re.I = Some m /\
    group m 1 = Ok (Some g1) /\ group m 2 = Ok (Some g2) /\
    parse_float (strip g1) = Ok (Some (S754_finite false 5629499534213120 (-50))) /\
    parse_float (strip g2) = Ok (Some zero) /\
    Some one = Some q /\
    q = one /\
    derived (S754_finite false 5629499534213120 (-50)) zero = Ok zero /\ one <> zero.
Proof.
  exact (quantity_from_groups (lit "ITEM NAME 1 Rs. 5 Rs. 0") line_item_re
           [{| quantity := Some one; description := lit "ITEM NAME 1";
               unit_price := Some (S754_finite false 5629499534213120 (-50));
               line_total := Some zero |}]
           {| quantity := Some one; description := lit "ITEM NAME 1";
              unit_price := Some (S754_finite false 5629499534213120 (-50));
              line_total := Some zero |}
           ltac:(vm_compute; reflexivity) (or_introl eq_refl)).
Defined.

(** ** Signs *)

Lemma iter_pos_inv (A : Type) (P : A -> Prop) (f : A -> A) :
  (forall x, P x -> P (f x)) -> forall n x, P x -> P (iter_pos f n x).
Proof.
  intros Hf. induction n as [n IH|n IH|]; intros x Hx; cbn [iter_pos]; auto.
Qed.

Lemma shr_1_nonneg (mrs : shr_record) : (0 <= shr_m mrs)%Z -> (0 <= shr_m (shr_1 mrs))%Z.
Proof.
  destruct mrs as [m r s]. cbn [shr_m]. intros H.
  destruct m as [|[p|p|]|p]; cbn; lia.
Qed.

Lemma shr_nonneg (mrs : shr_record) (e n : Z) :
  (0 <= shr_m mrs)%Z -> (0 <= shr_m (fst (shr mrs e n)))%Z.
Proof.
  intros H. destruct n as [|p|p]; cbn [shr fst]; trivial.
  apply iter_pos_inv with (P := fun x => (0 <= shr_m x)%Z); trivial.
  exact shr_1_nonneg.
Qed.

Lemma shr_fexp_nonneg (m e : Z) (l : location) :
  (0 <= m)%Z -> (0 <= shr_m (fst (shr_fexp prec emax m e l)))%Z.
Proof.
  intros H. unfold shr_fexp. apply shr_nonneg.
  destruct l as [|[]]; exact H.
Qed.

Lemma round_nearest_even_nonneg (m : Z) (l : location) :
  (0 <= m)%Z -> (0 <= round_nearest_even m l)%Z.
Proof.
  intros H. destruct l as [|[]]; cbn [round_nearest_even]; try lia.
  destruct (Z.even m); lia.
Qed.

Lemma binary_round_aux_nonneg (m e : Z) (l : location) :
  (0 <= m)%Z -> nonneg (binary_round_aux prec emax false m e l) = true.
Proof.
  intros H. unfold binary_round_aux.
  pose proof (shr_fexp_nonneg m e l H) as H1.
  destruct (shr_fexp prec emax m e l) as [mrs' e']. cbn [fst] in H1.
  pose proof (shr_fexp_nonneg _ e' loc_Exact
                (round_nearest_even_nonneg _ (loc_of_shr_record mrs') H1)) as H2.
  destruct (shr_fexp prec emax _ e' loc_Exact) as [mrs'' e'']. cbn [fst] in H2.
  destruct (shr_m mrs'') as [|p|p]; [reflexivity| |lia].
  destruct (e'' <=? emax - prec)%Z; reflexivity.
Qed.

Lemma binary_round_nonneg (m : positive) (e : Z) :
  nonneg (binary_round prec emax false m e) = true.
Proof.
  unfold binary_round. destruct (shl_align _ _ _) as [mz ez].
  apply binary_round_aux_nonneg. lia.
Qed.

Lemma of_decimal_nonneg (m e : Z) :
  (0 <= m)%Z -> nonneg (of_decimal false m e) = true.
Proof.
  intros H. unfold of_decimal. destruct m as [|p|p]; [reflexivity| |lia].
  destruct (0 <=? e)%Z eqn:He.
  - apply Z.leb_le in He.
    assert (Hp : (0 < Z.pos p * 10 ^ e)%Z) by (apply Z.mul_pos_pos; [lia|apply Z.pow_pos_nonneg; lia]).
    destruct (Z.pos p * 10 ^ e)%Z as [|p'|p']; try lia.
    cbn [binary_normalize]. apply binary_round_nonneg.
  - unfold SFdiv_core_binary.
    set (m' := match _ with Z0 => Z.pos p | Zpos _ => _ | Zneg _ => 0%Z end).
    assert (Hm' : (0 <= m')%Z).
    { subst m'. destruct (_ - _ - _)%Z; try lia. apply Z.shiftl_nonneg. lia. }
    assert (Hd : (0 < 10 ^ (- e))%Z) by (apply Z.pow_pos_nonneg; lia).
    pose proof (Z_div_mod m' (10 ^ (- e)) ltac:(lia)) as Hdm.
    destruct (Z.div_eucl m' (10 ^ (- e))) as [q r].
    apply binary_round_aux_nonneg. nia.
Qed.

Lemma SFdiv_nonneg (x y : float) :
  nonneg x = true -> nonneg y = true ->
  SFdiv prec emax x y = S754_nan \/ nonneg (SFdiv prec emax x y) = true.
Proof.
  destruct x as [[]|[]| |[] mx ex]; try discriminate;
    destruct y as [[]|[]| |[] my ey]; try discriminate; intros _ _;
    cbn [SFdiv xorb nonneg]; auto.
  right. unfold SFdiv_core_binary.
  set (m' := match _ with Z0 => Z.pos mx | Zpos _ => _ | Zneg _ => 0%Z end).
  assert (Hm' : (0 <= m')%Z).
  { subst m'. destruct (_ - _ - _)%Z; try lia. apply Z.shiftl_nonneg. lia. }
  pose proof (Z_div_mod m' (Z.pos my) ltac:(lia)) as Hdm.
  destruct (Z.div_eucl m' (Z.pos my)) as [q r].
  apply binary_round_aux_nonneg. nia.
Qed.

Lemma round_half_even_nonneg (m e : Z) : (0 <= m)%Z -> (0 <= round_half_even m e)%Z.
Proof.
  intros H. unfold round_half_even. destruct (0 <=? e)%Z eqn:He.
  - apply Z.leb_le in He. apply Z.mul_nonneg_nonneg; [lia|]. apply Z.pow_nonneg. lia.
  - apply Z.leb_gt in He.
    assert (Hd : (0 < 2 ^ (- e))%Z) by (apply Z.pow_pos_nonneg; lia).
    pose proof (Z.div_pos m (2 ^ (- e)) H Hd) as Hq.
    destruct (2 * (m mod 2 ^ (- e)) ?= 2 ^ (- e))%Z; try lia.
    destruct (Z.even _); lia.
Qed.

Lemma float_of_int_nonneg (n : Z) (f : float) :
  (0 <= n)%Z -> float_of_int n = Ok f -> nonneg f = true.
Proof.
  intros H. unfold float_of_int.
  assert (Hn : nonneg (binary_normalize prec emax n 0 false) = true).
  { destruct n as [|p|p]; [reflexivity|apply binary_round_nonneg|lia]. }
  destruct (binary_normalize prec emax n 0 false) as [s|s| |s m e];
    intros E; try discriminate; injection E as <-; exact Hn.
Qed.

Lemma derived_nonneg (u t q : float) :
  nonneg u = true -> nonneg t = true -> derived u t = Ok q -> nonneg q = true.
Proof.
  intros Hu Ht. unfold derived, truediv.
  destruct (SFeqb u zero); [discriminate|]. cbn [bind].
  destruct (SFdiv_nonneg t u Ht Hu) as [E|E].
  - rewrite E. discriminate.
  - destruct (SFdiv prec emax t u) as [[]|[]| |[] m e]; try discriminate;
      cbn [py_round bind cond_Zopp].
    + apply float_of_int_nonneg. lia.
    + apply float_of_int_nonneg. apply round_half_even_nonneg. lia.
Qed.

Lemma nonneg_ge0 (f : float) : nonneg f = true -> SFleb zero f = true.
Proof. destruct f as [[]|[]| |[] m e]; try discriminate; reflexivity. Qed.

(** ** What the groups hold *)

Lemma run_groups (fl : re.flags) (Q : nat -> str -> Prop) (r : re.regex) :
  groups_sound fl Q r ->
  forall s g s' g',
    (forall n v, re.lookup n g = Some v -> Q n v) ->
    In (s', g') (re.run fl r s g) ->
    forall n v, re.lookup n g' = Some v -> Q n v.
Proof.
  induction r as [|cs|r1 IH1 r2 IH2|r1 IH1 r2 IH2|r1 IH1|cs lo hi|k r1 IH1];
    cbn [groups_sound re.run]; intros Hs s g s' g' Hg Hin.
  - destruct Hin as [E|[]]. injection E as <- <-. exact Hg.
  - destruct s as [|a s]; [destruct Hin|].
    destruct (re.mem fl cs a); [|destruct Hin].
    destruct Hin as [E|[]]. injection E as <- <-. exact Hg.
  - apply in_flat_map in Hin. destruct Hin as ([s1 g1] & H1 & H2).
    destruct Hs as [Hs1 Hs2].
    exact (IH2 Hs2 _ _ _ _ (IH1 Hs1 _ _ _ _ Hg H1) H2).
  - destruct Hs as [Hs1 Hs2]. apply in_app_or in Hin. destruct Hin as [H|H].
    + exact (IH1 Hs1 _ _ _ _ Hg H).
    + exact (IH2 Hs2 _ _ _ _ Hg H).
  - apply in_app_or in Hin. destruct Hin as [H|[E|[]]].
    + exact (IH1 Hs _ _ _ _ Hg H).
    + injection E as <- <-. exact Hg.
  - apply in_map_iff in Hin. destruct Hin as (j & E & _).
    injection E as <- <-. exact Hg.
  - apply in_map_iff in Hin. destruct Hin as ([s1 g1] & E & H1).
    cbn [fst snd] in E. injection E as <- <-. destruct Hs as [Hk Hs1].
    intros n v. cbn [re.lookup]. destruct (Nat.eqb k n) eqn:Ekn.
    + apply Nat.eqb_eq in Ekn. subst n. intros E. injection E as <-.
      exact (Hk _ _ _ _ H1).
    + exact (IH1 Hs1 _ _ _ _ Hg H1 n v).
Qed.

Lemma span_le_length (fl : re.flags) (cs : list re.item) (hi : option nat) (s : str) :
  re.span fl cs hi s <= length s.
Proof.
  revert hi. induction s as [|a s IH]; intros hi.
  - destruct hi as [[|h]|]; cbn; lia.
  - destruct hi as [[|h]|]; cbn [re.span length option_map]; try lia;
      destruct (re.mem fl cs a); try lia; apply le_n_S, IH.
Qed.

Lemma span_firstn (fl : re.flags) (cs : list re.item) (hi : option nat) (s : str)
  (k : nat) :
  k <= re.span fl cs hi s -> forallb (re.mem fl cs) (firstn k s) = true.
Proof.
  revert hi k. induction s as [|a s IH]; intros hi k Hk.
  - now rewrite firstn_nil.
  - destruct k as [|k]; [reflexivity|].
    cbn [firstn forallb].
    destruct hi as [[|h]|]; cbn [re.span option_map] in Hk; try lia;
      destruct (re.mem fl cs a); try lia; cbn [andb]; eapply IH; apply le_S_n, Hk.
Qed.

Lemma rep_consumed (fl : re.flags) (cs : list re.item) (lo : nat) (hi : option nat)
  (s : str) (g : re.groups) (s1 : str) (g1 : re.groups) :
  In (s1, g1) (re.run fl (re.Rep cs lo hi) s g) ->
  forallb (re.mem fl cs) (re.consumed s s1) = true.
Proof.
  cbn [re.run]. intros Hin. apply in_map_iff in Hin.
  destruct Hin as (k & E & Hk). injection E as <- <-.
  apply in_rev, in_seq in Hk.
  pose proof (span_le_length fl cs hi s) as Hl.
  unfold re.consumed. rewrite length_skipn.
  replace (length s - (length s - k)) with k by lia.
  apply span_firstn with (hi := hi). lia.
Qed.

Lemma amount_mem (a : ascii) :
  re.mem re.I [re.Digit; re.Chr ","; re.Chr "."] a = amount_chr a.
Proof.
  destruct a as [[] [] [] [] [] [] [] []]; reflexivity.
Qed.

Lemma line_item_groups :
  groups_sound re.I (fun _ v => forallb amount_chr v = true) line_item_re.
Proof.
  assert (H : forall s g s1 g1, In (s1, g1) (re.run re.I amount s g) ->
                                forallb amount_chr (re.consumed s s1) = true).
  { intros s g s1 g1 Hin. apply rep_consumed in Hin.
    apply forallb_forall. intros a Ha. rewrite <- amount_mem.
    revert a Ha. apply forallb_forall. exact Hin. }
  unfold line_item_re. cbn -[amount]. repeat split; try exact H.
Qed.

(** ** Numeric cleaning *)

Lemma str_eqb_eq (a b : str) : str_eqb a b = true -> a = b.
Proof. unfold str_eqb. destruct (list_eq_dec ascii_dec a b); congruence. Qed.

Lemma take_digits_decimal (s : str) : forallb isdecimal (fst (take_digits s)) = true.
Proof.
  unfold take_digits. cbn [fst]. induction s as [|a s IH]; [reflexivity|].
  cbn [span_len]. destruct (isdecimal a) eqn:E; [|reflexivity].
  cbn [firstn forallb]. now rewrite E.
Qed.

Lemma digit_val_nonneg (c : ascii) : isdecimal c = true -> (0 <= digit_val c)%Z.
Proof.
  unfold isdecimal, between, digit_val. intros H.
  apply andb_prop in H. destruct H as [H _]. apply N.leb_le in H. lia.
Qed.

Lemma fold_digits_nonneg (ds : str) (acc : Z) :
  (0 <= acc)%Z -> forallb isdecimal ds = true ->
  (0 <= fold_left (fun (a : Z) (c : ascii) => a * 10 + digit_val c) ds acc)%Z.
Proof.
  revert acc. induction ds as [|c ds IH]; intros acc Ha H; cbn [fold_left]; [exact Ha|].
  cbn [forallb] in H. apply andb_prop in H. destruct H as [Hc Hds].
  apply IH; [|exact Hds]. pose proof (digit_val_nonneg _ Hc). lia.
Qed.

Lemma digits_val_nonneg (ds : str) :
  forallb isdecimal ds = true -> (0 <= digits_val ds)%Z.
Proof. apply fold_digits_nonneg. lia. Qed.

Lemma float_of_str_raises (s0 : str) (e : exception) :
  float_of_str s0 = Raise e -> e = ValueError.
Proof.
  unfold float_of_str.
  destruct (negb (underscores_ok None (strip s0))); [congruence|].
  destruct (split_sign _) as [sign body].
  destruct (_ || _); [discriminate|].
  destruct (str_eqb _ _); [discriminate|].
  destruct (take_digits body) as [ip r1].
  destruct (match r1 with [] => _ | _ :: _ => _ end) as [fp r2].
  destruct (ip ++ fp) as [|d ds]; [congruence|].
  destruct r2 as [|a t]; [discriminate|].
  destruct (_ || _); [|congruence].
  destruct (split_sign t) as [esign t']. destruct (take_digits t') as [ed r3].
  destruct ed; [congruence|]. destruct r3; [discriminate|congruence].
Qed.

Lemma float_of_str_ok (s0 : str) (f : float) :
  float_of_str s0 = Ok f ->
  let sb := split_sign (remove_chr "_" (strip s0)) in
  (f = S754_nan /\ lower_str (snd sb) = lit "nan") \/
  f = S754_infinity (fst sb) \/
  exists m e, (0 <= m)%Z /\ f = of_decimal (fst sb) m e.
Proof.
  unfold float_of_str.
  destruct (negb (underscores_ok None (strip s0))); [discriminate|].
  destruct (split_sign _) as [sign body]. cbn [fst snd].
  destruct (_ || _); [intros E; injection E as <-; auto|].
  destruct (str_eqb _ _) eqn:En;
    [intros E; injection E as <-; left; split; [reflexivity|now apply str_eqb_eq]|].
  pose proof (take_digits_decimal body) as Hip.
  destruct (take_digits body) as [ip r1]. cbn [fst] in Hip.
  assert (Hfp : forall fp r2,
            match r1 with
            | [] => ([], r1)
            | a :: t => if chr_eqb a "." then take_digits t else ([], r1)
            end = (fp, r2) -> forallb isdecimal fp = true).
  { intros fp r2. destruct r1 as [|a t]; [intros E; injection E as <- _; reflexivity|].
    destruct (chr_eqb a "."); [|intros E; injection E as <- _; reflexivity].
    intros E. pose proof (take_digits_decimal t) as H. rewrite E in H. exact H. }
  destruct (match r1 with [] => _ | _ :: _ => _ end) as [fp r2].
  specialize (Hfp fp r2 eq_refl).
  assert (Hm : (0 <= digits_val (ip ++ fp))%Z).
  { apply digits_val_nonneg. rewrite forallb_app, Hip, Hfp. reflexivity. }
  destruct (ip ++ fp) as [|d ds]; [discriminate|].
  destruct r2 as [|a t]; [intros E; injection E as <-; right; right; eauto|].
  destruct (_ || _); [|discriminate].
  destruct (split_sign t) as [esign t']. destruct (take_digits t') as [ed r3].
  destruct ed; [discriminate|]. destruct r3; [|discriminate].
  intros E; injection E as <-; right; right; eauto.
Qed.

(** Numeric cleaning never raises: a value that is not a number is
    reported as absent. *)
Lemma parse_float_total (v : str) : exists r, parse_float v = Ok r.
Proof.
  unfold parse_float. destruct v as [|a v]; [eauto|].
  destruct (float_of_str _) as [f|e] eqn:E; cbn [bind catch]; [eauto|].
  rewrite (float_of_str_raises _ _ E). eauto.
Qed.

Lemma dropwhile_incl (p : ascii -> bool) (s : str) (a : ascii) :
  In a (dropwhile p s) -> In a s.
Proof.
  induction s as [|b s IH]; cbn [dropwhile]; [tauto|].
  destruct (p b); [intros H; right; auto|tauto].
Qed.

Lemma strip_incl (s : str) (a : ascii) : In a (strip s) -> In a s.
Proof.
  unfold strip. intros H. apply in_rev in H. apply dropwhile_incl in H.
  apply in_rev in H. now apply dropwhile_incl in H.
Qed.

Lemma digdot_of_amount (a : ascii) :
  amount_chr a = true -> chr_eqb a "," = false -> digdot a = true.
Proof.
  unfold amount_chr, digdot. intros H Hc. rewrite Hc, orb_false_r in H. exact H.
Qed.

Lemma digdot_facts (a : ascii) :
  digdot a = true ->
  chr_eqb a "-" = false /\ chr_eqb a "+" = false /\ tolower a <> "n"%char.
Proof.
  destruct a as [[] [] [] [] [] [] [] []]; cbn; intros H;
    try discriminate H; repeat split; discriminate.
Qed.

(** The text handed to [float] once an amount is cleaned. *)
Lemma clean_amount (v : str) (a : ascii) :
  forallb amount_chr v = true ->
  In a (remove_chr "_" (strip (strip (remove_chr "," (re.sub re.no_flags currency_set [] v))))) ->
  digdot a = true.
Proof.
  intros Hv Ha. unfold remove_chr in Ha at 1. apply filter_In in Ha.
  destruct Ha as [Ha _]. do 2 apply strip_incl in Ha.
  unfold remove_chr in Ha. apply filter_In in Ha. destruct Ha as [Ha Hc].
  apply negb_true_iff in Hc.
  unfold re.sub in Ha. apply in_flat_map in Ha. destruct Ha as (b & Hb & Hab).
  destruct (re.mem re.no_flags currency_set b); [destruct Hab|].
  destruct Hab as [E|[]]. subst b.
  apply digdot_of_amount; [|exact Hc].
  revert a Hb Hc. intros a Hb _. revert a Hb. now apply forallb_forall.
Qed.

Lemma parse_float_amount (v : str) (f : float) :
  forallb amount_chr v = true -> parse_float v = Ok (Some f) -> nonneg f = true.
Proof.
  intros Hv. unfold parse_float. destruct v as [|a0 v0]; [discriminate|].
  set (v := a0 :: v0) in *.
  destruct (float_of_str _) as [f'|e] eqn:E; cbn [bind catch];
    [|destruct e; discriminate].
  intros H. injection H as ->.
  apply float_of_str_ok in E. cbv zeta in E.
  pose proof (fun a => clean_amount v a Hv) as Hc.
  set (s := remove_chr "_" _) in *.
  assert (Hs : split_sign s = (false, s)).
  { unfold split_sign. destruct s as [|a s']; [reflexivity|].
    destruct (digdot_facts a (Hc a (or_introl eq_refl))) as (-> & -> & _).
    reflexivity. }
  rewrite Hs in E. cbn [fst snd] in E.
  destruct E as [[_ En]|[->|(m & e & Hm & ->)]].
  - exfalso. destruct s as [|a s']; [discriminate|].
    cbn in En. injection En as En _.
    exact (proj2 (proj2 (digdot_facts a (Hc a (or_introl eq_refl)))) En).
  - reflexivity.
  - now apply of_decimal_nonneg.
Qed.

(** The groups of a match of the line-item pattern hold digits, commas and
    points only. *)
Lemma line_item_group (line : str) (m : re.Match) (i : nat) (v : str) :
  re.search line_item_re line re.I = Some m ->
  group m i = Ok (Some v) -> forallb amount_chr v = true.
Proof.
  intros Hs Hg. unfold re.search in Hs.
  destruct (search_from_found _ _ _ _ _ Hs) as (k & rest & tl & _ & _ & Hrun & _).
  unfold group in Hg. destruct (Nat.leb i (re.m_ngroups m)); [|discriminate].
  injection Hg as Hg.
  refine (run_groups re.I _ line_item_re line_item_groups (skipn k line) [] rest
            (re.m_groups m) _ _ i v Hg).
  - intros n w H. discriminate H.
  - rewrite Hrun. now left.
Qed.

Lemma strip_forallb (p : ascii -> bool) (s : str) :
  forallb p s = true -> forallb p (strip s) = true.
Proof.
  intros H. apply forallb_forall. intros a Ha. apply strip_incl in Ha.
  revert a Ha. now apply forallb_forall.
Qed.

Lemma derived_whole (u t q : float) :
  nonneg u = true -> nonneg t = true -> derived u t = Ok q ->
  exists d n, truediv t u = Ok d /\ py_round d = Ok n /\ (0 <= n)%Z /\
              float_of_int n = Ok q.
Proof.
  intros Hu Ht. unfold derived, truediv.
  destruct (SFeqb u zero); [discriminate|]. cbn [bind].
  destruct (SFdiv_nonneg t u Ht Hu) as [E|E].
  - rewrite E. discriminate.
  - destruct (SFdiv prec emax t u) as [[]|[]| |[] m e]; try discriminate;
      cbn [py_round bind cond_Zopp]; intros H; eexists; eexists;
      (split; [reflexivity|]); (split; [reflexivity|]); (split; [|exact H]).
    + lia.
    + apply round_half_even_nonneg. lia.
Qed.

Lemma float_of_int_real (n : Z) (q : float) :
  float_of_int n = Ok q -> nonneg q = true -> is_real q = true.
Proof.
  unfold float_of_int. destruct (binary_normalize prec emax n 0 false) as [s|s| |s m e];
    try discriminate; intros H; injection H as <-; try reflexivity. discriminate.
Qed.

(** C4 (amended): with the configured line-item pattern, every line item
    has a quantity that is the float of a whole number [n >= 0]: it is
    finite, not NaN and not negative.  Where the quantity is recomputed
    (rate greater than zero, total not zero), [n] is
    [round(line_total / unit_price)]; the quantity is 0.0 when [n] is 0. *)
Theorem quantity_nonnegative (raw : str) (items : list LineItem) (it : LineItem) :
  parse_line_items raw line_item_re = Ok items -> In it items ->
  exists q n,
    quantity it = Some q /\ (0 <= n)%Z /\ float_of_int n = Ok q /\
    is_real q = true /\ nonneg q = true /\ SFleb zero q = true /\
    (n = 0%Z -> q = zero) /\
    forall u t, unit_price it = Some u -> line_total it = Some t ->
                gt0 u = true -> SFeqb t zero = false ->
                exists d, truediv t u = Ok d /\ py_round d = Ok n.
Proof.
  rewrite parse_line_items_flat. intros H Hin. injection H as <-.
  apply in_flat_map in Hin. destruct Hin as (line & _ & Hin).
  destruct (emits_item _ _ _ Hin)
    as (m & tok & g1 & g2 & q & _ & Hm & _ & H1 & H2 & Hu & Ht & _ & Hq & Hrule).
  pose proof (strip_forallb _ _ (line_item_group _ _ _ _ Hm H1)) as A1.
  pose proof (strip_forallb _ _ (line_item_group _ _ _ _ Hm H2)) as A2.
  assert (Hfin : forall n, (0 <= n)%Z -> float_of_int n = Ok q ->
                 is_real q = true /\ nonneg q = true /\ SFleb zero q = true /\
                 (n = 0%Z -> q = zero)).
  { intros n Hn Hf. pose proof (float_of_int_nonneg n q Hn Hf) as Hq0.
    split; [exact (float_of_int_real n q Hf Hq0)|]. split; [exact Hq0|].
    split; [exact (nonneg_ge0 q Hq0)|]. intros E. subst n. vm_compute in Hf. injection Hf as <-. reflexivity. }
  assert (Hone : float_of_int 1 = Ok one) by reflexivity.
  assert (Hdefault : q = one ->
    (forall u t, unit_price it = Some u -> line_total it = Some t ->
                 gt0 u = true -> SFeqb t zero = false -> False) ->
    exists q0 n,
      quantity it = Some q0 /\ (0 <= n)%Z /\ float_of_int n = Ok q0 /\
      is_real q0 = true /\ nonneg q0 = true /\ SFleb zero q0 = true /\
      (n = 0%Z -> q0 = zero) /\
      forall u t, unit_price it = Some u -> line_total it = Some t ->
                  gt0 u = true -> SFeqb t zero = false ->
                  exists d, truediv t u = Ok d /\ py_round d = Ok n).
  { intros -> Hno. exists one, 1%Z. split; [exact Hq|]. split; [lia|].
    split; [exact Hone|]. repeat split; try reflexivity; try lia.
    intros u t E1 E2 E3 E4. destruct (Hno u t E1 E2 E3 E4). }
  destruct (unit_price it) as [u|] eqn:Eu; [|apply Hdefault; [exact Hrule|discriminate]].
  destruct (line_total it) as [t|] eqn:Et; [|apply Hdefault; [exact Hrule|discriminate]].
  destruct (gt0 u && negb (SFeqb t zero)) eqn:Eg.
  - destruct (derived_whole u t q (parse_float_amount _ _ A1 Hu)
                (parse_float_amount _ _ A2 Ht) Hrule) as (d & n & Hd & Hr & Hn & Hf).
    exists q, n. split; [exact Hq|]. split; [exact Hn|]. split; [exact Hf|].
    destruct (Hfin n Hn Hf) as (F1 & F2 & F3 & F4).
    repeat (split; [assumption|]).
    intros u' t' E1 E2 _ _. injection E1 as <-. injection E2 as <-.
    exists d. split; assumption.
  - apply Hdefault; [exact Hrule|].
    intros u' t' E1 E2 E3 E4. injection E1 as <-. injection E2 as <-.
    rewrite E3, E4 in Eg. discriminate Eg.
Qed.

Lemma quantity_nonnegative_witness :
  exists q n,
    Some zero = Some q /\ (0 <= n)%Z /\ float_of_int n = Ok q /\
    is_real q = true /\ nonneg q = true /\ SFleb zero q = true /\
    (n = 0%Z -> q = zero) /\
    forall u t, Some (S754_finite false 5629499534213120 (-49)) = Some u ->
                Some one = Some t ->
                gt0 u = true -> SFeqb t zero = false ->
                exists d, truediv t u = Ok d /\ py_round d = Ok n.
Proof.
  exact (quantity_nonnegative
           (lit "ITEM NAME 1 Rs. 10 Rs. 1")
           [{| quantity := Some zero; description := lit "ITEM NAME 1";
               unit_price := Some (S754_finite false 5629499534213120 (-49));
               line_total := Some one |}]
           {| quantity := Some zero; description := lit "ITEM NAME 1";
              unit_price := Some (S754_finite false 5629499534213120 (-49));
              line_total := Some one |}
           ltac:(vm_compute; reflexivity) (or_introl eq_refl)).
Defined.

(** C4 (as stated) fails: a rate of 10 and a total of 1 give the quantity
    [round(0.1) = 0], which is not greater than zero. *)
Lemma quantity_zero_for_small_total :
  exists it q,
    parse_line_items (lit "ITEM NAME 1 Rs. 10 Rs. 1") line_item_re = Ok [it] /\
    quantity it = Some q /\ gt0 q = false.
Proof.
  exists {| quantity := Some zero; description := lit "ITEM NAME 1";
            unit_price := Some (S754_finite false 5629499534213120 (-49));
            line_total := Some one |}, zero.
  repeat split; vm_compute; reflexivity.
Qed.

(** With another pattern, one whose second group takes a minus sign, the
    quantity can even be negative: here it is -2. *)
Lemma quantity_negative_for_signed_pattern :
  exists it,
    parse_line_items (lit "ITEM NAME 1 5 -10")
      (re.seqs [re.Grp 1 (re.plus [re.Digit]); re.chr " ";
                re.Grp 2 (re.Seq (re.chr "-") (re.plus [re.Digit]))])
    = Ok [it] /\
    quantity it = Some (S754_finite true 4503599627370496 (-51)).
Proof.
  eexists. split; [vm_compute; reflexivity|reflexivity].
Qed.

Lemma summary_lines_emit_nothing_witness :
  In (lit "TOTAL") summary_keywords /\
  contains_ci (lit "TOTAL") (lit "Grand total ITEM NAME 1 Rs. 5 Rs. 10") /\
  emits line_item_re (lit "Grand total ITEM NAME 1 Rs. 5 Rs. 10") = [].
Proof.
  assert (Hin : In (lit "TOTAL") summary_keywords) by (cbn; tauto).
  assert (Hc : contains_ci (lit "TOTAL") (lit "Grand total ITEM NAME 1 Rs. 5 Rs. 10")).
  { exists (lit "Grand "), (lit "total"), (lit " ITEM NAME 1 Rs. 5 Rs. 10").
    split; reflexivity. }
  split; [exact Hin|split; [exact Hc|]].
  exact (proj2 (summary_lines_emit_nothing [] line_item_re) _ _ Hin Hc).
Defined.

(** ** The loop over the fields *)

Lemma run_keeps (fl : re.flags) (n : nat) (r : re.regex) :
  forall s g s' g',
    In (s', g') (re.run fl r s g) -> re.lookup n g <> None -> re.lookup n g' <> None.
Proof.
  induction r as [|cs|r1 IH1 r2 IH2|r1 IH1 r2 IH2|r1 IH1|cs lo hi|k r1 IH1];
    cbn [re.run]; intros s g s' g' Hin Hg.
  - destruct Hin as [E|[]]. now injection E as <- <-.
  - destruct s as [|a s]; [destruct Hin|].
    destruct (re.mem fl cs a); [|destruct Hin].
    destruct Hin as [E|[]]. now injection E as <- <-.
  - apply in_flat_map in Hin. destruct Hin as ([s1 g1] & H1 & H2). eauto.
  - apply in_app_or in Hin. destruct Hin; eauto.
  - apply in_app_or in Hin. destruct Hin as [H|[E|[]]]; eauto.
    now injection E as <- <-.
  - apply in_map_iff in Hin. destruct Hin as (j & E & _). now injection E as <- <-.
  - apply in_map_iff in Hin. destruct Hin as ([s1 g1] & E & H1).
    cbn [fst snd] in E. injection E as <- <-. cbn [re.lookup].
    destruct (Nat.eqb k n); [discriminate|eauto].
Qed.

Lemma run_sets (fl : re.flags) (n : nat) (r : re.regex) :
  always_sets n r = true ->
  forall s g s' g', In (s', g') (re.run fl r s g) -> re.lookup n g' <> None.
Proof.
  induction r as [|cs|r1 IH1 r2 IH2|r1 IH1 r2 IH2|r1 IH1|cs lo hi|k r1 IH1];
    cbn [always_sets re.run]; intros Ha s g s' g' Hin; try discriminate.
  - apply in_flat_map in Hin. destruct Hin as ([s1 g1] & H1 & H2).
    apply orb_prop in Ha. destruct Ha as [Ha|Ha].
    + eapply run_keeps; eauto.
    + eauto.
  - apply andb_prop in Ha. destruct Ha as [Ha1 Ha2].
    apply in_app_or in Hin. destruct Hin; eauto.
  - apply in_map_iff in Hin. destruct Hin as ([s1 g1] & E & H1).
    cbn [fst snd] in E. injection E as <- <-. cbn [re.lookup].
    destruct (Nat.eqb k n) eqn:Ek; [discriminate|].
    cbn [orb] in Ha. eauto.
Qed.

Lemma dict_get_set (V : Type) (k k' : string) (v : V) (d : dict V) :
  dict_get k (dict_set k' v d) = if String.eqb k' k then Some v else dict_get k d.
Proof.
  induction d as [|[k0 v0] d IH]; cbn [dict_set dict_get]; [reflexivity|].
  destruct (String.eqb k0 k') eqn:E0; cbn [dict_get].
  - apply String.eqb_eq in E0. subst k0. destruct (String.eqb k' k); reflexivity.
  - rewrite IH. destruct (String.eqb k0 k) eqn:E1; [|reflexivity].
    apply String.eqb_eq in E1. subst k0. now rewrite String.eqb_sym, E0.
Qed.

Lemma field_step_good (raw : str) (field : string) (p : re.regex) (d : dict value) :
  String.eqb field "line_item_pattern" = false ->
  always_sets 1 p = true -> Nat.leb 1 (re.ngroups p) = true ->
  field_step raw field p d =
  Ok (match field_value raw field p with
      | Some v => dict_set field v d
      | None => d
      end).
Proof.
  intros Hf Ha Hn. unfold field_step, field_value, first_group. rewrite Hf.
  destruct (re.search p raw re.IM) as [m|] eqn:Es; [|reflexivity].
  unfold re.search in Es.
  unfold group. rewrite (search_from_ngroups _ _ _ _ _ Es), Hn. cbn [bind].
  destruct (search_from_found _ _ _ _ _ Es) as (k & rest & tl & _ & _ & Hrun & _).
  assert (Hl : re.lookup 1 (re.m_groups m) <> None).
  { apply (run_sets re.IM 1 p Ha (skipn k raw) [] rest). rewrite Hrun. now left. }
  destruct (re.lookup 1 (re.m_groups m)) as [g1|]; [|congruence].
  cbn [strip_opt bind option_map cleaned].
  destruct (is_monetary field); [|reflexivity].
  destruct (parse_float_total (strip g1)) as [r ->]. reflexivity.
Qed.

Lemma dict_get_absent (V : Type) (k : string) (d : dict V) :
  existsb (fun kv => String.eqb (fst kv) k) d = false -> dict_get k d = None.
Proof.
  induction d as [|[k0 v0] d IH]; cbn [existsb dict_get fst]; [reflexivity|].
  intros H. apply orb_false_elim in H. destruct H as [-> H]. auto.
Qed.

Lemma for_fields_get (raw : str) (items : dict re.regex) :
  good_patterns items = true ->
  forall d0, exists d,
    for_fields raw items d0 = Ok d /\
    forall k, dict_get k d =
              match extracted raw items k with
              | Some v => Some v
              | None => dict_get k d0
              end.
Proof.
  induction items as [|[f p] rest IH]; cbn [good_patterns for_fields]; intros Hg d0.
  - exists d0. split; [reflexivity|]. intros k. unfold extracted. cbn [dict_get].
    destruct (String.eqb k "line_item_pattern"); reflexivity.
  - apply andb_prop in Hg. destruct Hg as [Hg Hrest].
    apply andb_prop in Hg. destruct Hg as [Hp Hnd].
    apply negb_true_iff in Hnd. apply dict_get_absent in Hnd.
    assert (Hstep : exists d1, field_step raw f p d0 = Ok d1 /\
              forall k, dict_get k d1 =
                        if String.eqb f k
                        then match extracted raw [(f, p)] k with
                             | Some v => Some v
                             | None => dict_get k d0
                             end
                        else dict_get k d0).
    { destruct (String.eqb f "line_item_pattern") eqn:Ef.
      - exists d0. split; [unfold field_step; now rewrite Ef|].
        intros k. destruct (String.eqb f k) eqn:Ek; [|reflexivity].
        apply String.eqb_eq in Ek. subst k. unfold extracted. now rewrite Ef.
      - cbn [orb] in Hp. apply andb_prop in Hp. destruct Hp as [Ha Hn].
        rewrite (field_step_good raw f p d0 Ef Ha Hn). eexists. split; [reflexivity|].
        intros k. unfold extracted. cbn [dict_get].
        destruct (String.eqb f k) eqn:Ek.
        + apply String.eqb_eq in Ek. subst k. rewrite Ef.
          destruct (field_value raw f p); [|reflexivity].
          now rewrite dict_get_set, String.eqb_refl.
        + destruct (field_value raw f p); [|reflexivity].
          now rewrite dict_get_set, Ek. }
    destruct Hstep as (d1 & -> & Hd1). cbn [bind].
    destruct (IH Hrest d1) as (d & Hd & Hget). exists d. split; [exact Hd|].
    intros k. rewrite Hget, Hd1. unfold extracted. cbn [dict_get].
    destruct (String.eqb k "line_item_pattern") eqn:El.
    + destruct (String.eqb f k); reflexivity.
    + destruct (String.eqb f k) eqn:Ek.
      * apply String.eqb_eq in Ek. subst k. rewrite Hnd. reflexivity.
      * destruct (dict_get k rest) as [p'|]; [|reflexivity].
        destruct (field_value raw k p'); reflexivity.
Qed.

(** ** The parser as a whole *)

Section Fields.

Variables (raw : str) (items : dict re.regex) (d : dict value).

Hypothesis d_get :
  forall k, dict_get k d =
            match extracted raw items k with
            | Some v => Some v
            | None => dict_get k []
            end.

Lemma str_field_get (k : string) :
  String.eqb k "line_item_pattern" = false -> is_monetary k = false ->
  str_field d k =
  Ok match dict_get k items with Some p => first_group raw p | None => None end.
Proof.
  intros Hk Hm. unfold str_field. rewrite d_get. unfold extracted, field_value.
  rewrite Hk, Hm. cbn [dict_get].
  destruct (dict_get k items) as [p|]; [|reflexivity].
  destruct (first_group raw p); reflexivity.
Qed.

Lemma float_field_get (k : string) :
  String.eqb k "line_item_pattern" = false -> is_monetary k = true ->
  float_field d k =
  Ok (cleaned match dict_get k items with Some p => first_group raw p | None => None end).
Proof.
  intros Hk Hm. unfold float_field. rewrite d_get. unfold extracted, field_value.
  rewrite Hk, Hm. cbn [dict_get].
  destruct (dict_get k items) as [p|]; [|reflexivity].
  destruct (first_group raw p) as [v|]; [|reflexivity].
  destruct (cleaned (Some v)); reflexivity.
Qed.

End Fields.

Lemma parse_invoice_data_good (raw : str) (w : world) (lp : re.regex) :
  good_patterns (effective_patterns w raw) = true ->
  dict_get "line_item_pattern" (config w) = Some lp ->
  parse_invoice_data raw w =
  (Ok (parsed w raw lp (uuid_values w (uuid_calls w))), snd (uuid4 w)).
Proof.
  intros Hg Hlp. unfold parse_invoice_data, uuid4. cbn [snd].
  change (effective_patterns _ raw) with (effective_patterns w raw).
  destruct (for_fields_get raw _ Hg []) as (d & -> & Hget). cbn [bind].
  unfold dict_index. cbn [config]. rewrite Hlp. cbn [bind].
  rewrite parse_line_items_flat. cbn [bind].
  unfold make_invoice.
  rewrite (str_field_get raw _ d Hget "vendor_name" eq_refl eq_refl).
  rewrite (str_field_get raw _ d Hget "invoice_number" eq_refl eq_refl).
  rewrite (str_field_get raw _ d Hget "date" eq_refl eq_refl).
  rewrite (float_field_get raw _ d Hget "total_amount" eq_refl eq_refl).
  rewrite (float_field_get raw _ d Hget "tax_amount" eq_refl eq_refl).
  rewrite (str_field_get raw _ d Hget "gst_number" eq_refl eq_refl).
  reflexivity.
Qed.

Lemma loaded_good (raw : str) (ids : nat -> str) (n : nat) :
  good_patterns (effective_patterns (loaded ids n) raw) = true.
Proof.
  unfold effective_patterns. cbn [config template loaded].
  destruct (is_known_vendor KNOWN_VENDOR_TEMPLATE raw); vm_compute; reflexivity.
Qed.

(** On the configuration of the program the parser always succeeds, the
    configuration is left as it was, and one identifier is consumed. *)
Lemma parse_invoice_data_loaded (raw : str) (ids : nat -> str) (n : nat) :
  parse_invoice_data raw (loaded ids n) =
  (Ok (parsed (loaded ids n) raw line_item_re (ids n)), loaded ids (S n)).
Proof.
  rewrite (parse_invoice_data_good raw (loaded ids n) line_item_re).
  - reflexivity.
  - apply loaded_good.
  - reflexivity.
Qed.

Lemma found_loaded (raw : str) (ids : nat -> str) (n : nat) (field : string) :
  found (loaded ids n) raw field =
  match dict_get field (if is_known_vendor KNOWN_VENDOR_TEMPLATE raw
                        then dict_update INVOICE_CONFIG
                               (regex_overrides KNOWN_VENDOR_TEMPLATE)
                        else INVOICE_CONFIG) with
  | Some p => first_group raw p
  | None => None
  end.
Proof. reflexivity. Qed.



(** C8: two runs of the parser on the same text, whatever identifiers they
    draw, both succeed and give records that agree on every field other than
    the identifier; each run leaves the configuration as it was. *)
Theorem parse_deterministic (raw : str) (ids ids' : nat -> str) (n n' : nat) :
  exists a b,
    parse_invoice_data raw (loaded ids n) = (Ok a, loaded ids (S n)) /\
    parse_invoice_data raw (loaded ids' n') = (Ok b, loaded ids' (S n')) /\
    invoice_id a = ids n /\ invoice_id b = ids' n' /\
    vendor_name a = vendor_name b /\
    invoice_number a = invoice_number b /\
    date a = date b /\
    total_amount a = total_amount b /\
    tax_amount a = tax_amount b /\
    gst_number a = gst_number b /\
    line_items a = line_items b /\
    raw_text a = raw_text b.
Proof.
  do 2 eexists. rewrite !parse_invoice_data_loaded.
  repeat split; reflexivity.
Qed.

(** ** The vendor name *)



Lemma dropwhile_head (p : ascii -> bool) (a : ascii) (s : str) :
  p a = false -> dropwhile p (a :: s) = a :: s.
Proof. intros H. cbn [dropwhile]. now rewrite H. Qed.

Lemma consumed_skipn (s : str) (k : nat) :
  k <= length s -> re.consumed s (skipn k s) = firstn k s.
Proof.
  intros H. unfold re.consumed. rewrite length_skipn. f_equal. lia.
Qed.



(** *** Text with code points above U+00FF *)















(** ** The total amount *)

(** C2: on the text "GRAND TOTAL: Rs. 880.00" the extraction succeeds but
    the total amount is absent: the colon after the keyword keeps the pattern
    from matching. *)
Theorem grand_total_with_colon_is_absent (ids : nat -> str) (n : nat) :
  exists inv,
    fst (parse_invoice_data (lit "GRAND TOTAL: Rs. 880.00") (loaded ids n)) = Ok inv /\
    re.search total_amount_re (lit "GRAND TOTAL: Rs. 880.00") re.IM = None /\
    total_amount inv = None.
Proof.
  rewrite parse_invoice_data_loaded. cbn [fst]. eexists.
  split; [reflexivity|]. split; vm_compute; reflexivity.
Qed.

(** Without the colon the same amount is read: 880.0 is
    [7740561859543040 * 2^-43]. *)
Lemma grand_total_without_colon (ids : nat -> str) (n : nat) :
  exists inv,
    fst (parse_invoice_data (lit "GRAND TOTAL Rs. 880.00") (loaded ids n)) = Ok inv /\
    total_amount inv = Some (S754_finite false 7740561859543040 (-43)) /\
    (7740561859543040 = 880 * 2 ^ 43)%Z.
Proof.
  rewrite parse_invoice_data_loaded. cbn [fst]. eexists.
  split; [reflexivity|]. split; vm_compute; reflexivity.
Qed.

(** The placeholder text of the OCR stand-in has its total written with a
    colon as well, and 880 is not read from it either: the total found is
    1.0, from the "TOTAL" that ends the table header and the "1." that
    starts the next line. *)
Lemma placeholder_total_is_not_880 (ids : nat -> str) (n : nat) :
  exists inv,
    fst (parse_invoice_data
           (join [newline]
              (map lit ["Acme Corp"; "123 Main St, Anytown, USA";
                        "Invoice No: ACME-INV-45678"; "Date: 01/01/2024";
                        "GSTIN: 22AAAAA0000A1Z5"; "ITEM QTY RATE TOTAL";
                        "1. Consulting Service 1 500.00 500.00";
                        "2. Software License 2 150.00 300.00";
                        "Subtotal: 800.00"; "TAX (10%): 80.00";
                        "GRAND TOTAL: 880.00"]%string))
           (loaded ids n)) = Ok inv /\
    total_amount inv = Some one /\ invoice_number inv = Some (lit "45678").
Proof.
  rewrite parse_invoice_data_loaded. cbn [fst]. eexists.
  split; [reflexivity|]. split; vm_compute; reflexivity.
Qed.

(** ** The vendor override *)

Lemma upper1_tolower (a : ascii) : upper1 (tolower a) = upper1 a.
Proof. destruct a as [[] [] [] [] [] [] [] []]; reflexivity. Qed.

Lemma upper_lower_str (s : str) : upper (lower_str s) = upper s.
Proof.
  unfold upper, lower_str. induction s as [|a s IH]; [reflexivity|].
  cbn [map flat_map]. now rewrite upper1_tolower, IH.
Qed.

Lemma upper_upto_case (a b : str) : eq_upto_case a b -> upper a = upper b.
Proof.
  unfold eq_upto_case. intros H.
  now rewrite <- (upper_lower_str a), <- (upper_lower_str b), H.
Qed.

Lemma prefixN_app (x q : list N) : prefixN x (x ++ q) = true.
Proof.
  induction x as [|c x IH]; [reflexivity|].
  cbn [app prefixN]. now rewrite N.eqb_refl, IH.
Qed.

Lemma containsN_app (x p q : list N) : containsN x (p ++ x ++ q) = true.
Proof.
  induction p as [|c p IH].
  - cbn [app]. destruct (x ++ q) eqn:E; cbn [containsN]; rewrite <- E, prefixN_app;
      reflexivity.
  - cbn [app containsN]. rewrite IH. apply orb_true_r.
Qed.

Lemma known_vendor_of_contains (raw : str) :
  contains_ci (lit "Acme Corp") (join [newline] (firstn 5 (split_on newline raw))) ->
  is_known_vendor KNOWN_VENDOR_TEMPLATE raw = true.
Proof.
  intros (pre & w & post & E & Hw). unfold is_known_vendor.
  cbn [template_vendor_name KNOWN_VENDOR_TEMPLATE]. rewrite E.
  unfold upper at 2. rewrite !flat_map_app. fold (upper pre) (upper w) (upper post).
  rewrite (upper_upto_case _ _ Hw). apply containsN_app.
Qed.

Lemma run_seq_word (fl : re.flags) (w : str) (r : re.regex) (s : str) (g : re.groups) :
  starts_with fl w s = true ->
  re.run fl (re.Seq (re.seqs (map re.chr w)) r) s g = re.run fl r (skipn (length w) s) g.
Proof.
  intros H. cbn [re.run]. rewrite run_word, H. cbn [flat_map fst snd].
  apply app_nil_r.
Qed.

Lemma run_group_plus (fl : re.flags) (cs : list re.item) (n : nat) (s : str)
  (g : re.groups) (k : nat) :
  re.span fl cs None s = S k ->
  exists tl,
    re.run fl (re.Grp n (re.Rep cs 1 None)) s g =
    (skipn (S k) s, (n, firstn (S k) s) :: g) :: tl.
Proof.
  intros H. cbn [re.run]. rewrite H.
  replace (S (S k) - 1) with (S k) by lia.
  rewrite seq_S, rev_app_distr. cbn [rev app map fst snd Nat.add].
  rewrite consumed_skipn.
  - eexists. reflexivity.
  - rewrite <- H. apply span_le_length.
Qed.

Lemma span_stops (fl : re.flags) (post : str) :
  match post with a :: _ => isdecimal a = false | [] => True end ->
  re.span fl [re.Digit] None post = 0.
Proof.
  destruct post as [|a post]; [reflexivity|]. intros H.
  cbn [re.span re.mem existsb re.item_mem]. now rewrite H.
Qed.

Lemma acme_match (post : str) :
  match post with a :: _ => isdecimal a = false | [] => True end ->
  exists tl,
    re.run re.IM acme_invoice_number_re (lit "ACME-INV-45678" ++ post) [] =
    (post, [(1, lit "45678")]) :: tl.
Proof.
  intros Hpost. unfold acme_invoice_number_re, re.word.
  rewrite run_seq_word by reflexivity.
  change (skipn _ (lit "ACME-INV-45678" ++ post)) with (lit "45678" ++ post).
  destruct (run_group_plus re.IM [re.Digit] 1 (lit "45678" ++ post) [] 4) as [tl Htl].
  - cbn [lit list_ascii_of_string app re.span re.mem existsb re.item_mem option_map].
    change (isdecimal "4") with true. change (isdecimal "5") with true.
    change (isdecimal "6") with true. change (isdecimal "7") with true.
    change (isdecimal "8") with true. cbn [orb].
    now rewrite (span_stops re.IM post Hpost).
  - exists tl. exact Htl.
Qed.

(** C3 (amended): when the text contains "Invoice No: ACME-INV-45678" and
    its first five lines contain "Acme Corp" in any letter case, the
    override pattern set is in force and the invoice number is what the
    override pattern finds; it is "45678" when the first match of the
    override pattern in the text is the one of that occurrence and the
    occurrence is not followed by a further decimal digit. *)
Theorem acme_invoice_number (pre post : str) (ids : nat -> str) (n : nat) :
  let raw := pre ++ lit "Invoice No: ACME-INV-45678" ++ post in
  contains_ci (lit "Acme Corp") (join [newline] (firstn 5 (split_on newline raw))) ->
  effective_patterns (loaded ids n) raw
  = dict_update INVOICE_CONFIG (regex_overrides KNOWN_VENDOR_TEMPLATE) /\
  exists inv,
    fst (parse_invoice_data raw (loaded ids n)) = Ok inv /\
    invoice_number inv = first_group raw acme_invoice_number_re /\
    (option_map re.m_start (re.search acme_invoice_number_re raw re.IM)
     = Some (length (pre ++ lit "Invoice No: ")) ->
     match post with a :: _ => isdecimal a = false | [] => True end ->
     invoice_number inv = Some (lit "45678")).
Proof.
  intros raw Hv.
  pose proof (known_vendor_of_contains raw Hv) as Hk.
  split.
  - unfold effective_patterns. cbn [config template loaded]. now rewrite Hk.
  - rewrite parse_invoice_data_loaded. cbn [fst]. eexists. split; [reflexivity|].
    cbn [invoice_number parsed]. rewrite found_loaded, Hk.
    change (dict_get "invoice_number" _) with (Some acme_invoice_number_re).
    split; [reflexivity|]. intros Hfirst Hpost.
    unfold first_group.
    destruct (re.search acme_invoice_number_re raw re.IM) as [m|] eqn:Es;
      [|discriminate].
    cbn [option_map] in Hfirst. injection Hfirst as Hstart.
    unfold re.search in Es.
    destruct (search_from_found _ _ _ _ _ Es) as (k & rest & tl & Hk0 & _ & Hrun & _).
    cbn [Nat.add] in Hk0. rewrite Hstart in Hk0. subst k.
    assert (Hskip : skipn (length (pre ++ lit "Invoice No: ")) raw
                    = lit "ACME-INV-45678" ++ post).
    { subst raw.
      change (lit "Invoice No: ACME-INV-45678")
        with (lit "Invoice No: " ++ lit "ACME-INV-45678").
      rewrite <- app_assoc, (app_assoc pre).
      rewrite skipn_app, skipn_all, Nat.sub_diag. reflexivity. }
    change (skipn _ raw) with (skipn (length (pre ++ lit "Invoice No: ")) raw) in Hrun.
    rewrite Hskip in Hrun.
    destruct (acme_match post Hpost) as [tl' Ht]. rewrite Ht in Hrun.
    injection Hrun as _ Hg _. rewrite <- Hg. reflexivity.
Qed.

Lemma acme_invoice_number_witness :
  exists inv,
    fst (parse_invoice_data
           (lit "Acme Corp" ++ [newline] ++ lit "Invoice No: ACME-INV-45678" ++ [newline])
           (loaded (fun _ => lit "id") 0)) = Ok inv /\
    invoice_number inv = Some (lit "45678").
Proof.
  assert (Hv : contains_ci (lit "Acme Corp")
                 (join [newline]
                    (firstn 5 (split_on newline
                       ((lit "Acme Corp" ++ [newline])
                        ++ lit "Invoice No: ACME-INV-45678" ++ [newline]))))).
  { exists [], (lit "Acme Corp"),
      ([newline] ++ lit "Invoice No: ACME-INV-45678" ++ [newline]).
    split; reflexivity. }
  destruct (proj2 (acme_invoice_number (lit "Acme Corp" ++ [newline]) [newline]
                     (fun _ => lit "id") 0 Hv)) as (inv & H & _ & Hn).
  exists inv. split; [exact H|]. apply Hn; [vm_compute; reflexivity|reflexivity].
Defined.

(** C3 (as stated) fails: here the text contains "Invoice No:
    ACME-INV-45678" and starts with "Acme Corp", but the number goes on and
    the invoice number read is "456789". *)
Lemma acme_invoice_number_takes_all_digits :
  let raw := lit "Acme Corp" ++ [newline] ++ lit "Invoice No: ACME-INV-456789" in
  raw = (lit "Acme Corp" ++ [newline]) ++ lit "Invoice No: ACME-INV-45678" ++ lit "9" /\
  contains_ci (lit "Acme Corp") (join [newline] (firstn 5 (split_on newline raw))) /\
  exists inv,
    fst (parse_invoice_data raw (loaded (fun _ => lit "id") 0)) = Ok inv /\
    invoice_number inv = Some (lit "456789") /\
    invoice_number inv <> Some (lit "45678").
Proof.
  split; [reflexivity|]. split.
  - exists [], (lit "Acme Corp"), ([newline] ++ lit "Invoice No: ACME-INV-456789").
    split; reflexivity.
  - rewrite parse_invoice_data_loaded. cbn [fst]. eexists. split; [reflexivity|].
    split; [vm_compute; reflexivity|]. vm_compute. discriminate.
Qed.

(** The same happens when an earlier reference comes first in the text. *)
Lemma acme_invoice_number_takes_first_reference :
  let raw := lit "Acme Corp, ref ACME-INV-1" ++ [newline]
             ++ lit "Invoice No: ACME-INV-45678" in
  contains_ci (lit "Acme Corp") (join [newline] (firstn 5 (split_on newline raw))) /\
  exists inv,
    fst (parse_invoice_data raw (loaded (fun _ => lit "id") 0)) = Ok inv /\
    invoice_number inv = Some (lit "1").
Proof.
  split.
  - exists [], (lit "Acme Corp"),
      (lit ", ref ACME-INV-1" ++ [newline] ++ lit "Invoice No: ACME-INV-45678").
    split; reflexivity.
  - rewrite parse_invoice_data_loaded. cbn [fst]. eexists. split; [reflexivity|].
    vm_compute. reflexivity.
Qed.

(** ** Reading the report back *)

Lemma special_false (a : ascii) :
  special a = false ->
  chr_eqb a comma = false /\ chr_eqb a dquote = false /\
  chr_eqb a cr = false /\ chr_eqb a newline = false.
Proof.
  unfold special. intros H.
  apply orb_false_elim in H. destruct H as [H Hn].
  apply orb_false_elim in H. destruct H as [H Hc].
  apply orb_false_elim in H. tauto.
Qed.

Lemma read_unquoted (t fld : str) (row : list str) (rows : list (list str)) :
  existsb special t = false ->
  fold_left read_chr t (in_state InField fld row rows)
  = in_state InField (rev t ++ fld) row rows.
Proof.
  revert fld. induction t as [|a t IH]; intros fld H; [reflexivity|].
  cbn [existsb] in H. apply orb_false_elim in H. destruct H as [Ha Ht].
  destruct (special_false a Ha) as (H1 & H2 & H3 & H4).
  cbn [fold_left]. unfold read_chr at 2. cbn [r_state r_field r_row r_rows in_state].
  rewrite H1, H3, H4. rewrite (IH _ Ht). cbn [rev]. now rewrite <- app_assoc.
Qed.

Lemma read_quoted_body (t fld : str) (row : list str) (rows : list (list str)) :
  fold_left read_chr (double_quotes t) (in_state InQuoted fld row rows)
  = in_state InQuoted (rev t ++ fld) row rows.
Proof.
  revert fld. induction t as [|a t IH]; intros fld; [reflexivity|].
  unfold double_quotes. cbn [flat_map]. fold (double_quotes t).
  rewrite fold_left_app. cbn [rev]. rewrite <- app_assoc. cbn [app].
  rewrite <- IH. f_equal.
  destruct (chr_eqb a dquote) eqn:E.
  - apply Ascii.eqb_eq in E. subst a. reflexivity.
  - cbn [fold_left]. unfold read_chr. cbn [r_state r_field r_row r_rows in_state].
    now rewrite E.
Qed.

(** One field, then the character that ends it: a comma or the carriage
    return that starts the line end.  At the start of a record an empty
    field followed by the line end is not written this way. *)
Lemma read_field (start : bool) (t : str) (row : list str) (rows : list (list str))
  (last : bool) :
  (start = true -> row = []) ->
  (start = true -> last = true -> t <> []) ->
  fold_left read_chr (write_field t ++ [if last then cr else comma])
    (in_state (if start then AtRecord else AtField) [] row rows)
  = if last then end_record (t :: row) rows AfterCR
    else in_state AtField [] (t :: row) rows.
Proof.
  intros Hrow Hne. unfold write_field. destruct (existsb special t) eqn:Es.
  - unfold quoted. cbn [app fold_left].
    assert (H0 : read_chr (in_state (if start then AtRecord else AtField) [] row rows) dquote
                 = in_state InQuoted [] row rows) by (destruct start; reflexivity).
    rewrite H0, <- app_assoc, fold_left_app, read_quoted_body, app_nil_r.
    destruct last; cbn; unfold end_record, end_field, in_state; cbn;
      now rewrite rev_involutive.
  - destruct t as [|a t].
    + destruct last.
      * destruct start; [now exfalso; apply Hne|]. reflexivity.
      * destruct start; reflexivity.
    + cbn [existsb] in Es. apply orb_false_elim in Es. destruct Es as [Ha Ht].
      destruct (special_false a Ha) as (H1 & H2 & H3 & H4).
      cbn [app fold_left].
      assert (H0 : read_chr (in_state (if start then AtRecord else AtField) [] row rows) a
                   = in_state InField [a] row rows).
      { destruct start; unfold read_chr; cbn [r_state r_field r_row r_rows in_state];
          now rewrite H1, H2, H3, H4. }
      rewrite H0, fold_left_app, (read_unquoted _ _ _ _ Ht).
      destruct last; cbn; unfold end_record, end_field, in_state; cbn;
        now rewrite rev_app_distr, rev_involutive.
Qed.

Lemma read_fields (texts : list str) (start : bool) (row : list str)
  (rows : list (list str)) :
  texts <> [] -> (start = true -> row = [] /\ texts <> [[]]) ->
  fold_left read_chr (join [comma] (map write_field texts) ++ [cr])
    (in_state (if start then AtRecord else AtField) [] row rows)
  = end_record (rev texts ++ row) rows AfterCR.
Proof.
  revert start row. induction texts as [|t texts IH]; intros start row Hne Hs;
    [congruence|].
  destruct texts as [|t2 rest].
  - cbn [map join rev app].
    apply (read_field start t row rows true).
    + intros E. now destruct (Hs E).
    + intros E _ ->. now destruct (Hs E).
  - change (join [comma] (map write_field (t :: t2 :: rest)))
      with (write_field t ++ [comma] ++ join [comma] (map write_field (t2 :: rest))).
    rewrite <- !app_assoc, (app_assoc (write_field t)), fold_left_app.
    rewrite (read_field start t row rows false);
      [|intros E; now destruct (Hs E)|discriminate].
    rewrite (IH false (t :: row)); [|discriminate|discriminate].
    cbn [rev]. now rewrite <- !app_assoc.
Qed.

Lemma read_row (row : list cell) (rows : list (list str)) :
  fold_left read_chr (writerow row) (in_state AtRecord [] [] rows)
  = in_state AtRecord [] [] (map cell_text row :: rows).
Proof.
  unfold writerow.
  assert (G : forall texts, texts <> [] -> texts <> [[]] ->
            fold_left read_chr (join [comma] (map write_field texts) ++ [cr; newline])
              (in_state AtRecord [] [] rows)
            = in_state AtRecord [] [] (texts :: rows)).
  { intros texts H1 H2.
    change [cr; newline] with ([cr] ++ [newline]).
    rewrite app_assoc, fold_left_app, (read_fields texts true [] rows H1);
      [|intros _; split; [reflexivity|exact H2]].
    cbn. unfold in_state. now rewrite app_nil_r, rev_involutive. }
  destruct (map cell_text row) as [|t texts] eqn:E.
  - reflexivity.
  - destruct t as [|a t]; [destruct texts as [|t2 rest]|].
    + reflexivity.
    + apply G; discriminate.
    + apply G; discriminate.
Qed.

(** What is written is read back, row by row and cell by cell; an absent
    value comes back as the empty cell. *)
Lemma read_written (rs : list (list cell)) (rows : list (list str)) :
  fold_left read_chr (concat (map writerow rs)) (in_state AtRecord [] [] rows)
  = in_state AtRecord [] [] (rev (map (map cell_text) rs) ++ rows).
Proof.
  revert rows. induction rs as [|r rs IH]; intros rows; [reflexivity|].
  cbn [map concat]. rewrite fold_left_app, read_row, IH. cbn [rev].
  now rewrite <- app_assoc.
Qed.

Lemma read_csv_written (rs : list (list cell)) :
  read_csv (concat (map writerow rs)) = map (map cell_text) rs.
Proof.
  unfold read_csv, read_from. rewrite read_written. unfold read_end. cbn.
  now rewrite app_nil_r, rev_involutive.
Qed.

(** ** Decimal digits *)

Lemma digits_val_app (a b : str) :
  digits_val (a ++ b)
  = fold_left (fun acc c => acc * 10 + digit_val c)%Z b (digits_val a).
Proof. unfold digits_val. apply fold_left_app. Qed.

Lemma digits_val_snoc (a : str) (c : ascii) :
  digits_val (a ++ [c]) = (digits_val a * 10 + digit_val c)%Z.
Proof. now rewrite digits_val_app. Qed.

Lemma digit_chr_val (d : Z) :
  (0 <= d <= 9)%Z -> digit_val (digit_chr d) = d /\ isdecimal (digit_chr d) = true.
Proof.
  intros H.
  assert (C : (d = 0 \/ d = 1 \/ d = 2 \/ d = 3 \/ d = 4 \/ d = 5 \/ d = 6 \/ d = 7
               \/ d = 8 \/ d = 9)%Z) by lia.
  repeat (destruct C as [->|C]; [split; reflexivity|]). subst d. split; reflexivity.
Qed.

Lemma dec_digits_fuel_acc (fuel : nat) (n : Z) (acc : str) :
  dec_digits_fuel fuel n acc = dec_digits_fuel fuel n [] ++ acc.
Proof.
  revert n acc. induction fuel as [|fuel IH]; intros n acc; [reflexivity|].
  cbn [dec_digits_fuel]. destruct (n <? 10)%Z; [reflexivity|].
  rewrite (IH _ (cons _ acc)), (IH _ (cons _ nil)), <- app_assoc. reflexivity.
Qed.

Lemma dec_digits_fuel_spec (fuel : nat) (n : Z) :
  0 < fuel -> (0 <= n < 2 ^ Z.of_nat fuel)%Z ->
  digits_val (dec_digits_fuel fuel n []) = n /\
  forallb isdecimal (dec_digits_fuel fuel n []) = true /\
  dec_digits_fuel fuel n [] <> [].
Proof.
  revert n. induction fuel as [|fuel IH]; intros n Hf Hn; [lia|].
  cbn [dec_digits_fuel].
  pose proof (Z.mod_pos_bound n 10 ltac:(lia)) as Hm.
  destruct (digit_chr_val (n mod 10) ltac:(lia)) as [Hv Hd].
  destruct (n <? 10)%Z eqn:E.
  - apply Z.ltb_lt in E. rewrite Z.mod_small in * by lia.
    repeat split; [cbn; lia|cbn; now rewrite Hd|discriminate].
  - apply Z.ltb_ge in E. rewrite dec_digits_fuel_acc.
    assert (Hq : (0 <= n / 10 < 2 ^ Z.of_nat fuel)%Z).
    { split; [apply Z.div_pos; lia|].
      apply Z.div_lt_upper_bound; [lia|].
      rewrite Nat2Z.inj_succ, Z.pow_succ_r in Hn by lia. lia. }
    assert (Hf' : 0 < fuel).
    { destruct fuel; [|lia]. cbn in Hq.
      assert (1 <= n / 10)%Z by (apply Z.div_le_lower_bound; lia). lia. }
    destruct (IH _ Hf' Hq) as (Iv & Id & _).
    repeat split.
    + rewrite digits_val_snoc, Iv, Hv. pose proof (Z.div_mod n 10 ltac:(lia)). lia.
    + rewrite forallb_app, Id. cbn. now rewrite Hd.
    + intros H. apply app_eq_nil in H. destruct H as [_ H]. discriminate.
Qed.

Lemma dec_digits_spec (n : Z) :
  (0 <= n)%Z ->
  digits_val (dec_digits n) = n /\
  forallb isdecimal (dec_digits n) = true /\ dec_digits n <> [].
Proof.
  intros Hn. apply dec_digits_fuel_spec; [lia|]. split; [exact Hn|].
  rewrite Nat2Z.inj_succ, Z2Nat.id by apply Z.log2_nonneg.
  destruct (Z.eq_dec n 0) as [->|Hz]; [reflexivity|].
  apply Z.log2_spec. lia.
Qed.

Lemma fold_zeros (k : nat) (acc : Z) :
  fold_left (fun a c => a * 10 + digit_val c)%Z (repeat "0"%char k) acc
  = (acc * 10 ^ Z.of_nat k)%Z.
Proof.
  revert acc. induction k as [|k IH]; intros acc.
  - cbn. lia.
  - cbn [repeat fold_left]. rewrite IH, Nat2Z.inj_succ, Z.pow_succ_r by lia.
    change (digit_val "0") with 0%Z. lia.
Qed.

Lemma digits_val_zeros_left (k : nat) (ds : str) :
  digits_val (repeat "0"%char k ++ ds) = digits_val ds.
Proof.
  rewrite digits_val_app.
  replace (digits_val (repeat "0"%char k)) with 0%Z; [reflexivity|].
  unfold digits_val. rewrite fold_zeros. lia.
Qed.

Lemma digits_val_zeros_right (k : nat) (ds : str) :
  digits_val (ds ++ repeat "0"%char k) = (digits_val ds * 10 ^ Z.of_nat k)%Z.
Proof. rewrite digits_val_app. apply fold_zeros. Qed.

(** ** Reading a numeral *)

Lemma numchr_facts (a : ascii) :
  numchr a = true -> isspace a = false /\ chr_eqb a "_" = false.
Proof.
  destruct a as [[] [] [] [] [] [] [] []]; cbn; intros H;
    try discriminate H; split; reflexivity.
Qed.

Lemma decimal_facts (a : ascii) :
  isdecimal a = true ->
  numchr a = true /\ tolower a = a /\ chr_eqb a "-" = false /\
  chr_eqb a "+" = false /\ chr_eqb a "." = false /\ chr_eqb a "e" = false /\
  chr_eqb a "E" = false.
Proof.
  destruct a as [[] [] [] [] [] [] [] []]; cbn; intros H;
    try discriminate H; repeat split; reflexivity.
Qed.

Lemma strip_nospace (s : str) :
  (forall a, In a s -> isspace a = false) -> strip s = s.
Proof.
  intros H. unfold strip.
  assert (D : forall t, (forall a, In a t -> isspace a = false) ->
                        dropwhile isspace t = t).
  { intros [|a t] Ht; [reflexivity|].
    apply dropwhile_head. apply Ht. now left. }
  rewrite (D s H), D, rev_involutive; [reflexivity|].
  intros a Ha. apply H. now apply in_rev.
Qed.

Lemma underscores_ok_none (s : str) (prev : option ascii) :
  (forall a, In a s -> chr_eqb a "_" = false) -> underscores_ok prev s = true.
Proof.
  revert prev. induction s as [|a s IH]; intros prev H; [reflexivity|].
  cbn [underscores_ok]. rewrite (H a (or_introl eq_refl)). cbn [andb].
  apply IH. intros b Hb. apply H. now right.
Qed.

Lemma remove_chr_none (c : ascii) (s : str) :
  (forall a, In a s -> chr_eqb a c = false) -> remove_chr c s = s.
Proof.
  induction s as [|a s IH]; intros H; [reflexivity|].
  cbn [remove_chr filter]. rewrite (H a (or_introl eq_refl)). cbn [negb].
  f_equal. apply IH. intros b Hb. apply H. now right.
Qed.

Lemma take_digits_app (ds rest : str) :
  forallb isdecimal ds = true ->
  match rest with a :: _ => isdecimal a = false | [] => True end ->
  take_digits (ds ++ rest) = (ds, rest).
Proof.
  intros Hd Hr. unfold take_digits.
  assert (E : span_len isdecimal (ds ++ rest) = length ds).
  { induction ds as [|d ds IH].
    - destruct rest as [|a rest]; [reflexivity|]. cbn. now rewrite Hr.
    - cbn [forallb] in Hd. apply andb_prop in Hd. destruct Hd as [Hd1 Hd2].
      cbn [app span_len length]. now rewrite Hd1, (IH Hd2). }
  rewrite E, firstn_app, skipn_app, firstn_all, skipn_all, Nat.sub_diag.
  cbn. now rewrite app_nil_r.
Qed.

Lemma forallb_numchr_decimal (ds : str) :
  forallb isdecimal ds = true -> forall a, In a ds -> numchr a = true.
Proof.
  intros H a Ha. apply decimal_facts. revert a Ha. now apply forallb_forall.
Qed.

Lemma numeral_chars (sign : bool) (ip : str) (frac : option str)
  (ex : option (bool * str)) (a : ascii) :
  forallb isdecimal ip = true ->
  match frac with Some fp => forallb isdecimal fp = true | None => True end ->
  match ex with Some (_, ed) => forallb isdecimal ed = true | None => True end ->
  In a (numeral sign ip frac ex) -> numchr a = true.
Proof.
  intros Hip Hfp Hex. unfold numeral. rewrite !in_app_iff.
  intros [H|[H|[H|H]]].
  - destruct sign; [|destruct H]. destruct H as [<-|[]]. reflexivity.
  - now apply (forallb_numchr_decimal ip).
  - destruct frac as [fp|]; [|destruct H]. destruct H as [<-|H]; [reflexivity|].
    now apply (forallb_numchr_decimal fp).
  - destruct ex as [[es ed]|]; [|destruct H].
    destruct H as [<-|[<-|H]]; [reflexivity|destruct es; reflexivity|].
    now apply (forallb_numchr_decimal ed).
Qed.

(** [float] reads a numeral as its digits times the power of ten that the
    fraction and the exponent give. *)
Lemma float_of_str_numeral (sign : bool) (ip : str) (frac : option str)
  (ex : option (bool * str)) :
  ip <> [] -> forallb isdecimal ip = true ->
  match frac with Some fp => forallb isdecimal fp = true | None => True end ->
  match ex with
  | Some (_, ed) => forallb isdecimal ed = true /\ ed <> []
  | None => True
  end ->
  float_of_str (numeral sign ip frac ex)
  = Ok (of_decimal sign
          (digits_val (ip ++ match frac with Some fp => fp | None => [] end))
          (- Z.of_nat (length match frac with Some fp => fp | None => [] end)
           + match ex with
             | Some (es, ed) => if es then - digits_val ed else digits_val ed
             | None => 0
             end)%Z).
Proof.
  intros Hne Hip Hfp Hex.
  assert (Hex' : match ex with
                 | Some (_, ed) => forallb isdecimal ed = true
                 | None => True
                 end) by (destruct ex as [[es ed]|]; tauto).
  pose proof (fun a => numeral_chars sign ip frac ex a Hip Hfp Hex') as Hch.
  set (s := numeral sign ip frac ex) in *.
  unfold float_of_str.
  rewrite (strip_nospace s) by (intros a Ha; now apply numchr_facts, Hch).
  rewrite (underscores_ok_none s None) by (intros a Ha; now apply numchr_facts, Hch).
  rewrite (remove_chr_none "_" s) by (intros a Ha; now apply numchr_facts, Hch).
  cbn [negb].
  destruct ip as [|d ip']; [congruence|].
  cbn [forallb] in Hip. apply andb_prop in Hip. destruct Hip as [Hd Hip'].
  destruct (decimal_facts d Hd) as (_ & Hlow & Hm & Hp & Hdot & He1 & He2).
  set (tail := match frac with Some fp => "."%char :: fp | None => [] end
               ++ match ex with
                  | Some (es, ed) => "e"%char :: (if es then "-"%char else "+"%char) :: ed
                  | None => []
                  end).
  assert (Hsplit : split_sign s = (sign, (d :: ip') ++ tail)).
  { subst s. unfold numeral. fold tail. destruct sign; [reflexivity|].
    cbn [app split_sign]. now rewrite Hm, Hp. }
  rewrite Hsplit.
  assert (Hw : forall w, w = lit "inf" \/ w = lit "infinity" \/ w = lit "nan" ->
                         str_eqb (lower_str ((d :: ip') ++ tail)) w = false).
  { intros w Hw. destruct (str_eqb _ w) eqn:E; [|reflexivity].
    apply str_eqb_eq in E. cbn [app lower_str map] in E. rewrite Hlow in E.
    destruct Hw as [ -> | [ -> | -> ] ]; injection E as E _; subst d; discriminate Hd. }
  rewrite !Hw by tauto. cbn [orb].
  assert (Htail : match tail with a :: _ => isdecimal a = false | [] => True end).
  { subst tail. destruct frac as [fp|]; [reflexivity|].
    destruct ex as [[es ed]|]; [reflexivity|exact I]. }
  assert (Hdip : forallb isdecimal (d :: ip') = true)
    by (cbn [forallb]; now rewrite Hd, Hip').
  rewrite (take_digits_app (d :: ip') tail Hdip Htail).
  subst tail. cbv beta iota zeta.
  destruct frac as [fp|]; destruct ex as [[es ed]|]; cbn [app length].
  - change (chr_eqb "." ".") with true. cbv iota.
    rewrite (take_digits_app fp _ Hfp) by reflexivity. cbv beta iota zeta.
    change (chr_eqb "e" "e") with true. cbn [orb]. cbv iota.
    destruct Hex as [Hed Hedne].
    replace (split_sign ((if es then "-"%char else "+"%char) :: ed)) with (es, ed)
      by (destruct es; reflexivity).
    cbv beta iota zeta.
    pose proof (take_digits_app ed [] Hed I) as Htd. rewrite app_nil_r in Htd.
    rewrite Htd. cbv beta iota zeta.
    destruct ed as [|e0 ed']; [congruence|]. reflexivity.
  - change (chr_eqb "." ".") with true. cbv iota.
    rewrite (take_digits_app fp [] Hfp I). cbv beta iota zeta.
    rewrite Z.add_0_r. reflexivity.
  - change (chr_eqb "e" ".") with false. cbv iota.
    change (chr_eqb "e" "e") with true. cbn [orb]. cbv iota.
    destruct Hex as [Hed Hedne].
    replace (split_sign ((if es then "-"%char else "+"%char) :: ed)) with (es, ed)
      by (destruct es; reflexivity).
    cbv beta iota zeta.
    pose proof (take_digits_app ed [] Hed I) as Htd. rewrite app_nil_r in Htd.
    rewrite Htd. cbv beta iota zeta. rewrite app_nil_r.
    destruct ed as [|e0 ed']; [congruence|]. reflexivity.
  - rewrite app_nil_r. reflexivity.
Qed.

(** What is printed for digits [ds] and point position [decpt] reads as
    the digits, possibly followed by zeros, times a power of ten: the number
    [digits_val ds * 10^(decpt - length ds)]. *)
Lemma float_of_str_format (sign : bool) (ds : str) (decpt : Z) :
  ds <> [] -> forallb isdecimal ds = true ->
  exists j,
    (0 <= j)%Z /\
    float_of_str (format_repr sign ds decpt)
    = Ok (of_decimal sign (digits_val ds * 10 ^ j)
                     (decpt - Z.of_nat (length ds) - j))%Z.
Proof.
  intros Hne Hds. unfold format_repr.
  destruct ((decpt <=? -4) || (16 <? decpt))%Z eqn:Eexp.
  - (* exponent notation *)
    destruct ds as [|d1 rest]; [congruence|].
    cbn [forallb] in Hds. apply andb_prop in Hds. destruct Hds as [Hd1 Hrest].
    cbn [firstn skipn].
    set (exp := (decpt - 1)%Z).
    destruct (dec_digits_spec (Z.abs exp) (Z.abs_nonneg _)) as (Hv & Hdec & Hnz).
    remember (dec_digits (Z.abs exp)) as xs eqn:Exs. clear Exs.
    set (pad := match xs with [_] => "0"%char :: xs | _ => xs end).
    assert (Hpad : digits_val pad = Z.abs exp /\ forallb isdecimal pad = true /\ pad <> []).
    { subst pad. destruct xs as [|x [|y xs']]; [congruence| |tauto].
      repeat split; [|exact Hdec|discriminate].
      rewrite <- Hv. exact (digits_val_zeros_left 1 [x]). }
    destruct Hpad as (Pv & Pd & Pn).
    exists 0%Z. split; [lia|].
    assert (Hexp : (if (exp <? 0)%Z then - Z.abs exp else Z.abs exp)%Z = exp).
    { destruct (exp <? 0)%Z eqn:E; [apply Z.ltb_lt in E|apply Z.ltb_ge in E]; lia. }
    destruct rest as [|d2 rest'].
    + match goal with
      | |- context [float_of_str ?t] =>
          replace t with (numeral sign [d1] None (Some ((exp <? 0)%Z, pad)))
            by (unfold numeral; reflexivity)
      end.
      rewrite float_of_str_numeral;
        [|discriminate|cbn; now rewrite Hd1|exact I|tauto].
      rewrite Pv, Hexp. f_equal. f_equal; [cbn [app]; lia|].
      cbn [length]. subst exp. lia.
    + match goal with
      | |- context [float_of_str ?t] =>
          replace t with (numeral sign [d1] (Some (d2 :: rest')) (Some ((exp <? 0)%Z, pad)))
            by (unfold numeral; reflexivity)
      end.
      rewrite float_of_str_numeral;
        [|discriminate|cbn; now rewrite Hd1|exact Hrest|tauto].
      rewrite Pv, Hexp. f_equal. f_equal; [cbn [app]; lia|].
      cbn [length]. subst exp. lia.
  - apply orb_false_elim in Eexp. destruct Eexp as [E1 E2].
    apply Z.leb_gt in E1. apply Z.ltb_ge in E2.
    destruct (decpt <=? 0)%Z eqn:E3; [apply Z.leb_le in E3|apply Z.leb_gt in E3].
    + (* 0.000ddd *)
      exists 0%Z. split; [lia|].
      match goal with
    | |- context [float_of_str ?t] =>
        replace t with (numeral sign (lit "0") (Some (repeat "0"%char (Z.to_nat (- decpt)) ++ ds)) None)
          by (unfold numeral; cbn [lit list_ascii_of_string app]; now rewrite app_nil_r)
    end.
      rewrite float_of_str_numeral; [|discriminate|reflexivity| |exact I].
      * f_equal. f_equal.
        -- change (lit "0" ++ repeat "0"%char (Z.to_nat (- decpt)) ++ ds)
             with (repeat "0"%char (S (Z.to_nat (- decpt))) ++ ds).
           rewrite digits_val_zeros_left. lia.
        -- rewrite length_app, repeat_length. lia.
      * rewrite forallb_app, Hds, andb_true_r.
        apply forallb_forall. intros a Ha. apply repeat_spec in Ha. now subst a.
    + destruct (decpt <? Z.of_nat (length ds))%Z eqn:E4;
        [apply Z.ltb_lt in E4|apply Z.ltb_ge in E4].
      * (* ddd.ddd *)
        exists 0%Z. split; [lia|].
        pose proof (firstn_skipn (Z.to_nat decpt) ds) as Hfs.
        assert (Hboth : forallb isdecimal (firstn (Z.to_nat decpt) ds) = true /\
                        forallb isdecimal (skipn (Z.to_nat decpt) ds) = true).
        { rewrite <- Hfs, forallb_app in Hds. now apply andb_prop in Hds. }
        match goal with
    | |- context [float_of_str ?t] =>
        replace t with (numeral sign (firstn (Z.to_nat decpt) ds)
                  (Some (skipn (Z.to_nat decpt) ds)) None)
          by (unfold numeral; now rewrite app_nil_r)
    end.
        rewrite float_of_str_numeral; [| |tauto|tauto|exact I].
        -- f_equal. f_equal; [rewrite Hfs; lia|]. rewrite length_skipn. lia.
        -- intros H. apply (f_equal (@length ascii)) in H.
           rewrite length_firstn in H. cbn in H. lia.
      * (* ddd000.0 *)
        exists (decpt - Z.of_nat (length ds) + 1)%Z. split; [lia|].
        match goal with
    | |- context [float_of_str ?t] =>
        replace t with (numeral sign
                  (ds ++ repeat "0"%char (Z.to_nat (decpt - Z.of_nat (length ds))))
                  (Some (lit "0")) None)
          by (unfold numeral; cbn [lit list_ascii_of_string];
              now rewrite app_nil_r, <- !app_assoc)
    end.
        rewrite float_of_str_numeral; [| | |reflexivity|exact I].
        -- f_equal. f_equal; [|cbn [length lit list_ascii_of_string]; lia].
           change (lit "0") with (repeat "0"%char 1).
           rewrite <- app_assoc, <- repeat_app, digits_val_zeros_right.
           f_equal. f_equal. lia.
        -- intros H. apply app_eq_nil in H. tauto.
        -- rewrite forallb_app, Hds. cbn [andb].
           apply forallb_forall. intros a Ha. apply repeat_spec in Ha. now subst a.
Qed.

(** ** Numbers that a binary64 value holds exactly *)

Lemma digits2_size (p : positive) : digits2_pos p = Pos.size p.
Proof. induction p as [p IH|p IH|]; cbn; now rewrite ?IH. Qed.

Lemma Zdigits2_log2 (z : Z) : (0 < z)%Z -> Zdigits2 z = (Z.log2 z + 1)%Z.
Proof.
  destruct z as [|p|p]; try lia. intros _. cbn [Zdigits2].
  rewrite digits2_size. destruct p; cbn; lia.
Qed.

Lemma Zdigits2_bounds (z : Z) :
  (0 < z)%Z -> (2 ^ (Zdigits2 z - 1) <= z < 2 ^ Zdigits2 z)%Z.
Proof.
  intros H. rewrite (Zdigits2_log2 z H).
  replace (Z.log2 z + 1 - 1)%Z with (Z.log2 z) by lia.
  replace (Z.log2 z + 1)%Z with (Z.succ (Z.log2 z)) by lia.
  now apply Z.log2_spec.
Qed.

Lemma Zdigits2_shift (m j : Z) :
  (0 < m)%Z -> (0 <= j)%Z -> Zdigits2 (m * 2 ^ j) = (Zdigits2 m + j)%Z.
Proof.
  intros Hm Hj.
  assert (Hp : (0 < m * 2 ^ j)%Z) by (apply Z.mul_pos_pos; [lia|apply Z.pow_pos_nonneg; lia]).
  rewrite (Zdigits2_log2 _ Hp), (Zdigits2_log2 _ Hm), Z.log2_mul_pow2 by lia. lia.
Qed.

Lemma bounded_canonical (m : positive) (e : Z) :
  bounded prec emax m e = true ->
  fexp prec emax (Zdigits2 (Zpos m) + e) = e /\ (e <= emax - prec)%Z.
Proof.
  unfold bounded, canonical_mantissa. intros H.
  apply andb_prop in H. destruct H as [H1 H2].
  apply Z.eqb_eq in H1. apply Z.leb_le in H2. now split.
Qed.

Lemma fexp_mono (a b : Z) : (a <= b)%Z -> (fexp prec emax a <= fexp prec emax b)%Z.
Proof. unfold fexp. lia. Qed.

Lemma shr_1_even (M : Z) :
  (0 < M)%Z ->
  shr_1 {| shr_m := 2 * M; shr_r := false; shr_s := false |}
  = {| shr_m := M; shr_r := false; shr_s := false |}.
Proof. destruct M as [|p|p]; try lia. reflexivity. Qed.

Lemma iter_pos_shr (p : positive) (M : Z) :
  (0 < M)%Z ->
  iter_pos shr_1 p {| shr_m := M * 2 ^ Zpos p; shr_r := false; shr_s := false |}
  = {| shr_m := M; shr_r := false; shr_s := false |}.
Proof.
  revert M. induction p as [p IH|p IH|]; intros M HM; cbn [iter_pos].
  - replace (M * 2 ^ Zpos p~1)%Z with (2 * ((M * 2 ^ Zpos p) * 2 ^ Zpos p))%Z.
    + assert (H1 : (0 < M * 2 ^ Zpos p)%Z)
        by (apply Z.mul_pos_pos; [lia|apply Z.pow_pos_nonneg; lia]).
      assert (H2 : (0 < M * 2 ^ Zpos p * 2 ^ Zpos p)%Z)
        by (apply Z.mul_pos_pos; [lia|apply Z.pow_pos_nonneg; lia]).
      rewrite (shr_1_even _ H2), (IH _ H1). now apply IH.
    + rewrite <- !Z.mul_assoc, <- Z.pow_add_r by lia.
      rewrite (Z.mul_comm 2), <- Z.mul_assoc. f_equal.
      rewrite Z.mul_comm, <- Z.pow_succ_r by lia. f_equal. lia.
  - replace (M * 2 ^ Zpos p~0)%Z with ((M * 2 ^ Zpos p) * 2 ^ Zpos p)%Z.
    + assert (H1 : (0 < M * 2 ^ Zpos p)%Z)
        by (apply Z.mul_pos_pos; [lia|apply Z.pow_pos_nonneg; lia]).
      rewrite (IH _ H1). now apply IH.
    + rewrite <- Z.mul_assoc, <- Z.pow_add_r by lia. f_equal. f_equal. lia.
  - rewrite Z.pow_1_r, Z.mul_comm. now apply shr_1_even.
Qed.

Lemma shr_fexp_exact (m : positive) (e j : Z) :
  bounded prec emax m e = true -> (0 <= j)%Z ->
  shr_fexp prec emax (Zpos m * 2 ^ j) (e - j) loc_Exact
  = ({| shr_m := Zpos m; shr_r := false; shr_s := false |}, e).
Proof.
  intros Hb Hj. destruct (bounded_canonical m e Hb) as [Hc _].
  unfold shr_fexp. rewrite Zdigits2_shift by lia.
  replace (Zdigits2 (Zpos m) + j + (e - j))%Z with (Zdigits2 (Zpos m) + e)%Z by lia.
  rewrite Hc. replace (e - (e - j))%Z with j by lia.
  cbn [shr_record_of_loc]. destruct j as [|p|p]; [| |lia].
  - cbn [shr]. rewrite Z.pow_0_r, Z.mul_1_r, Z.sub_0_r. reflexivity.
  - cbn [shr]. rewrite iter_pos_shr by lia. f_equal. lia.
Qed.

(** Rounding a number the format holds gives that number back. *)
Lemma round_exact (s : bool) (m : positive) (e j : Z) :
  bounded prec emax m e = true -> (0 <= j)%Z ->
  binary_round_aux prec emax s (Zpos m * 2 ^ j) (e - j) loc_Exact = S754_finite s m e.
Proof.
  intros Hb Hj. unfold binary_round_aux.
  rewrite (shr_fexp_exact m e j Hb Hj).
  cbn [shr_m loc_of_shr_record round_nearest_even].
  pose proof (shr_fexp_exact m e 0 Hb ltac:(lia)) as H0.
  rewrite Z.pow_0_r, Z.mul_1_r, Z.sub_0_r in H0. rewrite H0. cbn [shr_m].
  destruct (bounded_canonical m e Hb) as [_ Hle].
  apply Z.leb_le in Hle. now rewrite Hle.
Qed.

Lemma pos_iter_xO (q d : positive) :
  Zpos (Pos.iter xO q d) = (Zpos q * 2 ^ Zpos d)%Z.
Proof.
  induction d as [|d IH] using Pos.peano_ind.
  - cbn. lia.
  - rewrite Pos.iter_succ, Pos2Z.inj_xO, IH, Pos2Z.inj_succ, Z.pow_succ_r by lia. ring.
Qed.

Lemma div_eucl_exact (Q T : Z) : (0 < T)%Z -> Z.div_eucl (Q * T) T = (Q, 0%Z).
Proof.
  intros HT. pose proof (Z.div_mul Q T ltac:(lia)) as Hd.
  pose proof (Z.mod_mul Q T ltac:(lia)) as Hm.
  unfold Z.div, Z.modulo in Hd, Hm.
  destruct (Z.div_eucl (Q * T) T) as [q r]. cbn in Hd, Hm. now subst.
Qed.

Lemma new_location_exact (T : Z) : new_location T 0 = loc_Exact.
Proof.
  unfold new_location, new_location_even, new_location_odd.
  destruct (Z.even T); reflexivity.
Qed.

(** A decimal whose value a binary64 number holds exactly is read as that
    number. *)
Lemma of_decimal_exact (s : bool) (m : positive) (e D k : Z) :
  bounded prec emax m e = true -> (0 < D)%Z ->
  (D * 10 ^ Z.max k 0 * 2 ^ Z.max (- e) 0
   = Zpos m * 2 ^ Z.max e 0 * 10 ^ Z.max (- k) 0)%Z ->
  of_decimal s D k = S754_finite s m e.
Proof.
  intros Hb HD Heq. destruct (bounded_canonical m e Hb) as [Hc Hle].
  unfold of_decimal. destruct D as [|pD|pD]; try lia.
  destruct (0 <=? k)%Z eqn:Ek; [apply Z.leb_le in Ek|apply Z.leb_gt in Ek].
  - (* an integer *)
    rewrite Z.max_l, (Z.max_r (- k)), Z.pow_0_r, Z.mul_1_r in Heq by lia.
    set (N := (Zpos pD * 10 ^ k)%Z) in *.
    assert (HN : (0 < N)%Z)
      by (apply Z.mul_pos_pos; [lia|apply Z.pow_pos_nonneg; lia]).
    assert (Hnorm : binary_normalize prec emax
                      ((if s then - Zpos pD else Zpos pD) * 10 ^ k) 0 false
                    = binary_normalize prec emax (if s then - N else N) 0 false).
    { f_equal. subst N. destruct s; lia. }
    rewrite Hnorm. clear Hnorm.
    destruct N as [|q|q] eqn:EN; try lia.
    assert (Hround : binary_round prec emax s q 0 = S754_finite s m e).
    { unfold binary_round.
      change (Zpos (digits2_pos q)) with (Zdigits2 (Zpos q)).
      destruct (Z.le_gt_cases 0 e) as [He|He].
      - rewrite Z.max_r, Z.max_l, Z.pow_0_r, Z.mul_1_r in Heq by lia.
        rewrite Heq, Zdigits2_shift, Z.add_0_r, Hc by lia.
        unfold shl_align. rewrite Z.sub_0_r.
        destruct e as [|pe|pe]; try lia.
        + rewrite Z.pow_0_r, Z.mul_1_r in Heq.
          pose proof (round_exact s m 0 0 Hb ltac:(lia)) as R.
          rewrite Z.pow_0_r, Z.mul_1_r in R. now rewrite Heq.
        + pose proof (round_exact s m (Zpos pe) (Zpos pe) Hb ltac:(lia)) as R.
          rewrite Z.sub_diag in R. now rewrite Heq.
      - rewrite Z.max_l, Z.max_r, Z.pow_0_r, Z.mul_1_r in Heq by lia.
        assert (Hd : Zdigits2 (Zpos q) = (Zdigits2 (Zpos m) + e)%Z).
        { rewrite <- Heq, Zdigits2_shift by lia. lia. }
        rewrite Hd, Z.add_0_r, Hc. unfold shl_align. rewrite Z.sub_0_r.
        destruct e as [|pe|pe]; try lia.
        assert (Hm : Pos.iter xO q pe = m).
        { apply Pos2Z.inj. rewrite pos_iter_xO. exact Heq. }
        rewrite Hm.
        pose proof (round_exact s m (Zneg pe) 0 Hb ltac:(lia)) as R.
        now rewrite Z.pow_0_r, Z.mul_1_r, Z.sub_0_r in R. }
    destruct s; cbn [binary_normalize Z.opp]; exact Hround.
  - (* a fraction *)
    rewrite (Z.max_r k), Z.pow_0_r, Z.mul_1_r, (Z.max_l (- k)) in Heq by lia.
    set (T := (10 ^ (- k))%Z) in *.
    assert (HT : (0 < T)%Z) by (apply Z.pow_pos_nonneg; lia).
    unfold SFdiv_core_binary.
    set (d1 := Zdigits2 (Zpos pD)). set (d2 := Zdigits2 T).
    set (e' := Z.min (fexp prec emax (d1 + 0 - (d2 + 0))) (0 - 0)).
    assert (He'0 : (e' <= 0)%Z) by (subst e'; lia).
    assert (He'e : (e' <= e)%Z).
    { destruct (Z.le_gt_cases 0 e) as [He|He]; [lia|].
      rewrite Z.max_l, Z.max_r, Z.pow_0_r, Z.mul_1_r in Heq by lia.
      assert (Hdig : (d1 - d2 <= Zdigits2 (Zpos m) + e)%Z).
      { pose proof (Zdigits2_bounds (Zpos pD) ltac:(lia)) as [B1 _].
        pose proof (Zdigits2_bounds T HT) as [_ B2].
        pose proof (Zdigits2_bounds (Zpos m) ltac:(lia)) as [_ B3].
        fold d1 in B1. fold d2 in B2.
        assert (Hd1 : (0 < d1)%Z) by (subst d1; cbn; lia).
        assert (Hd2 : (0 <= d2)%Z).
        { subst d2. rewrite (Zdigits2_log2 T HT). pose proof (Z.log2_nonneg T). lia. }
        assert (Hdm : (0 < Zdigits2 (Zpos m))%Z) by (cbn; lia).
        assert (L : (2 ^ (d1 - 1 - e) < 2 ^ (Zdigits2 (Zpos m) + d2))%Z).
        { replace (d1 - 1 - e)%Z with ((d1 - 1) + (- e))%Z by lia.
          rewrite !Z.pow_add_r by lia.
          apply Z.le_lt_trans with (Zpos pD * 2 ^ (- e))%Z.
          - apply Z.mul_le_mono_nonneg_r; [apply Z.pow_nonneg; lia|exact B1].
          - rewrite Heq. apply Z.mul_lt_mono_nonneg; lia. }
        apply Z.pow_lt_mono_r_iff in L; lia. }
      subst e'. apply Z.le_trans with (fexp prec emax (d1 + 0 - (d2 + 0))); [lia|].
      rewrite <- Hc. apply fexp_mono. lia. }
    replace (0 - 0 - e')%Z with (- e')%Z by lia.
    set (m' := match (- e')%Z with
               | 0%Z => Zpos pD
               | Zpos _ => Z.shiftl (Zpos pD) (- e')
               | Zneg _ => 0%Z
               end).
    assert (Hm' : m' = (Zpos m * 2 ^ (e - e') * T)%Z).
    { assert (Hm0 : m' = (Zpos pD * 2 ^ (- e'))%Z).
      { subst m'. remember (- e')%Z as se eqn:Ese.
        destruct se as [|p|p]; [|now rewrite Z.shiftl_mul_pow2 by lia|lia].
        rewrite Z.pow_0_r. lia. }
      rewrite Hm0.
      destruct (Z.le_gt_cases 0 e) as [He|He].
      - rewrite Z.max_r, Z.max_l, Z.pow_0_r, Z.mul_1_r in Heq by lia.
        rewrite Heq. replace (e - e')%Z with (e + - e')%Z by lia.
        rewrite Z.pow_add_r by lia. ring.
      - rewrite Z.max_l, Z.max_r, Z.pow_0_r, Z.mul_1_r in Heq by lia.
        replace (- e')%Z with (- e + (e - e'))%Z by lia.
        rewrite Z.pow_add_r, Z.mul_assoc, Heq by lia. ring. }
    rewrite Hm', div_eucl_exact, new_location_exact by exact HT.
    pose proof (round_exact s m e (e - e') Hb ltac:(lia)) as R.
    replace (e - (e - e'))%Z with e' in R by lia. exact R.
Qed.

(** ** Floats read back from their text *)

Lemma float_eqb_eq (x y : float) : float_eqb x y = true -> x = y.
Proof.
  destruct x as [a|a| |a m e], y as [b|b| |b m' e']; cbn; try discriminate.
  - intros H. apply Bool.eqb_prop in H. now subst.
  - intros H. apply Bool.eqb_prop in H. now subst.
  - reflexivity.
  - intros H. apply andb_prop in H. destruct H as [H He].
    apply andb_prop in H. destruct H as [Hs Hm].
    apply Bool.eqb_prop in Hs. apply Pos.eqb_eq in Hm. apply Z.eqb_eq in He.
    now subst.
Qed.

Lemma exact_digits_read_back (s : bool) (m : positive) (e : Z) :
  bounded prec emax m e = true ->
  float_of_str (format_repr s (fst (exact_digits m e)) (snd (exact_digits m e)))
  = Ok (S754_finite s m e).
Proof.
  intros Hb. unfold exact_digits.
  set (D := if (0 <=? e)%Z then (Zpos m * 2 ^ e)%Z else (Zpos m * 5 ^ (- e))%Z).
  assert (HD : (0 < D)%Z).
  { subst D. destruct (0 <=? e)%Z eqn:E;
      [apply Z.leb_le in E|apply Z.leb_gt in E];
      (apply Z.mul_pos_pos; [lia|apply Z.pow_pos_nonneg; lia]). }
  destruct (dec_digits_spec D ltac:(lia)) as (Hv & Hdec & Hne).
  cbn [fst snd].
  destruct (float_of_str_format s (dec_digits D)
              (Z.of_nat (length (dec_digits D)) + Z.min e 0) Hne Hdec)
    as (j & Hj & ->).
  f_equal. rewrite Hv.
  replace (Z.of_nat (length (dec_digits D)) + Z.min e 0
           - Z.of_nat (length (dec_digits D)) - j)%Z with (Z.min e 0 - j)%Z by lia.
  apply of_decimal_exact; [exact Hb| |].
  - apply Z.mul_pos_pos; [lia|apply Z.pow_pos_nonneg; lia].
  - rewrite (Z.max_r (Z.min e 0 - j)), Z.pow_0_r, Z.mul_1_r by lia.
    rewrite (Z.max_l (- (Z.min e 0 - j))) by lia.
    subst D. destruct (0 <=? e)%Z eqn:E;
      [apply Z.leb_le in E|apply Z.leb_gt in E].
    + rewrite (Z.max_r (- e)), (Z.max_l e), Z.pow_0_r, Z.mul_1_r by lia.
      replace (- (Z.min e 0 - j))%Z with j by lia. ring.
    + rewrite (Z.max_l (- e)), (Z.max_r e), Z.pow_0_r, Z.mul_1_r by lia.
      replace (- (Z.min e 0 - j))%Z with (j + - e)%Z by lia.
      rewrite Z.pow_add_r by lia.
      assert (H10 : (10 ^ (- e) = 2 ^ (- e) * 5 ^ (- e))%Z)
        by (change 10%Z with (2 * 5)%Z; apply Z.pow_mul_l).
      rewrite H10. ring.
Qed.

(** A float that is a number is read back from its text as itself. *)
Lemma float_repr_reads_back (x : float) :
  valid_binary prec emax x = true -> x <> S754_nan ->
  float_of_str (float_repr x) = Ok x.
Proof.
  intros Hv Hn. destruct x as [s|s| |s m e].
  - destruct s; vm_compute; reflexivity.
  - destruct s; vm_compute; reflexivity.
  - congruence.
  - cbn [valid_binary] in Hv. cbn [float_repr]. unfold shortest_digits.
    destruct (ratio m e) as [num den].
    destruct (find _ _) as [c|] eqn:F.
    + apply find_some in F. destruct F as [_ F]. unfold reads_back in F.
      destruct (float_of_str (format_repr s (fst c) (snd c))) as [y|]; [|discriminate].
      apply float_eqb_eq in F. now subst.
    + now apply exact_digits_read_back.
Qed.

Lemma SFeqb_refl (x : float) : x <> S754_nan -> SFeqb x x = true.
Proof.
  intros Hn. destruct x as [s|s| |s m e]; try congruence;
    unfold SFeqb; cbn [SFcompare]; try (destruct s; reflexivity).
  rewrite Z.compare_refl.
  change (Pos.compare_cont Eq m m) with (Pos.compare m m).
  rewrite Pos.compare_refl. destruct s; reflexivity.
Qed.

(** ** The report read back *)

(** C9: what the report builder writes is read back row by row:
    the header section is the label row and then the seven fields in the
    order ID, vendor, invoice number, date, GST number, tax amount, total
    amount, followed by the empty separator row; an absent value is an empty
    cell, a text is read back as the same text, and an amount (a number,
    so not NaN) is read back as a text that converts to the same number. *)
Theorem report_header_round_trip (inv : ParsedInvoice) :
  read_csv (generate_csv_string inv) = map (map cell_text) (report_rows inv) /\
  firstn 9 (read_csv (generate_csv_string inv))
  = [[lit "--- INVOICE HEADER DETAILS ---"];
     [lit "Invoice ID"; invoice_id inv];
     [lit "Vendor Name"; cell_text (opt_str (vendor_name inv))];
     [lit "Invoice Number"; cell_text (opt_str (invoice_number inv))];
     [lit "Date"; cell_text (opt_str (date inv))];
     [lit "GST Number"; cell_text (opt_str (gst_number inv))];
     [lit "Tax Amount"; cell_text (opt_float (tax_amount inv))];
     [lit "Total Amount"; cell_text (opt_float (total_amount inv))];
     []] /\
  cell_text (opt_str None) = [] /\ cell_text (opt_float None) = [] /\
  (forall s, cell_text (opt_str (Some s)) = s) /\
  (forall f, valid_binary prec emax f = true -> f <> S754_nan ->
             float_of_str (cell_text (opt_float (Some f))) = Ok f /\
             SFeqb f f = true).
Proof.
  assert (H : read_csv (generate_csv_string inv)
              = map (map cell_text) (report_rows inv))
    by apply read_csv_written.
  split; [exact H|]. split; [rewrite H; reflexivity|].
  repeat split; trivial.
  - now apply float_repr_reads_back.
  - now apply SFeqb_refl.
Qed.

Lemma report_header_round_trip_witness :
  float_of_str (cell_text (opt_float (Some (S754_finite false 7740561859543040 (-43)))))
  = Ok (S754_finite false 7740561859543040 (-43)) /\
  SFeqb (S754_finite false 7740561859543040 (-43))
        (S754_finite false 7740561859543040 (-43)) = true.
Proof.
  refine (proj2 (proj2 (proj2 (proj2 (proj2
            (report_header_round_trip
               {| invoice_id := lit "id"; vendor_name := None; invoice_number := None;
                  date := None;
                  total_amount := Some (S754_finite false 7740561859543040 (-43));
                  tax_amount := None; gst_number := None; line_items := [];
                  raw_text := [] |})))))
            (S754_finite false 7740561859543040 (-43)) _ _).
  - vm_compute. reflexivity.
  - discriminate.
Defined.

(** The texts of some amounts, and the report of a small invoice. *)
Example float_repr_880 :
  float_repr (S754_finite false 7740561859543040 (-43)) = lit "880.0".
Proof. vm_compute. reflexivity. Qed.

Example float_repr_tenth :
  float_repr (S754_finite false 7205759403792794 (-56)) = lit "0.1".
Proof. vm_compute. reflexivity. Qed.

Example float_repr_1e16 :
  float_repr (S754_finite false 5000000000000000 1) = lit "1e+16".
Proof. vm_compute. reflexivity. Qed.

Example report_of_small_invoice :
  generate_csv_string
    {| invoice_id := lit "id-1"; vendor_name := Some (lit "S.K.P.S DIGITAL");
       invoice_number := Some (lit "45678"); date := None;
       total_amount := Some (S754_finite false 7740561859543040 (-43));
       tax_amount := None; gst_number := Some (lit "a,b");
       line_items := [{| quantity := Some one; description := lit "ITEM NAME 1";
                         unit_price := None; line_total := None |}];
       raw_text := [] |}
  = join [cr; newline]
      [lit "--- INVOICE HEADER DETAILS ---"; lit "Invoice ID,id-1";
       lit "Vendor Name,S.K.P.S DIGITAL"; lit "Invoice Number,45678"; lit "Date,";
       lit "GST Number," ++ [dquote] ++ lit "a,b" ++ [dquote]; lit "Tax Amount,";
       lit "Total Amount,880.0"; []; lit "--- LINE ITEMS ---";
       lit "Description,Quantity,Unit Price,Line Total"; lit "ITEM NAME 1,1.0,,"; []].
Proof. vm_compute. reflexivity. Qed.

(** ** The database *)

Lemma str_eqb_refl (a : str) : str_eqb a a = true.
Proof. unfold str_eqb. destruct (list_eq_dec ascii_dec a a); congruence. Qed.

Lemma str_eqb_neq (a b : str) : a <> b -> str_eqb a b = false.
Proof. intros H. unfold str_eqb. destruct (list_eq_dec ascii_dec a b); congruence. Qed.

Lemma db_get_set (k k' : str) (v : ParsedInvoice) (d : database) :
  db_get k (db_set k' v d) = if str_eqb k' k then Some v else db_get k d.
Proof.
  induction d as [|[k0 v0] d IH]; cbn.
  - reflexivity.
  - destruct (str_eqb k0 k') eqn:E; cbn.
    + apply str_eqb_eq in E. subst k0. destruct (str_eqb k' k); reflexivity.
    + rewrite IH. destruct (str_eqb k0 k) eqn:E0; [|reflexivity].
      destruct (str_eqb k' k) eqn:E1; [|reflexivity].
      apply str_eqb_eq in E0. apply str_eqb_eq in E1. subst k0 k'.
      rewrite str_eqb_refl in E. discriminate.
Qed.

Lemma dropwhile_all (p : ascii -> bool) (s : str) :
  forallb p s = true -> dropwhile p s = [].
Proof.
  induction s as [|a s IH]; cbn; [reflexivity|].
  intros H. apply andb_prop in H. destruct H as [Ha Hs]. rewrite Ha. exact (IH Hs).
Qed.

Lemma strip_blank (s : str) : forallb isspace s = true -> strip s = [].
Proof. intros H. unfold strip. rewrite (dropwhile_all _ _ H). reflexivity. Qed.

(** ** The endpoints *)

Section ServiceProperties.

Variable Image : Type.
Variable preprocess_image : str -> outcome Image.
Variable image_to_string : Image -> outcome str.
Variable HAS_OCR_DEPS : bool.

Local Abbreviation upload :=
  (upload_invoice preprocess_image image_to_string HAS_OCR_DEPS).
Local Abbreviation body :=
  (upload_body preprocess_image image_to_string HAS_OCR_DEPS).
Local Abbreviation ocr :=
  (extract_text_tesseract image_to_string HAS_OCR_DEPS).

Lemma upload_body_loaded (file_bytes : str) (ids : nat -> str) (n : nat) (db : database)
  (img : Image) (raw : str) :
  preprocess_image file_bytes = Returns img -> ocr img = Returns raw -> strip raw <> [] ->
  body file_bytes {| state := loaded ids n; MOCK_DATABASE := db |}
  = (Returns (parsed (loaded ids n) raw line_item_re (ids n)),
     {| state := loaded ids (S n);
        MOCK_DATABASE := db_set (ids n) (parsed (loaded ids n) raw line_item_re (ids n)) db |}).
Proof.
  intros Hp Ho Hs. unfold upload_body. rewrite Hp. rewrite Ho.
  destruct (strip raw) as [|a t] eqn:E; [congruence|].
  cbn [state MOCK_DATABASE]. rewrite parse_invoice_data_loaded. reflexivity.
Qed.

Lemma upload_body_cases (file_bytes : str) (ids : nat -> str) (n : nat) (db : database) :
  (exists e, body file_bytes {| state := loaded ids n; MOCK_DATABASE := db |}
             = (Raises e, {| state := loaded ids n; MOCK_DATABASE := db |}) /\
             (e = HTTPException 500 \/ preprocess_image file_bytes = Raises e \/
              exists img, preprocess_image file_bytes = Returns img /\ ocr img = Raises e))
  \/
  (exists img raw, preprocess_image file_bytes = Returns img /\ ocr img = Returns raw /\
     strip raw <> [] /\
     body file_bytes {| state := loaded ids n; MOCK_DATABASE := db |}
     = (Returns (parsed (loaded ids n) raw line_item_re (ids n)),
        {| state := loaded ids (S n);
           MOCK_DATABASE := db_set (ids n) (parsed (loaded ids n) raw line_item_re (ids n))
                              db |})).
Proof.
  destruct (preprocess_image file_bytes) as [img|e] eqn:Hp.
  - destruct (ocr img) as [raw|e] eqn:Ho.
    + destruct (strip raw) as [|a t] eqn:Hs.
      * left. exists (HTTPException 500). split; [|left; reflexivity].
        unfold upload_body. rewrite Hp. rewrite Ho, Hs. reflexivity.
      * right. exists img, raw.
        split; [congruence|]. split; [congruence|]. split; [congruence|].
        apply (upload_body_loaded file_bytes ids n db img raw); congruence.
    + left. exists e. split; [|right; right; exists img; split; congruence].
      unfold upload_body. rewrite Hp. rewrite Ho. reflexivity.
  - left. exists e. split; [|right; left; congruence].
    unfold upload_body. rewrite Hp. reflexivity.
Qed.

Lemma ocr_raises (img : Image) (e : raised) : ocr img = Raises e -> e = RuntimeError.
Proof.
  unfold extract_text_tesseract. destruct (negb HAS_OCR_DEPS); [discriminate|].
  destruct (image_to_string img); congruence.
Qed.

Lemma handler_status_cases (e : raised) :
  handler_status e = 422 \/ handler_status e = 500.
Proof. destruct e as [[]| | |]; cbn; auto. Qed.

(** X1: an upload that is answered with an error stores nothing and draws
    no identifier; the error is 400, 422 or 500. *)
Theorem failed_upload_changes_nothing (content_type : option string) (file_bytes : str)
  (ids : nat -> str) (n : nat) (db : database) (status : nat) (sv' : server) :
  upload content_type file_bytes {| state := loaded ids n; MOCK_DATABASE := db |}
  = (Failure status, sv') ->
  sv' = {| state := loaded ids n; MOCK_DATABASE := db |} /\
  (status = 400 \/ status = 422 \/ status = 500).
Proof.
  unfold upload_invoice. destruct (not_accepted content_type).
  - intros H. inversion H. auto.
  - destruct (upload_body_cases file_bytes ids n db)
      as [[e [E _]]|[img [raw [_ [_ [_ E]]]]]]; rewrite E; [|discriminate].
    intros H. inversion H. split; [reflexivity|].
    destruct (handler_status_cases e); auto.
Qed.

(** X2: an accepted upload whose text is not blank is answered with the
    parsed invoice, stored under its identifier, and the download of that
    identifier is the report of that invoice. *)
Theorem upload_then_download (content_type : option string) (file_bytes : str)
  (ids : nat -> str) (n : nat) (db : database) (img : Image) (raw : str) :
  not_accepted content_type = false ->
  preprocess_image file_bytes = Returns img -> ocr img = Returns raw -> strip raw <> [] ->
  exists inv sv',
    upload content_type file_bytes {| state := loaded ids n; MOCK_DATABASE := db |}
    = (Success inv, sv') /\
    fst (parse_invoice_data raw (loaded ids n)) = Ok inv /\
    invoice_id inv = ids n /\ state sv' = loaded ids (S n) /\
    download_csv (ids n) sv'
    = Success {| content := generate_csv_string inv;
                 media_type := lit "text/csv";
                 content_disposition :=
                   lit "attachment; filename=invoice_data_" ++ ids n ++ lit ".csv" |}.
Proof.
  intros Ha Hp Ho Hs.
  exists (parsed (loaded ids n) raw line_item_re (ids n)). eexists.
  unfold upload_invoice. rewrite Ha.
  rewrite (upload_body_loaded file_bytes ids n db img raw Hp Ho Hs).
  split; [reflexivity|]. rewrite parse_invoice_data_loaded.
  repeat split. unfold download_csv. cbn [MOCK_DATABASE].
  rewrite db_get_set, str_eqb_refl. reflexivity.
Qed.

(** X3: an upload leaves every invoice stored under another identifier as
    it was. *)
Theorem upload_keeps_other_invoices (content_type : option string) (file_bytes : str)
  (ids : nat -> str) (n : nat) (db : database) (id : str) :
  id <> ids n ->
  download_csv id (snd (upload content_type file_bytes
                          {| state := loaded ids n; MOCK_DATABASE := db |}))
  = download_csv id {| state := loaded ids n; MOCK_DATABASE := db |}.
Proof.
  intros Hid. unfold upload_invoice. destruct (not_accepted content_type).
  - reflexivity.
  - destruct (upload_body_cases file_bytes ids n db)
      as [[e [E _]]|[img [raw [_ [_ [_ E]]]]]]; rewrite E; [reflexivity|].
    unfold download_csv. cbn [snd MOCK_DATABASE]. rewrite db_get_set.
    rewrite str_eqb_neq by congruence. reflexivity.
Qed.

(** X4: a failure of the OCR engine is answered with 500 whatever the engine
    raised, a [ValueError] included; the same exception raised while the
    image is decoded is answered with 422. *)
Theorem ocr_failure_is_500 (content_type : option string) (file_bytes : str)
  (sv : server) (img : Image) (e : raised) :
  not_accepted content_type = false -> HAS_OCR_DEPS = true ->
  (preprocess_image file_bytes = Returns img -> image_to_string img = Raises e ->
   upload content_type file_bytes sv = (Failure 500, sv)) /\
  (preprocess_image file_bytes = Raises (Builtin ValueError) ->
   upload content_type file_bytes sv = (Failure 422, sv)).
Proof.
  intros Ha Hd. unfold upload_invoice, upload_body, extract_text_tesseract.
  rewrite Ha, Hd. split.
  - intros Hp He. rewrite Hp. cbn. rewrite He. reflexivity.
  - intros Hp. rewrite Hp. reflexivity.
Qed.

(** X5: text that is empty or all whitespace is answered with 500; the
    parser is not run, so nothing is stored and no identifier is drawn. *)
Theorem blank_text_is_500 (content_type : option string) (file_bytes : str)
  (sv : server) (img : Image) (raw : str) :
  not_accepted content_type = false ->
  preprocess_image file_bytes = Returns img -> ocr img = Returns raw ->
  forallb isspace raw = true ->
  upload content_type file_bytes sv = (Failure 500, sv).
Proof.
  intros Ha Hp Ho Hs. unfold upload_invoice, upload_body. rewrite Ha, Hp.
  rewrite Ho, (strip_blank raw Hs). reflexivity.
Qed.

Lemma handle_inv (ids : nat -> str) (sv : server) (rq : request) :
  service_inv ids sv ->
  service_inv ids (handle preprocess_image image_to_string HAS_OCR_DEPS sv rq).
Proof.
  intros [n [Hst Hdb]]. destruct rq as [ct bytes|id]; [|exists n; auto].
  destruct sv as [w db]. cbn [state MOCK_DATABASE] in *. subst w.
  unfold handle, upload_invoice. destruct (not_accepted ct); [exists n; auto|].
  destruct (upload_body_cases bytes ids n db)
    as [[e [E _]]|[img [raw [_ [_ [Hs E]]]]]]; rewrite E; cbn [snd]; [exists n; auto|].
  exists (S n). split; [reflexivity|]. cbn [MOCK_DATABASE]. intros id inv.
  rewrite db_get_set. destruct (str_eqb (ids n) id) eqn:Eid.
  - intros H. inversion H. apply str_eqb_eq in Eid. exists n, raw. auto.
  - intros H. destruct (Hdb id inv H) as [k [raw' [Hk H']]]. exists k, raw'.
    split; [lia|exact H'].
Qed.

Lemma serve_inv (ids : nat -> str) (rqs : list request) (sv : server) :
  service_inv ids sv ->
  service_inv ids (serve preprocess_image image_to_string HAS_OCR_DEPS rqs sv).
Proof.
  revert sv. induction rqs as [|rq rqs IH]; intros sv H; [exact H|].
  cbn. apply IH. apply handle_inv. exact H.
Qed.

Lemma started_inv (ids : nat -> str) : service_inv ids (started ids).
Proof. exists 0. split; [reflexivity|]. cbn. discriminate. Qed.

(** X6: after any run of requests, the download of an identifier that was
    never drawn is answered with 404. *)
Theorem download_of_unissued_id_is_404 (ids : nat -> str) (rqs : list request) (id : str) :
  let sv := serve preprocess_image image_to_string HAS_OCR_DEPS rqs (started ids) in
  ~ issued (state sv) id -> download_csv id sv = Failure 404.
Proof.
  intros sv Hn. destruct (serve_inv ids rqs _ (started_inv ids)) as [n [Hst Hdb]].
  fold sv in Hst, Hdb. unfold download_csv.
  destruct (db_get id (MOCK_DATABASE sv)) as [inv|] eqn:E; [|reflexivity].
  exfalso. apply Hn. destruct (Hdb id inv E) as [k [raw [Hk [Hid _]]]].
  exists k. rewrite Hst. cbn. auto.
Qed.

(** X7: after any run of requests, a download that succeeds returns the
    report of an invoice parsed from a text that was not blank, and the
    invoice carries the identifier asked for. *)
Theorem download_returns_a_parsed_invoice (ids : nat -> str) (rqs : list request)
  (id : str) (r : csv_response) :
  download_csv id (serve preprocess_image image_to_string HAS_OCR_DEPS rqs (started ids))
  = Success r ->
  exists raw inv k,
    strip raw <> [] /\ fst (parse_invoice_data raw (loaded ids k)) = Ok inv /\
    invoice_id inv = id /\ content r = generate_csv_string inv.
Proof.
  intros H. destruct (serve_inv ids rqs _ (started_inv ids)) as [n [Hst Hdb]].
  unfold download_csv in H.
  destruct (db_get id (MOCK_DATABASE _)) as [inv|] eqn:E; [|discriminate].
  destruct (Hdb id inv E) as [k [raw [Hk [Hid [Hs Hinv]]]]].
  exists raw, inv, k. rewrite parse_invoice_data_loaded. inversion H. subst inv id.
  repeat split; assumption.
Qed.

(** X8: without the OCR libraries every accepted upload is answered with
    the invoice parsed from the placeholder text, whatever the file holds:
    number 45678, no date, no vendor name, total 1.0 and no line items. *)
Theorem mock_mode_upload (content_type : option string) (file_bytes : str)
  (ids : nat -> str) (n : nat) (db : database) (img : Image) :
  not_accepted content_type = false -> HAS_OCR_DEPS = false ->
  preprocess_image file_bytes = Returns img ->
  exists inv sv',
    upload content_type file_bytes {| state := loaded ids n; MOCK_DATABASE := db |}
    = (Success inv, sv') /\
    invoice_id inv = ids n /\ raw_text inv = placeholder_text /\
    vendor_name inv = None /\ invoice_number inv = Some (lit "45678") /\
    date inv = None /\ gst_number inv = Some (lit "22AAAAA0000A1Z5") /\
    total_amount inv = Some one /\ tax_amount inv = None /\ line_items inv = [].
Proof.
  intros Ha Hd Hp.
  assert (Ho : ocr img = Returns placeholder_text).
  { unfold extract_text_tesseract. rewrite Hd. reflexivity. }
  assert (Hs : strip placeholder_text <> []) by (vm_compute; discriminate).
  exists (parsed (loaded ids n) placeholder_text line_item_re (ids n)). eexists.
  unfold upload_invoice. rewrite Ha.
  rewrite (upload_body_loaded file_bytes ids n db img placeholder_text Hp Ho Hs).
  split; [reflexivity|]. split; [reflexivity|]. split; [reflexivity|].
  repeat split; vm_compute; reflexivity.
Qed.

End ServiceProperties.

Lemma failed_upload_changes_nothing_witness :
  {| state := loaded (fun _ => lit "id") 0; MOCK_DATABASE := [] |}
  = {| state := loaded (fun _ => lit "id") 0; MOCK_DATABASE := [] |} /\
  (400 = 400 \/ 400 = 422 \/ 400 = 500).
Proof.
  exact (failed_upload_changes_nothing unit (fun _ => Returns tt)
           (fun _ => Returns (lit "Bill: 7")) true (Some "text/plain"%string) []
           (fun _ => lit "id") 0 [] 400 _ eq_refl).
Defined.

Lemma upload_then_download_witness :
  exists inv sv',
    upload_invoice (fun _ => Returns tt) (fun _ => Returns (lit "Bill: 7")) true
      (Some "image/png"%string) []
      {| state := loaded (fun _ => lit "id") 0; MOCK_DATABASE := [] |}
    = (Success inv, sv') /\
    fst (parse_invoice_data (lit "Bill: 7") (loaded (fun _ => lit "id") 0)) = Ok inv /\
    invoice_id inv = lit "id" /\ state sv' = loaded (fun _ => lit "id") 1 /\
    download_csv (lit "id") sv'
    = Success {| content := generate_csv_string inv;
                 media_type := lit "text/csv";
                 content_disposition :=
                   lit "attachment; filename=invoice_data_" ++ lit "id" ++ lit ".csv" |}.
Proof.
  assert (Hs : strip (lit "Bill: 7") <> []) by (vm_compute; discriminate).
  exact (upload_then_download unit (fun _ => Returns tt)
           (fun _ => Returns (lit "Bill: 7")) true (Some "image/png"%string) []
           (fun _ => lit "id") 0 [] tt (lit "Bill: 7") eq_refl eq_refl eq_refl Hs).
Defined.

Lemma upload_keeps_other_invoices_witness :
  download_csv (lit "other")
    (snd (upload_invoice (fun _ => Returns tt) (fun _ => Returns (lit "Bill: 7")) true
            (Some "image/png"%string) []
            {| state := loaded (fun _ => lit "id") 0; MOCK_DATABASE := [] |}))
  = download_csv (lit "other")
      {| state := loaded (fun _ => lit "id") 0; MOCK_DATABASE := [] |}.
Proof.
  assert (Hn : lit "other" <> lit "id") by (vm_compute; discriminate).
  exact (upload_keeps_other_invoices unit (fun _ => Returns tt)
           (fun _ => Returns (lit "Bill: 7")) true (Some "image/png"%string) []
           (fun _ => lit "id") 0 [] (lit "other") Hn).
Defined.

Lemma ocr_failure_is_500_witness :
  let sv := {| state := loaded (fun _ => lit "id") 0; MOCK_DATABASE := [] |} in
  upload_invoice (fun _ => Returns tt) (fun _ => Raises (Builtin ValueError)) true
    (Some "image/png"%string) [] sv = (Failure 500, sv).
Proof.
  exact (proj1 (ocr_failure_is_500 unit (fun _ => Returns tt)
                  (fun _ => Raises (Builtin ValueError)) true (Some "image/png"%string) []
                  {| state := loaded (fun _ => lit "id") 0; MOCK_DATABASE := [] |}
                  tt (Builtin ValueError) eq_refl eq_refl) eq_refl eq_refl).
Defined.

Lemma blank_text_is_500_witness :
  let sv := {| state := loaded (fun _ => lit "id") 0; MOCK_DATABASE := [] |} in
  upload_invoice (fun _ => Returns tt) (fun _ => Returns [" "%char; newline]) true
    (Some "image/png"%string) [] sv = (Failure 500, sv).
Proof.
  exact (blank_text_is_500 unit (fun _ => Returns tt)
           (fun _ => Returns [" "%char; newline]) true (Some "image/png"%string) []
           {| state := loaded (fun _ => lit "id") 0; MOCK_DATABASE := [] |}
           tt [" "%char; newline] eq_refl eq_refl eq_refl eq_refl).
Defined.

Lemma download_of_unissued_id_is_404_witness :
  download_csv (lit "id-9")
    (serve (fun _ => Returns tt) (fun _ => Returns (lit "Bill: 7")) true
       [Upload (Some "image/png"%string) []] (started (fun _ => lit "id-0")))
  = Failure 404.
Proof.
  refine (download_of_unissued_id_is_404 unit (fun _ => Returns tt)
            (fun _ => Returns (lit "Bill: 7")) true (fun _ => lit "id-0")
            [Upload (Some "image/png"%string) []] (lit "id-9") _).
  intros [k [_ H]]. vm_compute in H. discriminate H.
Defined.

Lemma download_returns_a_parsed_invoice_witness :
  exists raw inv k,
    strip raw <> [] /\
    fst (parse_invoice_data raw (loaded (fun _ => lit "id-0") k)) = Ok inv /\
    invoice_id inv = lit "id-0" /\
    lit "--- INVOICE HEADER DETAILS ---" ++ [cr; newline] ++ lit "Invoice ID,id-0"
    ++ [cr; newline] ++ lit "Vendor Name," ++ [cr; newline] ++ lit "Invoice Number,7"
    ++ [cr; newline] ++ lit "Date," ++ [cr; newline] ++ lit "GST Number,"
    ++ [cr; newline] ++ lit "Tax Amount," ++ [cr; newline] ++ lit "Total Amount,"
    ++ [cr; newline] ++ [cr; newline] ++ lit "--- LINE ITEMS ---" ++ [cr; newline]
    ++ lit "Description,Quantity,Unit Price,Line Total" ++ [cr; newline]
    = generate_csv_string inv.
Proof.
  exact (download_returns_a_parsed_invoice unit (fun _ => Returns tt)
           (fun _ => Returns (lit "Bill: 7")) true (fun _ => lit "id-0")
           [Upload (Some "image/png"%string) []] (lit "id-0")
           {| content := _; media_type := _; content_disposition := _ |} eq_refl).
Defined.

Lemma mock_mode_upload_witness :
  exists inv sv',
    upload_invoice (fun _ => Returns tt) (fun _ => Raises OtherException) false
      (Some "application/pdf"%string) (lit "%PDF")
      {| state := loaded (fun _ => lit "id") 0; MOCK_DATABASE := [] |}
    = (Success inv, sv') /\
    invoice_id inv = lit "id" /\ raw_text inv = placeholder_text /\
    vendor_name inv = None /\ invoice_number inv = Some (lit "45678") /\
    date inv = None /\ gst_number inv = Some (lit "22AAAAA0000A1Z5") /\
    total_amount inv = Some one /\ tax_amount inv = None /\ line_items inv = [].
Proof.
  exact (mock_mode_upload unit (fun _ => Returns tt) (fun _ => Raises OtherException)
           false (Some "application/pdf"%string) (lit "%PDF") (fun _ => lit "id") 0 []
           tt eq_refl eq_refl eq_refl).
Defined.

(** ** Numeric cleaning, further *)

Lemma removed_mem (c : ascii) :
  re.mem re.no_flags currency_set c || chr_eqb c "," = removed_chr c.
Proof. destruct c as [[] [] [] [] [] [] [] []]; reflexivity. Qed.

Lemma remove_sub_app (a b : str) :
  remove_chr "," (re.sub re.no_flags currency_set [] (a ++ b))
  = remove_chr "," (re.sub re.no_flags currency_set [] a)
    ++ remove_chr "," (re.sub re.no_flags currency_set [] b).
Proof.
  unfold re.sub, remove_chr. rewrite flat_map_app, filter_app. reflexivity.
Qed.

Lemma remove_sub_removed (c : ascii) :
  removed_chr c = true ->
  remove_chr "," (re.sub re.no_flags currency_set [] [c]) = [].
Proof. destruct c as [[] [] [] [] [] [] [] []]; cbn; intros H; try discriminate H; reflexivity. Qed.

Lemma remove_sub_insert (a b : str) (c : ascii) :
  removed_chr c = true ->
  remove_chr "," (re.sub re.no_flags currency_set [] (a ++ c :: b))
  = remove_chr "," (re.sub re.no_flags currency_set [] (a ++ b)).
Proof.
  intros H. change (c :: b) with ([c] ++ b).
  rewrite !remove_sub_app, (remove_sub_removed c H). reflexivity.
Qed.

Lemma remove_sub_nil (v : str) :
  v = [] -> float_of_str (strip (remove_chr "," (re.sub re.no_flags currency_set [] v)))
            = Raise ValueError.
Proof. intros ->. reflexivity. Qed.

(** X9: a currency sign, a comma or a parenthesis anywhere in the text does
    not change what [parse_float] returns. *)
Theorem parse_float_ignores_symbols (a b : str) (c : ascii) :
  removed_chr c = true -> parse_float (a ++ c :: b) = parse_float (a ++ b).
Proof.
  intros H. unfold parse_float.
  destruct (a ++ c :: b) as [|x t] eqn:E1; [destruct a; discriminate|]. rewrite <- E1.
  rewrite (remove_sub_insert a b c H).
  destruct (a ++ b) as [|y u] eqn:E2; [|reflexivity].
  reflexivity.
Qed.

Lemma parse_float_ignores_symbols_witness :
  parse_float (lit "1" ++ ","%char :: lit "234") = parse_float (lit "1" ++ lit "234").
Proof. exact (parse_float_ignores_symbols (lit "1") (lit "234") ","%char eq_refl). Defined.

Lemma decimal_not_removed (a : ascii) :
  numchr a = true ->
  re.mem re.no_flags currency_set a = false /\ chr_eqb a "," = false /\ isspace a = false.
Proof.
  destruct a as [[] [] [] [] [] [] [] []]; cbn; intros H; try discriminate H;
    repeat split; reflexivity.
Qed.

Lemma sub_none (s : str) :
  (forall a, In a s -> re.mem re.no_flags currency_set a = false) ->
  re.sub re.no_flags currency_set [] s = s.
Proof.
  induction s as [|a s IH]; intros H; [reflexivity|].
  unfold re.sub in *. cbn [flat_map]. rewrite (H a (or_introl eq_refl)).
  cbn [app]. f_equal. apply IH. intros b Hb. apply H. now right.
Qed.

(** Cleaning leaves a text of numeral characters as it is. *)
Lemma clean_numeral (s : str) :
  (forall a, In a s -> numchr a = true) ->
  strip (remove_chr "," (re.sub re.no_flags currency_set [] s)) = s.
Proof.
  intros H. rewrite sub_none, remove_chr_none, strip_nospace; try reflexivity;
    intros a Ha; apply (decimal_not_removed a (H a Ha)).
Qed.

Lemma parse_float_numeral (s : str) (f : float) :
  (forall a, In a s -> numchr a = true) -> float_of_str s = Ok f ->
  parse_float s = Ok (Some f).
Proof.
  intros H E. unfold parse_float. destruct s as [|a t] eqn:Es; [discriminate E|].
  rewrite <- Es in *. rewrite (clean_numeral s H), E. reflexivity.
Qed.

(** The binary64 value of an integer below 2^53. *)
Lemma of_decimal_small (n : Z) :
  (0 < n < 2 ^ 53)%Z ->
  exists m e, (e <= 0)%Z /\ (Zpos m = n * 2 ^ (- e))%Z /\
              of_decimal false n 0 = S754_finite false m e.
Proof.
  intros Hn.
  pose proof (Zdigits2_bounds n (proj1 Hn)) as Hd.
  remember (Zdigits2 n) as d eqn:Ed.
  assert (Hd1 : (1 <= d <= 53)%Z).
  { split.
    - destruct (Z_lt_le_dec d 1) as [C|C]; [|exact C]. exfalso.
      assert (2 ^ d <= 2 ^ 0)%Z by (destruct (Z_lt_le_dec d 0);
        [rewrite Z.pow_neg_r by lia; cbn; lia | apply Z.pow_le_mono_r; lia]).
      cbn in H. lia.
    - destruct (Z_lt_le_dec 53 d) as [C|C]; [|exact C]. exfalso.
      assert (2 ^ 53 <= 2 ^ (d - 1))%Z by (apply Z.pow_le_mono_r; lia). lia. }
  remember (d - 53)%Z as e eqn:Ee.
  assert (Hm : (0 < n * 2 ^ (- e))%Z) by (apply Z.mul_pos_pos; [lia|apply Z.pow_pos_nonneg; lia]).
  exists (Z.to_pos (n * 2 ^ (- e))), e.
  assert (Em : Zpos (Z.to_pos (n * 2 ^ (- e))) = (n * 2 ^ (- e))%Z) by (apply Z2Pos.id; exact Hm).
  split; [lia|]. split; [exact Em|].
  apply of_decimal_exact.
  - unfold bounded, canonical_mantissa. apply andb_true_intro. split.
    + apply Z.eqb_eq.
      change (Zpos (digits2_pos (Z.to_pos (n * 2 ^ (- e)))))
        with (Zdigits2 (Zpos (Z.to_pos (n * 2 ^ (- e))))).
      rewrite Em, Zdigits2_shift by lia. rewrite <- Ed.
      unfold fexp, emin, prec, emax. lia.
    + apply Z.leb_le. unfold emax, prec. lia.
  - lia.
  - rewrite Em. change (Z.max 0 0) with 0%Z. change (Z.max (- 0) 0) with 0%Z.
    rewrite (Z.max_l (- e)) by lia. rewrite (Z.max_r e) by lia.
    rewrite !Z.pow_0_r. lia.
Qed.

Lemma round_half_even_exact (n e : Z) :
  (e <= 0)%Z -> round_half_even (n * 2 ^ (- e)) e = n.
Proof.
  intros He. unfold round_half_even. destruct (0 <=? e)%Z eqn:E.
  - apply Z.leb_le in E. replace e with 0%Z by lia.
    change (- 0)%Z with 0%Z. rewrite !Z.pow_0_r. lia.
  - apply Z.leb_gt in E.
    assert (Hp : (0 < 2 ^ (- e))%Z) by (apply Z.pow_pos_nonneg; lia).
    rewrite Z.mod_mul by lia. rewrite Z.div_mul by lia.
    change (2 * 0)%Z with 0%Z.
    destruct (Z.compare_spec 0 (2 ^ (- e))); lia.
Qed.

(** X10: a whole amount below 2^53, written in decimal digits, is parsed
    exactly: rounding the float gives the integer back. *)
Theorem parse_float_integer_exact (n : Z) :
  (0 <= n < 2 ^ 53)%Z ->
  exists f, parse_float (dec_digits n) = Ok (Some f) /\ py_round f = Ok n.
Proof.
  intros Hn. destruct (dec_digits_spec n (proj1 Hn)) as (Hv & Hd & Hne).
  assert (E : float_of_str (dec_digits n) = Ok (of_decimal false n 0)).
  { pose proof (float_of_str_numeral false (dec_digits n) None None Hne Hd I I) as H.
    unfold numeral in H. cbn [app] in H. rewrite !app_nil_r in H.
    rewrite Hv in H. exact H. }
  exists (of_decimal false n 0). split.
  - apply parse_float_numeral; [|exact E].
    apply forallb_numchr_decimal. exact Hd.
  - destruct (Z.eq_dec n 0) as [->|Hz]; [reflexivity|].
    destruct (of_decimal_small n ltac:(lia)) as (m & e & He & Em & ->).
    cbn [py_round cond_Zopp]. rewrite Em, round_half_even_exact by exact He. reflexivity.
Qed.

Lemma parse_float_integer_exact_witness :
  exists f, parse_float (dec_digits 880) = Ok (Some f) /\ py_round f = Ok 880%Z.
Proof. exact (parse_float_integer_exact 880 ltac:(cbn; lia)). Defined.

(** The digits of the text of a float. *)
Lemma rstrip_zeros_incl (ds : str) (a : ascii) : In a (rstrip_zeros ds) -> In a ds.
Proof.
  unfold rstrip_zeros. intros H. apply in_rev in H. apply dropwhile_incl in H.
  now apply in_rev.
Qed.

Lemma forallb_incl (p : ascii -> bool) (s t : str) :
  (forall a, In a s -> In a t) -> forallb p t = true -> forallb p s = true.
Proof.
  intros H Ht. apply forallb_forall. intros a Ha.
  exact (proj1 (forallb_forall p t) Ht a (H a Ha)).
Qed.

Lemma digits_of_decimal (d k : Z) :
  (0 <= d)%Z -> forallb isdecimal (fst (digits_of d k)) = true.
Proof.
  intros Hd. unfold digits_of. cbn [fst].
  apply (forallb_incl isdecimal _ (dec_digits d) (rstrip_zeros_incl (dec_digits d))).
  apply dec_digits_spec. exact Hd.
Qed.

Lemma scaled_pos (num den k : Z) :
  (0 < num)%Z -> (0 < den)%Z ->
  (0 < fst (scaled num den k))%Z /\ (0 < snd (scaled num den k))%Z.
Proof.
  intros Hn Hd. unfold scaled. destruct (0 <=? k)%Z eqn:E; cbn [fst snd].
  - apply Z.leb_le in E. split; [exact Hn|].
    apply Z.mul_pos_pos; [exact Hd|apply Z.pow_pos_nonneg; lia].
  - apply Z.leb_gt in E. split; [|exact Hd].
    apply Z.mul_pos_pos; [exact Hn|apply Z.pow_pos_nonneg; lia].
Qed.

Lemma candidates_decimal (num den : Z) (nd : nat) (c : str * Z) :
  (0 < num)%Z -> (0 < den)%Z -> In c (candidates_at num den nd) ->
  forallb isdecimal (fst c) = true.
Proof.
  intros Hn Hd. unfold candidates_at.
  pose proof (scaled_pos num den (ilog10 num den + 1 - Z.of_nat nd) Hn Hd) as [Hx Hy].
  destruct (scaled num den _) as [x d]. cbn [fst snd] in Hx, Hy.
  assert (Hlo : (0 <= x / d)%Z) by (apply Z.div_pos; lia).
  assert (A : forall k, forallb isdecimal (fst (digits_of (x / d) k)) = true)
    by (intros k; apply digits_of_decimal; exact Hlo).
  assert (B : forall k, forallb isdecimal (fst (digits_of (x / d + 1) k)) = true)
    by (intros k; apply digits_of_decimal; lia).
  destruct (x mod d =? 0)%Z; [|destruct (2 * (x mod d) ?= d)%Z; [destruct (Z.even _)| |]];
    cbn [In]; intros H; repeat (destruct H as [<-|H]; [auto|]); destruct H.
Qed.

Lemma ratio_pos (m : positive) (e : Z) :
  (0 < fst (ratio m e))%Z /\ (0 < snd (ratio m e))%Z.
Proof.
  unfold ratio. destruct (0 <=? e)%Z eqn:E; cbn [fst snd].
  - apply Z.leb_le in E. split; [|lia].
    apply Z.mul_pos_pos; [lia|apply Z.pow_pos_nonneg; lia].
  - apply Z.leb_gt in E. split; [lia|apply Z.pow_pos_nonneg; lia].
Qed.

Lemma shortest_digits_decimal (s : bool) (m : positive) (e : Z) :
  forallb isdecimal (fst (shortest_digits s m e)) = true.
Proof.
  unfold shortest_digits. pose proof (ratio_pos m e) as [Hn Hd].
  destruct (ratio m e) as [num den]. cbn [fst snd] in Hn, Hd.
  destruct (find _ _) as [c|] eqn:F.
  - apply find_some in F. destruct F as [F _]. apply in_flat_map in F.
    destruct F as [nd [_ F]]. exact (candidates_decimal num den nd c Hn Hd F).
  - unfold exact_digits. cbn [fst]. apply dec_digits_spec.
    destruct (0 <=? e)%Z eqn:E;
      [apply Z.leb_le in E|apply Z.leb_gt in E];
      apply Z.lt_le_incl; apply Z.mul_pos_pos; try lia; apply Z.pow_pos_nonneg; lia.
Qed.

Lemma in_firstn (A : Type) (k : nat) (l : list A) (a : A) : In a (firstn k l) -> In a l.
Proof. intros H. rewrite <- (firstn_skipn k l). apply in_or_app. now left. Qed.

Lemma in_skipn (A : Type) (k : nat) (l : list A) (a : A) : In a (skipn k l) -> In a l.
Proof. intros H. rewrite <- (firstn_skipn k l). apply in_or_app. now right. Qed.

Lemma format_repr_chars (sign : bool) (ds : str) (decpt : Z) (a : ascii) :
  forallb isdecimal ds = true -> In a (format_repr sign ds decpt) -> numchr a = true.
Proof.
  intros Hd. pose proof (forallb_numchr_decimal ds Hd) as Hn.
  assert (Hx : forall z b, In b (dec_digits (Z.abs z)) -> numchr b = true).
  { intros z b. apply forallb_numchr_decimal. apply dec_digits_spec. lia. }
  assert (Hr : forall k b, In b (repeat "0"%char k) -> numchr b = true).
  { intros k b Hb. apply repeat_spec in Hb. subst b. reflexivity. }
  unfold format_repr. intros H. apply in_app_or in H. destruct H as [H|H].
  { destruct sign; [|destruct H]. destruct H as [<-|[]]. reflexivity. }
  destruct ((decpt <=? -4) || (16 <? decpt))%Z.
  - apply in_app_or in H. destruct H as [H|H]; [apply Hn; exact (in_firstn _ _ _ _ H)|].
    apply in_app_or in H. destruct H as [H|H].
    { destruct (skipn 1 ds) as [|c r] eqn:E; [destruct H|].
      destruct H as [<-|H]; [reflexivity|]. apply Hn. apply (in_skipn _ 1). rewrite E. exact H. }
    apply in_app_or in H. destruct H as [H|H].
    { destruct H as [<-|[<-|[]]]; [reflexivity|]. destruct (decpt - 1 <? 0)%Z; reflexivity. }
    destruct (dec_digits (Z.abs (decpt - 1))) as [|c [|c' r]] eqn:E.
    + destruct H.
    + destruct H as [<-|H]; [reflexivity|]. apply (Hx (decpt - 1)%Z). rewrite E. exact H.
    + apply (Hx (decpt - 1)%Z). rewrite E. exact H.
  - destruct (decpt <=? 0)%Z.
    + apply in_app_or in H. destruct H as [H|H].
      { destruct H as [<-|[<-|[]]]; reflexivity. }
      apply in_app_or in H. destruct H as [H|H]; [exact (Hr _ _ H)|exact (Hn _ H)].
    + destruct (decpt <? Z.of_nat (length ds))%Z.
      * apply in_app_or in H. destruct H as [H|H]; [apply Hn; exact (in_firstn _ _ _ _ H)|].
        destruct H as [<-|H]; [reflexivity|]. apply Hn. exact (in_skipn _ _ _ _ H).
      * apply in_app_or in H. destruct H as [H|H]; [exact (Hn _ H)|].
        apply in_app_or in H. destruct H as [H|H]; [exact (Hr _ _ H)|].
        destruct H as [<-|[<-|[]]]; reflexivity.
Qed.

(** X11: every number the report prints is parsed back by [parse_float] to
    the same float. *)
Theorem parse_float_of_report_number (x : float) :
  valid_binary prec emax x = true ->
  parse_float (cell_text (opt_float (Some x))) = Ok (Some x).
Proof.
  intros Hv. cbn [opt_float cell_text]. destruct x as [s|s| |s m e].
  - destruct s; vm_compute; reflexivity.
  - destruct s; vm_compute; reflexivity.
  - vm_compute; reflexivity.
  - apply parse_float_numeral.
    + intros a. cbn [float_repr]. apply format_repr_chars. apply shortest_digits_decimal.
    + apply float_repr_reads_back; [exact Hv|discriminate].
Qed.

Lemma parse_float_of_report_number_witness :
  parse_float (cell_text (opt_float (Some (S754_finite false 7740561859543040 (-43)))))
  = Ok (Some (S754_finite false 7740561859543040 (-43))).
Proof.
  exact (parse_float_of_report_number (S754_finite false 7740561859543040 (-43)) eq_refl).
Defined.

(** ** Line items, further *)

Lemma emits_length (pattern : re.regex) (line : str) : length (emits pattern line) <= 1.
Proof.
  unfold emits, line_step.
  destruct (re.search summary_re line re.I); [cbn; lia|].
  destruct (re.search pattern line re.I) as [m|]; [|cbn; lia].
  unfold append_item. cbn [lit list_ascii_of_string app].
  repeat match goal with
         | |- context [bind ?x _] =>
             let e := fresh "e" in
             destruct x as [?|e]; cbn [bind catch]; [|destruct e; cbn; lia]
         end.
  cbn. lia.
Qed.

Lemma flat_map_length_le (A B : Type) (f : A -> list B) (l : list A) :
  (forall x, length (f x) <= 1) -> length (flat_map f l) <= length l.
Proof.
  intros H. induction l as [|x l IH]; cbn; [lia|].
  rewrite length_app. specialize (H x). lia.
Qed.

Lemma skipn_length_le (A : Type) (k : nat) (l : list A) : length (skipn k l) <= length l.
Proof. rewrite length_skipn. lia. Qed.

(** X12: a line gives at most one item, so there are no more items than
    lines from the header on. *)
Theorem one_item_per_line (raw : str) (pattern : re.regex) :
  (forall line, length (emits pattern line) <= 1) /\
  exists items,
    parse_line_items raw pattern = Ok items /\
    length items <= length (section_lines raw) /\
    length (section_lines raw) <= length (split_on newline raw).
Proof.
  split; [apply emits_length|].
  exists (flat_map (emits pattern) (section_lines raw)).
  split; [apply parse_line_items_flat|]. split.
  - apply flat_map_length_le. apply emits_length.
  - unfold section_lines. destruct (find_start _ 0); [apply skipn_length_le|cbn; lia].
Qed.

Lemma split_ws_tokens (s cur tok : str) :
  (forall a, In a cur -> isspace a = false) ->
  In tok (split_ws_from cur s) ->
  tok <> [] /\ forall a, In a tok -> isspace a = false.
Proof.
  revert cur. induction s as [|c s IH]; intros cur Hc; cbn [split_ws_from].
  - destruct cur as [|x cur']; [intros []|]. intros [<-|[]]. split.
    + intros E. apply (f_equal (@length ascii)) in E. rewrite length_rev in E. discriminate E.
    + intros a Ha. apply Hc. now apply in_rev.
  - destruct (isspace c) eqn:Es.
    + destruct cur as [|x cur'].
      * apply IH. intros a [].
      * intros [<-|H].
        -- split.
           ++ intros E. apply (f_equal (@length ascii)) in E. rewrite length_rev in E.
              discriminate E.
           ++ intros a Ha. apply Hc. now apply in_rev.
        -- revert H. apply IH. intros a [].
    + apply IH. intros a [<-|Ha]; [exact Es|exact (Hc a Ha)].
Qed.

Lemma items_from_lines (raw : str) (pattern : re.regex) (items : list LineItem)
  (it : LineItem) :
  parse_line_items raw pattern = Ok items -> In it items ->
  exists line, In line (section_lines raw) /\ In it (emits pattern line).
Proof.
  rewrite parse_line_items_flat. intros H Hin. injection H as <-.
  apply in_flat_map in Hin. exact Hin.
Qed.

(** X13: an item comes from a line of the section, and its description
    is the text ITEM NAME, a space, and the third whitespace-separated word
    of that line; that word is not empty and holds no whitespace. *)
Theorem item_description (raw : str) (pattern : re.regex) (items : list LineItem)
  (it : LineItem) :
  parse_line_items raw pattern = Ok items -> In it items ->
  exists line tok,
    In line (section_lines raw) /\ In it (emits pattern line) /\
    nth_error (split_ws line) 2 = Some tok /\
    description it = lit "ITEM NAME " ++ tok /\
    tok <> [] /\ forall a, In a tok -> isspace a = false.
Proof.
  intros H Hin. destruct (items_from_lines raw pattern items it H Hin) as [line [Hl He]].
  destruct (emits_item pattern line it He)
    as (m & tok & g1 & g2 & q & _ & _ & Ht & _ & _ & _ & _ & Hd & _).
  exists line, tok. unfold index in Ht.
  destruct (nth_error (split_ws line) 2) as [t|] eqn:En; [|discriminate].
  injection Ht as ->. split; [exact Hl|]. split; [exact He|].
  split; [reflexivity|]. split; [exact Hd|].
  apply (split_ws_tokens line [] tok); [intros a []|].
  exact (nth_error_In _ _ En).
Qed.

Lemma item_description_witness :
  exists line tok,
    In line (section_lines (lit "see ITEM NAME 1 Rs. 5 Rs. 10")) /\
    In {| quantity := Some (S754_finite false 4503599627370496 (-51));
          description := lit "ITEM NAME NAME";
          unit_price := Some (S754_finite false 5629499534213120 (-50));
          line_total := Some (S754_finite false 5629499534213120 (-49)) |}
       (emits line_item_re line) /\
    nth_error (split_ws line) 2 = Some tok /\
    lit "ITEM NAME NAME" = lit "ITEM NAME " ++ tok /\
    tok <> [] /\ forall a, In a tok -> isspace a = false.
Proof.
  exact (item_description (lit "see ITEM NAME 1 Rs. 5 Rs. 10") line_item_re
           [{| quantity := Some (S754_finite false 4503599627370496 (-51));
               description := lit "ITEM NAME NAME";
               unit_price := Some (S754_finite false 5629499534213120 (-50));
               line_total := Some (S754_finite false 5629499534213120 (-49)) |}]
           _ eq_refl (or_introl eq_refl)).
Defined.

(** X14: with the configured pattern the rate and the total of an item, when
    present, are not negative and not NaN. *)
Theorem prices_nonnegative (raw : str) (items : list LineItem) (it : LineItem) :
  parse_line_items raw line_item_re = Ok items -> In it items ->
  (forall u, unit_price it = Some u -> nonneg u = true) /\
  (forall t, line_total it = Some t -> nonneg t = true).
Proof.
  intros H Hin.
  destruct (items_from_lines raw line_item_re items it H Hin) as [line [_ He]].
  destruct (emits_item line_item_re line it He)
    as (m & tok & g1 & g2 & q & _ & Hm & _ & H1 & H2 & Hu & Ht & _).
  split; intros f Hf.
  - rewrite Hf in Hu. apply (parse_float_amount (strip g1) f); [|exact Hu].
    apply strip_forallb. exact (line_item_group line m 1 g1 Hm H1).
  - rewrite Hf in Ht. apply (parse_float_amount (strip g2) f); [|exact Ht].
    apply strip_forallb. exact (line_item_group line m 2 g2 Hm H2).
Qed.

Lemma prices_nonnegative_witness :
  (forall u, Some (S754_finite false 5629499534213120 (-50)) = Some u -> nonneg u = true) /\
  (forall t, Some (S754_finite false 5629499534213120 (-49)) = Some t -> nonneg t = true).
Proof.
  exact (prices_nonnegative (lit "ITEM NAME 1 Rs. 5 Rs. 10")
           [{| quantity := Some (S754_finite false 4503599627370496 (-51));
               description := lit "ITEM NAME 1";
               unit_price := Some (S754_finite false 5629499534213120 (-50));
               line_total := Some (S754_finite false 5629499534213120 (-49)) |}]
           _ eq_refl (or_introl eq_refl)).
Defined.

Lemma find_start_spec (lines : list str) (i : nat) :
  match find_start lines i with
  | Some j =>
      exists pre l post,
        lines = pre ++ l :: post /\ j = i + length pre /\
        (forall x, In x pre -> re.search header_re x re.I = None) /\
        re.search header_re l re.I <> None
  | None => forall x, In x lines -> re.search header_re x re.I = None
  end.
Proof.
  revert i. induction lines as [|l lines IH]; intros i; cbn [find_start].
  - intros x [].
  - destruct (re.search header_re l re.I) as [m|] eqn:E.
    + exists [], l, lines. split; [reflexivity|]. split; [cbn; lia|].
      split; [intros x []|congruence].
    + specialize (IH (S i)). destruct (find_start lines (S i)) as [j|].
      * destruct IH as (pre & l' & post & -> & -> & Hpre & Hl).
        exists (l :: pre), l', post. split; [reflexivity|]. split; [cbn; lia|].
        split; [|exact Hl]. intros x [<-|Hx]; [exact E|exact (Hpre x Hx)].
      * intros x [<-|Hx]; [exact E|exact (IH x Hx)].
Qed.

Lemma section_split (raw : str) :
  exists pre,
    split_on newline raw = pre ++ section_lines raw /\
    (forall l, In l pre -> re.search header_re l re.I = None) /\
    match section_lines raw with
    | l :: _ => re.search header_re l re.I <> None
    | [] => True
    end.
Proof.
  unfold section_lines. pose proof (find_start_spec (split_on newline raw) 0) as H.
  destruct (find_start (split_on newline raw) 0) as [j|].
  - destruct H as (pre & l & post & E & -> & Hpre & Hl). exists pre. rewrite E.
    cbn [Nat.add]. rewrite skipn_app, skipn_all, Nat.sub_diag. cbn [skipn app].
    split; [reflexivity|]. split; [exact Hpre|exact Hl].
  - exists (split_on newline raw). rewrite app_nil_r. split; [reflexivity|].
    split; [exact H|exact I].
Qed.

(** *** Lines *)

Lemma split_on_nosep (sep : ascii) (l : str) :
  ~ In sep l -> split_on sep l = [l].
Proof.
  induction l as [|a l IH]; intros H; cbn [split_on]; [reflexivity|].
  destruct (chr_eqb a sep) eqn:E.
  - exfalso. apply H. left. apply Ascii.eqb_eq. exact E.
  - rewrite IH; [reflexivity|]. intros Hin. apply H. now right.
Qed.

Lemma split_on_app (sep : ascii) (l rest : str) :
  ~ In sep l -> split_on sep (l ++ sep :: rest) = l :: split_on sep rest.
Proof.
  induction l as [|a l IH]; intros H; cbn [split_on app].
  - unfold chr_eqb. rewrite Ascii.eqb_refl. reflexivity.
  - destruct (chr_eqb a sep) eqn:E.
    + exfalso. apply H. left. apply Ascii.eqb_eq. exact E.
    + rewrite IH; [reflexivity|]. intros Hin. apply H. now right.
Qed.

Lemma split_on_join_app (sep : ascii) (ls : list str) (rest : str) :
  ls <> [] -> (forall l, In l ls -> ~ In sep l) ->
  split_on sep (join [sep] ls ++ sep :: rest) = ls ++ split_on sep rest.
Proof.
  induction ls as [|l ls IH]; intros Hne H; [congruence|].
  destruct ls as [|l' ls].
  - cbn [join app]. apply split_on_app. apply H. now left.
  - change (join [sep] (l :: l' :: ls)) with (l ++ [sep] ++ join [sep] (l' :: ls)).
    rewrite <- !app_assoc. cbn [app].
    rewrite split_on_app by (apply H; now left).
    rewrite IH; [reflexivity|discriminate|]. intros x Hx. apply H. now right.
Qed.

Lemma split_on_join (sep : ascii) (ls : list str) :
  ls <> [] -> (forall l, In l ls -> ~ In sep l) ->
  split_on sep (join [sep] ls) = ls.
Proof.
  induction ls as [|l ls IH]; intros Hne H; [congruence|].
  destruct ls as [|l' ls].
  - cbn [join]. apply split_on_nosep. apply H. now left.
  - change (join [sep] (l :: l' :: ls)) with (l ++ [sep] ++ join [sep] (l' :: ls)).
    cbn [app]. rewrite split_on_app by (apply H; now left).
    rewrite IH; [reflexivity|discriminate|]. intros x Hx. apply H. now right.
Qed.

Lemma split_on_lines (sep : ascii) (s l : str) :
  In l (split_on sep s) -> ~ In sep l.
Proof.
  revert l. induction s as [|a s IH]; intros l; cbn [split_on].
  - intros [<-|[]] [].
  - destruct (chr_eqb a sep) eqn:E.
    + intros [<-|H]; [intros []|exact (IH l H)].
    + destruct (split_on sep s) as [|h t]; cbn [In].
      * intros [<-|[]] [Ha|[]]. subst a. unfold chr_eqb in E.
        rewrite Ascii.eqb_refl in E. discriminate E.
      * intros [<-|H].
        -- intros [Ha|Hh].
           ++ subst a. unfold chr_eqb in E. rewrite Ascii.eqb_refl in E. discriminate E.
           ++ exact (IH h (or_introl eq_refl) Hh).
        -- apply IH. now right.
Qed.

Lemma section_of_section (raw : str) :
  section_lines raw <> [] ->
  section_lines (join [newline] (section_lines raw)) = section_lines raw.
Proof.
  intros Hne. destruct (section_split raw) as (pre & E & _ & Hl).
  assert (Hs : forall l, In l (section_lines raw) -> ~ In newline l).
  { intros l Hin. apply (split_on_lines newline raw). rewrite E.
    apply in_or_app. now right. }
  unfold section_lines at 1. rewrite (split_on_join newline _ Hne Hs).
  destruct (section_lines raw) as [|l rest]; [congruence|].
  cbn [find_start]. destruct (re.search header_re l re.I); [reflexivity|congruence].
Qed.

(** X15: the section scanned for items is the text from its first header
    line on, that line included; no line before it has the header, and the
    text before it has no part in the result: the items of the section
    alone are the items of the whole text. *)
Theorem section_starts_at_header (raw : str) (pattern : re.regex) :
  exists pre,
    split_on newline raw = pre ++ section_lines raw /\
    (forall l, In l pre -> re.search header_re l re.I = None) /\
    match section_lines raw with
    | l :: _ =>
        re.search header_re l re.I <> None /\
        parse_line_items (join [newline] (section_lines raw)) pattern
        = parse_line_items raw pattern
    | [] => parse_line_items raw pattern = Ok []
    end.
Proof.
  destruct (section_split raw) as (pre & E & Hpre & Hl). exists pre.
  split; [exact E|]. split; [exact Hpre|].
  rewrite !parse_line_items_flat.
  destruct (section_lines raw) as [|l rest] eqn:Es; [reflexivity|].
  split; [exact Hl|]. rewrite <- Es.
  rewrite section_of_section by congruence. reflexivity.
Qed.

Lemma run_seq_head (fl : re.flags) (r1 r2 r3 : re.regex) (s : str) (g : re.groups) :
  re.run fl (re.Seq r1 (re.Seq r2 r3)) s g <> [] -> re.run fl (re.Seq r1 r2) s g <> [].
Proof.
  cbn [re.run]. intros H E. apply H. clear H.
  induction (re.run fl r1 s g) as [|x xs IH]; [reflexivity|].
  cbn [flat_map] in *. apply app_eq_nil in E. destruct E as [E1 E2].
  rewrite E1, (IH E2). reflexivity.
Qed.

Lemma search_of_run (fl : re.flags) (r : re.regex) (s : str) (k : nat) :
  re.run fl r (skipn k s) [] <> [] -> re.search r s fl <> None.
Proof.
  intros H. unfold re.search.
  destruct (search_from_app fl r (firstn k s) (skipn k s) 0 H) as [m Hm].
  rewrite firstn_skipn in Hm. congruence.
Qed.

(** A line the item pattern matches has the header. *)
Lemma header_of_item (line : str) :
  re.search line_item_re line re.I <> None -> re.search header_re line re.I <> None.
Proof.
  destruct (re.search line_item_re line re.I) as [m|] eqn:E; [|congruence]. intros _.
  unfold re.search in E.
  destruct (search_from_found _ _ _ _ _ E) as (k & rest & tl & _ & _ & Hrun & _).
  apply (search_of_run re.I header_re line k).
  apply (run_seq_head re.I (re.word "ITEM NAME ") (re.One [re.Digit])
           (re.seqs [sp_plus; re.word "Rs."; sp_star; re.Grp 1 amount; sp_plus;
                     re.word "Rs."; sp_star; re.Grp 2 amount])).
  change (re.run re.I line_item_re (skipn k line) [] <> []).
  rewrite Hrun. discriminate.
Qed.

(** X16: with the configured pattern no line that the item pattern matches
    is left out of the section: such a line has the header itself. *)
Theorem item_lines_are_in_section (raw line : str) :
  In line (split_on newline raw) -> re.search line_item_re line re.I <> None ->
  re.search header_re line re.I <> None /\ In line (section_lines raw).
Proof.
  intros Hin Hm. pose proof (header_of_item line Hm) as Hh. split; [exact Hh|].
  destruct (section_split raw) as (pre & E & Hpre & _).
  rewrite E in Hin. apply in_app_or in Hin. destruct Hin as [Hin|Hin]; [|exact Hin].
  exfalso. exact (Hh (Hpre line Hin)).
Qed.

Lemma item_lines_are_in_section_witness :
  re.search header_re (lit "ITEM NAME 2 Rs. 5 Rs. 10") re.I <> None /\
  In (lit "ITEM NAME 2 Rs. 5 Rs. 10")
     (section_lines (lit "Bill: 7" ++ [newline] ++ lit "ITEM NAME 2 Rs. 5 Rs. 10")).
Proof.
  refine (item_lines_are_in_section
            (lit "Bill: 7" ++ [newline] ++ lit "ITEM NAME 2 Rs. 5 Rs. 10")
            (lit "ITEM NAME 2 Rs. 5 Rs. 10") _ _).
  - vm_compute. right. left. reflexivity.
  - vm_compute. discriminate.
Defined.

(** ** Shapes of matched text *)

Lemma span_le_hi (fl : re.flags) (cs : list re.item) (s : str) (h : nat) :
  re.span fl cs (Some h) s <= h.
Proof.
  revert h. induction s as [|a s IH]; intros h; destruct h as [|h]; cbn; try lia.
  destruct (re.mem fl cs a); [|lia]. specialize (IH h). lia.
Qed.

Lemma at_most_0 (b : option nat) : at_most 0 b.
Proof. destruct b; cbn; [lia|exact I]. Qed.

Lemma run_shape (fl : re.flags) (P : ascii -> bool) (r : re.regex) :
  (forall cs, In cs (sets_of r) -> forall a, re.mem fl cs a = true -> P a = true) ->
  forall s g s1 g1, In (s1, g1) (re.run fl r s g) ->
  exists w, s = w ++ s1 /\ shaped P (min_len r) (max_len r) w.
Proof.
  unfold shaped.
  induction r as [|cs|r1 IH1 r2 IH2|r1 IH1 r2 IH2|r1 IH1|cs lo hi|n r1 IH1];
    intros Hs s g s1 g1 Hin; cbn [re.run sets_of min_len max_len] in *.
  - destruct Hin as [E|[]]. injection E as <- <-. exists []. cbn. repeat split; lia.
  - destruct s as [|a s']; [destruct Hin|].
    destruct (re.mem fl cs a) eqn:Em; [|destruct Hin].
    destruct Hin as [E|[]]. injection E as <- <-. exists [a]. cbn.
    rewrite (Hs cs (or_introl eq_refl) a Em). repeat split; lia.
  - apply in_flat_map in Hin. destruct Hin as [[s2 g2] [H1 H2]]. cbn [fst snd] in H2.
    destruct (IH1 (fun cs H => Hs cs (in_or_app _ _ cs (or_introl H))) s g s2 g2 H1)
      as (w1 & -> & F1 & L1 & U1).
    destruct (IH2 (fun cs H => Hs cs (in_or_app _ _ cs (or_intror H))) s2 g2 s1 g1 H2)
      as (w2 & -> & F2 & L2 & U2).
    exists (w1 ++ w2). rewrite app_assoc, forallb_app, F1, F2, length_app.
    repeat split; try lia.
    destruct (max_len r1), (max_len r2); cbn in *; try exact I. lia.
  - apply in_app_or in Hin. destruct Hin as [H|H].
    + destruct (IH1 (fun cs H => Hs cs (in_or_app _ _ cs (or_introl H))) s g s1 g1 H)
        as (w & -> & F & L & U).
      exists w. repeat split; try assumption; try lia.
      destruct (max_len r1), (max_len r2); cbn in *; try exact I. lia.
    + destruct (IH2 (fun cs H => Hs cs (in_or_app _ _ cs (or_intror H))) s g s1 g1 H)
        as (w & -> & F & L & U).
      exists w. repeat split; try assumption; try lia.
      destruct (max_len r1), (max_len r2); cbn in *; try exact I. lia.
  - apply in_app_or in Hin. destruct Hin as [H|H].
    + destruct (IH1 Hs s g s1 g1 H) as (w & -> & F & L & U).
      exists w. repeat split; try assumption; lia.
    + destruct H as [E|[]]. injection E as <- <-. exists []. cbn.
      repeat split; try lia. apply at_most_0.
  - apply in_map_iff in Hin. destruct Hin as [k [E Hk]]. injection E as <- <-.
    apply in_rev in Hk. apply in_seq in Hk.
    pose proof (span_le_length fl cs hi s) as Hl.
    exists (firstn k s). rewrite firstn_skipn, length_firstn.
    split; [reflexivity|]. split; [|split].
    + apply forallb_forall. intros a Ha. apply (Hs cs (or_introl eq_refl)).
      revert a Ha. apply forallb_forall. apply (span_firstn fl cs hi s k). lia.
    + lia.
    + destruct hi as [h|]; cbn; [|exact I]. pose proof (span_le_hi fl cs s h). lia.
  - apply in_map_iff in Hin. destruct Hin as [[s2 g2] [E H]]. cbn [fst snd] in E.
    injection E as <- <-. exact (IH1 Hs s g s2 g2 H).
Qed.

Lemma consumed_app (w s1 : str) : re.consumed (w ++ s1) s1 = w.
Proof.
  unfold re.consumed. rewrite length_app.
  replace (length w + length s1 - length s1) with (length w) by lia.
  rewrite firstn_app, Nat.sub_diag, firstn_all. cbn. apply app_nil_r.
Qed.

Lemma groups_sound_of (fl : re.flags) (Q : nat -> str -> Prop) (r : re.regex) :
  (forall k r1, In (k, r1) (grps r) ->
     forall s g s1 g1, In (s1, g1) (re.run fl r1 s g) -> Q k (re.consumed s s1)) ->
  groups_sound fl Q r.
Proof.
  induction r as [|cs|r1 IH1 r2 IH2|r1 IH1 r2 IH2|r1 IH1|cs lo hi|n r1 IH1];
    intros H; cbn [groups_sound grps] in *; try exact I.
  - split; [apply IH1|apply IH2]; intros k r H'; apply H; apply in_or_app; auto.
  - split; [apply IH1|apply IH2]; intros k r H'; apply H; apply in_or_app; auto.
  - apply IH1. exact H.
  - split; [apply (H n r1); now left|]. apply IH1. intros k r H'. apply H. now right.
Qed.

(** The body of a group bounds the text the group holds. *)
Lemma group_shape (fl : re.flags) (P : ascii -> bool) (r : re.regex) :
  (forall cs, In cs (sets_of r) -> forall a, re.mem fl cs a = true -> P a = true) ->
  forall s g s1 g1, In (s1, g1) (re.run fl r s g) ->
  shaped P (min_len r) (max_len r) (re.consumed s s1).
Proof.
  intros Hs s g s1 g1 Hin.
  destruct (run_shape fl P r Hs s g s1 g1 Hin) as (w & -> & H).
  rewrite consumed_app. exact H.
Qed.

Lemma first_group_sound (Q : nat -> str -> Prop) (p : re.regex) (raw v : str) :
  groups_sound re.IM Q p -> first_group raw p = Some v ->
  exists g, Q 1 g /\ v = strip g.
Proof.
  intros Hg. unfold first_group.
  destruct (re.search p raw re.IM) as [m|] eqn:E; [|discriminate].
  destruct (re.lookup 1 (re.m_groups m)) as [g|] eqn:El; [|discriminate].
  cbn [option_map]. intros H. injection H as <-. exists g. split; [|reflexivity].
  unfold re.search in E.
  destruct (search_from_found _ _ _ _ _ E) as (k & rest & tl & _ & _ & Hrun & _).
  refine (run_groups re.IM Q p Hg (skipn k raw) [] rest (re.m_groups m) _ _ 1 g El).
  - intros n w H. discriminate H.
  - rewrite Hrun. now left.
Qed.

Lemma word_mem (a : ascii) : re.mem re.IM [re.Word] a = true -> isword a = true.
Proof. cbn. rewrite orb_false_r. trivial. Qed.

Lemma digit_mem (a : ascii) : re.mem re.IM [re.Digit] a = true -> isdecimal a = true.
Proof. cbn. rewrite orb_false_r. trivial. Qed.

Lemma digit_date (a : ascii) : re.mem re.IM [re.Digit] a = true -> date_chr a = true.
Proof. intros H. unfold date_chr. rewrite (digit_mem a H). reflexivity. Qed.

Lemma sep_date (a : ascii) :
  re.mem re.IM [re.Chr "-"; re.Chr "/"] a = true -> date_chr a = true.
Proof.
  destruct a as [[] [] [] [] [] [] [] []]; cbn; intros H; try discriminate H; reflexivity.
Qed.

Lemma hyphen_date (a : ascii) : re.mem re.IM [re.Chr "-"] a = true -> date_chr a = true.
Proof.
  destruct a as [[] [] [] [] [] [] [] []]; cbn; intros H; try discriminate H; reflexivity.
Qed.

Lemma amount_mem_IM (a : ascii) :
  re.mem re.IM [re.Digit; re.Chr ","; re.Chr "."] a = true -> amount_chr a = true.
Proof.
  destruct a as [[] [] [] [] [] [] [] []]; cbn; intros H; try discriminate H; reflexivity.
Qed.



Lemma date_nospace (a : ascii) : date_chr a = true -> isspace a = false.
Proof.
  destruct a as [[] [] [] [] [] [] [] []]; cbn; intros H; try discriminate H; reflexivity.
Qed.

Ltac group_shapes :=
  apply groups_sound_of; intros k r1 Hin; cbn in Hin;
  destruct Hin as [E|[]]; injection E as <- <-;
  apply group_shape; intros cs Hcs a; cbn in Hcs;
  repeat (destruct Hcs as [<-|Hcs];
          [first [apply word_mem | apply digit_mem | apply digit_date | apply sep_date
                 | apply hyphen_date | apply amount_mem_IM]|]);
  destruct Hcs.




Lemma date_shape :
  groups_sound re.IM (fun _ => shaped date_chr 8 (Some 10)) date_re.
Proof. group_shapes. Qed.

Lemma acme_date_shape :
  groups_sound re.IM (fun _ => shaped date_chr 10 (Some 10)) acme_date_re.
Proof. group_shapes. Qed.

Lemma total_amount_shape :
  groups_sound re.IM (fun _ => shaped amount_chr 1 None) total_amount_re.
Proof. group_shapes. Qed.

Lemma tax_amount_shape :
  groups_sound re.IM (fun _ => shaped amount_chr 1 None) tax_amount_re.
Proof. group_shapes. Qed.

(** A group whose characters are not whitespace is kept whole by the trim. *)
Lemma first_group_shaped (P : ascii -> bool) (lo : nat) (hi : option nat)
  (p : re.regex) (raw v : str) :
  (forall a, P a = true -> isspace a = false) ->
  groups_sound re.IM (fun _ => shaped P lo hi) p -> first_group raw p = Some v ->
  shaped P lo hi v.
Proof.
  intros Hp Hg Hv. destruct (first_group_sound _ p raw v Hg Hv) as (g & Hs & ->).
  rewrite strip_nospace; [exact Hs|].
  intros a Ha. apply Hp. destruct Hs as [F _].
  exact (proj1 (forallb_forall P g) F a Ha).
Qed.

(** ** The fields of the record *)

Lemma parsed_fields (raw : str) (ids : nat -> str) (n : nat) :
  let inv := parsed (loaded ids n) raw line_item_re (ids n) in
  total_amount inv = cleaned (first_group raw total_amount_re) /\
  tax_amount inv = cleaned (first_group raw tax_amount_re) /\
  gst_number inv = first_group raw gst_number_re /\
  vendor_name inv = first_group raw vendor_name_re /\
  if is_known_vendor KNOWN_VENDOR_TEMPLATE raw
  then invoice_number inv = first_group raw acme_invoice_number_re /\
       date inv = first_group raw acme_date_re
  else invoice_number inv = first_group raw invoice_number_re /\
       date inv = first_group raw date_re.
Proof.
  cbv zeta. unfold parsed.
  cbn [total_amount tax_amount gst_number vendor_name invoice_number date].
  rewrite !found_loaded.
  destruct (is_known_vendor KNOWN_VENDOR_TEMPLATE raw); repeat split; reflexivity.
Qed.

(** X17: the vendor check changes the patterns of two fields only: the
    invoice number and the date come from the patterns of the template
    when the vendor is known and from the configured ones otherwise; the
    amounts and the tax registration number always come from the configured
    patterns. *)
Theorem override_changes_two_fields (raw : str) (ids : nat -> str) (n : nat) :
  exists inv,
    fst (parse_invoice_data raw (loaded ids n)) = Ok inv /\
    total_amount inv = cleaned (first_group raw total_amount_re) /\
    tax_amount inv = cleaned (first_group raw tax_amount_re) /\
    gst_number inv = first_group raw gst_number_re /\
    if is_known_vendor KNOWN_VENDOR_TEMPLATE raw
    then invoice_number inv = first_group raw acme_invoice_number_re /\
         date inv = first_group raw acme_date_re
    else invoice_number inv = first_group raw invoice_number_re /\
         date inv = first_group raw date_re.
Proof.
  exists (parsed (loaded ids n) raw line_item_re (ids n)).
  rewrite parse_invoice_data_loaded. split; [reflexivity|].
  destruct (parsed_fields raw ids n) as (H1 & H2 & H3 & _ & H5).
  repeat split; assumption.
Qed.

(** X18: the record keeps the whole text and the identifier drawn for it,
    and its line items are those [parse_line_items] gives for the text and
    the configured item pattern. *)
Theorem record_keeps_text_and_items (raw : str) (ids : nat -> str) (n : nat) :
  exists inv,
    parse_invoice_data raw (loaded ids n) = (Ok inv, loaded ids (S n)) /\
    invoice_id inv = ids n /\ raw_text inv = raw /\
    parse_line_items raw line_item_re = Ok (line_items inv).
Proof.
  exists (parsed (loaded ids n) raw line_item_re (ids n)).
  rewrite parse_invoice_data_loaded. repeat split. apply parse_line_items_flat.
Qed.

Lemma cleaned_amount (o : option str) (f : float) :
  (forall v, o = Some v -> forallb amount_chr v = true) ->
  cleaned o = Some f -> nonneg f = true.
Proof.
  intros H. destruct o as [v|]; [|discriminate]. cbn [cleaned].
  destruct (parse_float v) as [r|] eqn:E; [|discriminate]. intros ->.
  exact (parse_float_amount v f (H v eq_refl) E).
Qed.

Lemma amount_nospace (a : ascii) : amount_chr a = true -> isspace a = false.
Proof.
  destruct a as [[] [] [] [] [] [] [] []]; cbn; intros H; try discriminate H; reflexivity.
Qed.

(** X19: the total and the tax of a parsed invoice, when present, are not
    negative and not NaN. *)
Theorem amounts_nonnegative (raw : str) (ids : nat -> str) (n : nat) :
  exists inv,
    fst (parse_invoice_data raw (loaded ids n)) = Ok inv /\
    (forall f, total_amount inv = Some f -> nonneg f = true) /\
    (forall f, tax_amount inv = Some f -> nonneg f = true).
Proof.
  exists (parsed (loaded ids n) raw line_item_re (ids n)).
  rewrite parse_invoice_data_loaded. split; [reflexivity|].
  destruct (parsed_fields raw ids n) as (H1 & H2 & _).
  rewrite H1, H2. split; intros f; apply cleaned_amount; intros v Hv.
  - exact (proj1 (first_group_shaped amount_chr 1 None total_amount_re raw v
                    amount_nospace total_amount_shape Hv)).
  - exact (proj1 (first_group_shaped amount_chr 1 None tax_amount_re raw v
                    amount_nospace tax_amount_shape Hv)).
Qed.




(** X21: the date of a parsed invoice, when present, holds only digits,
    hyphens and slashes and is eight to ten characters long; for the known
    vendor it is ten characters long. *)
Theorem date_shape_of_invoice (raw : str) (ids : nat -> str) (n : nat) :
  exists inv,
    fst (parse_invoice_data raw (loaded ids n)) = Ok inv /\
    forall v, date inv = Some v ->
      forallb date_chr v = true /\ 8 <= length v <= 10 /\
      (is_known_vendor KNOWN_VENDOR_TEMPLATE raw = true -> length v = 10).
Proof.
  exists (parsed (loaded ids n) raw line_item_re (ids n)).
  rewrite parse_invoice_data_loaded. split; [reflexivity|].
  destruct (parsed_fields raw ids n) as (_ & _ & _ & _ & H5).
  intros v Hv. destruct (is_known_vendor KNOWN_VENDOR_TEMPLATE raw);
    destruct H5 as [_ H5]; rewrite H5 in Hv.
  - destruct (first_group_shaped date_chr 10 (Some 10) acme_date_re raw v date_nospace
                acme_date_shape Hv) as (F & L & U).
    cbn in U. repeat split; try assumption; try lia.
  - destruct (first_group_shaped date_chr 8 (Some 10) date_re raw v date_nospace
                date_shape Hv) as (F & L & U).
    cbn in U. repeat split; try assumption; try lia; discriminate.
Qed.

(** ** The vendor check *)

(** X22: the vendor check reads the first five lines only: whatever follows
    them does not change its answer. *)
Theorem vendor_check_reads_five_lines (t : vendor_template) (ls : list str) (rest : str) :
  length ls = 5 -> (forall l, In l ls -> ~ In newline l) ->
  is_known_vendor t (join [newline] ls ++ newline :: rest)
  = is_known_vendor t (join [newline] ls).
Proof.
  intros Hl H. assert (Hne : ls <> []) by (destruct ls; [discriminate|discriminate]).
  unfold is_known_vendor.
  rewrite (split_on_join_app newline ls rest Hne H), (split_on_join newline ls Hne H).
  rewrite firstn_app, Hl, Nat.sub_diag. cbn [firstn]. rewrite app_nil_r. reflexivity.
Qed.

Lemma vendor_check_reads_five_lines_witness :
  is_known_vendor KNOWN_VENDOR_TEMPLATE
    (join [newline] (map lit ["a"; "b"; "c"; "d"; "e"]%string) ++ newline :: lit "Acme Corp")
  = is_known_vendor KNOWN_VENDOR_TEMPLATE
      (join [newline] (map lit ["a"; "b"; "c"; "d"; "e"]%string)).
Proof.
  refine (vendor_check_reads_five_lines KNOWN_VENDOR_TEMPLATE
            (map lit ["a"; "b"; "c"; "d"; "e"]%string) (lit "Acme Corp") eq_refl _).
  intros l Hl Hin. cbn in Hl.
  repeat (destruct Hl as [<-|Hl]; [cbn in Hin; destruct Hin as [E|[]]; discriminate E|]).
  destruct Hl.
Defined.

(** ** The report, further *)

(** X23: the report tells invoices apart: two invoices with the same report
    have the same identifier, the same text in every header field (an
    absent field reads as the empty text) and the same cells in every item
    row. *)
Theorem same_report_same_cells (a b : ParsedInvoice) :
  generate_csv_string a = generate_csv_string b ->
  invoice_id a = invoice_id b /\
  cell_text (opt_str (vendor_name a)) = cell_text (opt_str (vendor_name b)) /\
  cell_text (opt_str (invoice_number a)) = cell_text (opt_str (invoice_number b)) /\
  cell_text (opt_str (date a)) = cell_text (opt_str (date b)) /\
  cell_text (opt_str (gst_number a)) = cell_text (opt_str (gst_number b)) /\
  cell_text (opt_float (tax_amount a)) = cell_text (opt_float (tax_amount b)) /\
  cell_text (opt_float (total_amount a)) = cell_text (opt_float (total_amount b)) /\
  map (map cell_text) (map item_row (line_items a))
  = map (map cell_text) (map item_row (line_items b)).
Proof.
  intros H. apply (f_equal read_csv) in H. unfold generate_csv_string in H.
  rewrite !read_csv_written in H. unfold report_rows, header_rows in H.
  cbn [map app] in H. injection H. intros. repeat split; assumption.
Qed.

Lemma same_report_same_cells_witness :
  let a := {| invoice_id := lit "id"; vendor_name := None; invoice_number := None;
              date := None; total_amount := None; tax_amount := None;
              gst_number := None; line_items := []; raw_text := lit "x" |} in
  let b := {| invoice_id := lit "id"; vendor_name := Some []; invoice_number := None;
              date := None; total_amount := None; tax_amount := None;
              gst_number := None; line_items := []; raw_text := lit "y" |} in
  invoice_id a = invoice_id b /\
  cell_text (opt_str (vendor_name a)) = cell_text (opt_str (vendor_name b)) /\
  cell_text (opt_str (invoice_number a)) = cell_text (opt_str (invoice_number b)) /\
  cell_text (opt_str (date a)) = cell_text (opt_str (date b)) /\
  cell_text (opt_str (gst_number a)) = cell_text (opt_str (gst_number b)) /\
  cell_text (opt_float (tax_amount a)) = cell_text (opt_float (tax_amount b)) /\
  cell_text (opt_float (total_amount a)) = cell_text (opt_float (total_amount b)) /\
  map (map cell_text) (map item_row (line_items a))
  = map (map cell_text) (map item_row (line_items b)).
Proof.
  exact (same_report_same_cells
           {| invoice_id := lit "id"; vendor_name := None; invoice_number := None;
              date := None; total_amount := None; tax_amount := None;
              gst_number := None; line_items := []; raw_text := lit "x" |}
           {| invoice_id := lit "id"; vendor_name := Some []; invoice_number := None;
              date := None; total_amount := None; tax_amount := None;
              gst_number := None; line_items := []; raw_text := lit "y" |} eq_refl).
Defined.

(** ** Patterns without the groups the code reads *)

Lemma group_out_of_range (m : re.Match) (i : nat) :
  re.m_ngroups m < i -> group m i = Raise IndexError.
Proof.
  intros H. unfold group. destruct (Nat.leb i (re.m_ngroups m)) eqn:E; [|reflexivity].
  apply Nat.leb_le in E. lia.
Qed.

(** X24: a field pattern without a group leaves the field out, whether it
    matches or not; a pattern whose first group took no part in the match
    makes the loop fail with [AttributeError]. *)
Theorem field_step_without_group (raw : str) (field : string) (p : re.regex)
  (d : dict value) :
  (re.ngroups p = 0 -> field_step raw field p d = Ok d) /\
  (forall m, String.eqb field "line_item_pattern" = false ->
             1 <= re.ngroups p -> re.search p raw re.IM = Some m ->
             re.lookup 1 (re.m_groups m) = None ->
             field_step raw field p d = Raise AttributeError).
Proof.
  unfold field_step. split.
  - intros H0. destruct (String.eqb field "line_item_pattern"); [reflexivity|].
    destruct (re.search p raw re.IM) as [m|] eqn:E; [|reflexivity].
    rewrite group_out_of_range; [reflexivity|].
    unfold re.search in E. rewrite (search_from_ngroups _ _ _ _ _ E). lia.
  - intros m Hf Hn E Hl. rewrite Hf, E. unfold group.
    unfold re.search in E. rewrite (search_from_ngroups _ _ _ _ _ E).
    destruct (Nat.leb 1 (re.ngroups p)) eqn:E1; [|apply Nat.leb_gt in E1; lia].
    rewrite Hl. reflexivity.
Qed.

Lemma field_step_without_group_witness :
  field_step (lit "Bill: 7") "date" (re.word "Bill") [] = Ok [] /\
  field_step (lit "Bill: 7") "date" (re.Alt (re.word "Bill") (re.Grp 1 (re.word "x"))) []
  = Raise AttributeError.
Proof.
  split.
  - exact (proj1 (field_step_without_group (lit "Bill: 7") "date" (re.word "Bill") [])
             eq_refl).
  - exact (proj2 (field_step_without_group (lit "Bill: 7") "date"
                    (re.Alt (re.word "Bill") (re.Grp 1 (re.word "x"))) [])
             {| re.m_start := 0; re.m_end := 4; re.m_groups := []; re.m_ngroups := 1 |}
             eq_refl (le_n 1) eq_refl eq_refl).
Defined.

(** X25: a line with fewer than three words gives no item, and neither does
    any line when the pattern has fewer than two groups: the error is
    swallowed and the loop goes on. *)
Theorem no_item_without_word_or_group (pattern : re.regex) (line : str) :
  length (split_ws line) < 3 \/ re.ngroups pattern < 2 -> emits pattern line = [].
Proof.
  intros H. unfold emits, line_step.
  destruct (re.search summary_re line re.I); [reflexivity|].
  destruct (re.search pattern line re.I) as [m|] eqn:E; [|reflexivity].
  unfold append_item, index.
  destruct (nth_error (split_ws line) 2) as [tok|] eqn:En; [|reflexivity].
  destruct H as [H|H].
  { exfalso. assert (2 < length (split_ws line)); [|lia].
    apply nth_error_Some. congruence. }
  cbn [bind]. unfold re.search in E. pose proof (search_from_ngroups _ _ _ _ _ E) as Hn.
  destruct (group m 1) as [g1|e] eqn:E1; [|destruct e; reflexivity].
  cbn [bind]. destruct (strip_opt g1) as [s1|e]; [|destruct e; reflexivity].
  cbn [bind]. destruct (parse_float s1) as [u|e]; [|destruct e; reflexivity].
  cbn [bind]. rewrite (group_out_of_range m 2) by lia. reflexivity.
Qed.

Lemma no_item_without_word_or_group_witness :
  emits (re.Seq (re.Grp 1 (re.word "NAME")) (re.Grp 2 (re.plus [re.Space])))
        (lit "ITEM NAME ") = [].
Proof.
  refine (no_item_without_word_or_group _ (lit "ITEM NAME ") (or_introl _)).
  cbn. lia.
Defined.

(** ** The pattern set in force *)

Lemma dict_get_snoc (V : Type) (k : string) (d : dict V) (kv : string * V) :
  dict_get k (d ++ [kv])
  = match dict_get k d with
    | Some v => Some v
    | None => if String.eqb (fst kv) k then Some (snd kv) else None
    end.
Proof.
  induction d as [|[k' v'] d IH]; cbn [dict_get app].
  - destruct kv as [k0 v0]. reflexivity.
  - destruct (String.eqb k' k); [reflexivity|exact IH].
Qed.

Lemma dict_get_update_rev (V : Type) (k : string) (other d : dict V) :
  dict_get k (dict_update d other)
  = match dict_get k (rev other) with
    | Some v => Some v
    | None => dict_get k d
    end.
Proof.
  unfold dict_update. revert d. induction other as [|[k0 v0] other IH]; intros d.
  - reflexivity.
  - cbn [fold_left rev fst snd]. rewrite IH, dict_get_snoc, dict_get_set. cbn [fst snd].
    destruct (dict_get k (rev other)); [reflexivity|].
    destruct (String.eqb k0 k); reflexivity.
Qed.

Lemma dict_get_not_in (V : Type) (k : string) (d : dict V) :
  ~ In k (map fst d) -> dict_get k d = None.
Proof.
  induction d as [|[k' v'] d IH]; cbn; intros H; [reflexivity|].
  destruct (String.eqb k' k) eqn:E.
  - apply String.eqb_eq in E. exfalso. apply H. now left.
  - apply IH. intros Hin. apply H. now right.
Qed.

Lemma dict_get_rev (V : Type) (k : string) (d : dict V) :
  NoDup (map fst d) -> dict_get k (rev d) = dict_get k d.
Proof.
  induction d as [|[k' v'] d IH]; intros H; [reflexivity|].
  cbn [map fst] in H. inversion H as [|x l Hn Hd]. subst.
  cbn [rev dict_get]. rewrite dict_get_snoc, (IH Hd). cbn [fst snd].
  destruct (String.eqb k' k) eqn:E; [|destruct (dict_get k d); reflexivity].
  apply String.eqb_eq in E. subst k'. rewrite (dict_get_not_in _ k d Hn). reflexivity.
Qed.

(** X26: under any configuration the pattern in force for a key is the
    override of the template when the vendor is known and the template
    overrides that key, and the configured pattern in every other case. *)
Theorem pattern_in_force (w : world) (raw : str) (k : string) :
  NoDup (map fst (regex_overrides (template w))) ->
  dict_get k (effective_patterns w raw)
  = if is_known_vendor (template w) raw
    then match dict_get k (regex_overrides (template w)) with
         | Some p => Some p
         | None => dict_get k (config w)
         end
    else dict_get k (config w).
Proof.
  intros H. unfold effective_patterns.
  destruct (is_known_vendor (template w) raw); [|reflexivity].
  rewrite dict_get_update_rev, (dict_get_rev _ k _ H). reflexivity.
Qed.

Lemma pattern_in_force_witness :
  dict_get "date" (effective_patterns (loaded (fun _ => lit "id") 0) (lit "ACME CORP"))
  = Some acme_date_re.
Proof.
  refine (pattern_in_force (loaded (fun _ => lit "id") 0) (lit "ACME CORP") "date" _).
  cbn. repeat constructor; cbn; intuition discriminate.
Defined.

(** ** Text added after the section has begun *)

Lemma split_on_nonempty (sep : ascii) (s : str) : split_on sep s <> [].
Proof.
  destruct s as [|a s]; cbn [split_on]; [discriminate|].
  destruct (chr_eqb a sep); [discriminate|]. destruct (split_on sep s); discriminate.
Qed.

Lemma split_on_app_sep (sep : ascii) (s r : str) :
  split_on sep (s ++ sep :: r) = split_on sep s ++ split_on sep r.
Proof.
  induction s as [|a s IH]; cbn [split_on app].
  - unfold chr_eqb. rewrite Ascii.eqb_refl. reflexivity.
  - destruct (chr_eqb a sep); [rewrite IH; reflexivity|].
    rewrite IH. pose proof (split_on_nonempty sep s) as Hne.
    destruct (split_on sep s) as [|h t]; [congruence|]. reflexivity.
Qed.

Lemma find_start_app (A B : list str) (i j : nat) :
  find_start A i = Some j -> find_start (A ++ B) i = Some j.
Proof.
  revert i. induction A as [|l A IH]; intros i; cbn [find_start app]; [discriminate|].
  destruct (re.search header_re l re.I); [trivial|apply IH].
Qed.

Lemma section_lines_app (raw more : str) :
  section_lines raw <> [] ->
  section_lines (raw ++ newline :: more) = section_lines raw ++ split_on newline more.
Proof.
  unfold section_lines. rewrite split_on_app_sep.
  pose proof (find_start_spec (split_on newline raw) 0) as H.
  destruct (find_start (split_on newline raw) 0) as [j|] eqn:E; [|congruence].
  intros _. rewrite (find_start_app _ (split_on newline more) 0 j E).
  destruct H as (pre & l & post & Hs & -> & _). rewrite Hs.
  rewrite skipn_app. cbn [Nat.add]. rewrite length_app. cbn [length].
  replace (length pre - (length pre + S (length post))) with 0 by lia. reflexivity.
Qed.

(** X27: once the text has a header line, text added after a line break
    adds the items of its own lines after the items found so far and
    changes none of them. *)
Theorem items_of_appended_text (raw more : str) (pattern : re.regex) :
  section_lines raw <> [] ->
  exists a,
    parse_line_items raw pattern = Ok a /\
    parse_line_items (raw ++ newline :: more) pattern
    = Ok (a ++ flat_map (emits pattern) (split_on newline more)).
Proof.
  intros H. exists (flat_map (emits pattern) (section_lines raw)).
  rewrite !parse_line_items_flat, (section_lines_app raw more H), flat_map_app.
  split; reflexivity.
Qed.

Lemma items_of_appended_text_witness :
  exists a,
    parse_line_items (lit "ITEM NAME 1 Rs. 5 Rs. 10") line_item_re = Ok a /\
    parse_line_items (lit "ITEM NAME 1 Rs. 5 Rs. 10" ++ newline :: lit "ITEM NAME 2 Rs. 1 Rs. 3")
      line_item_re
    = Ok (a ++ flat_map (emits line_item_re)
                 (split_on newline (lit "ITEM NAME 2 Rs. 1 Rs. 3"))).
Proof.
  refine (items_of_appended_text (lit "ITEM NAME 1 Rs. 5 Rs. 10")
            (lit "ITEM NAME 2 Rs. 1 Rs. 3") line_item_re _).
  vm_compute. discriminate.
Defined.

(** ** The vendor check, both ways *)

Lemma upper1_head (a : ascii) (c : N) :
  In c (upper (lit "Acme Corp")) ->
  match upper1 a with x :: _ => x = c | [] => False end ->
  upper1 a = [c] /\ tolower a = tolower (ascii_of_N c).
Proof.
  intros Hc. cbn in Hc.
  repeat (destruct Hc as [<-|Hc];
          [destruct a as [[] [] [] [] [] [] [] []]; cbn; intros H;
           try discriminate H; split; reflexivity|]).
  destruct Hc.
Qed.

Lemma upper1_skip (a : ascii) (U : list N) :
  containsN (upper (lit "Acme Corp")) (upper1 a ++ U) = true ->
  prefixN (upper (lit "Acme Corp")) (upper1 a ++ U) = true \/
  containsN (upper (lit "Acme Corp")) U = true.
Proof.
  assert (H1 : forall x V, containsN (upper (lit "Acme Corp")) (x :: V) = true ->
                           prefixN (upper (lit "Acme Corp")) (x :: V) = true \/
                           containsN (upper (lit "Acme Corp")) V = true).
  { intros x V H. cbn [containsN] in H. apply orb_prop in H. exact H. }
  unfold upper1.
  destruct (between 97 122 a || (between 224 254 a && negb (code a =? 247)%N));
    [apply H1|].
  destruct (code a =? 223)%N.
  { cbn [app]. intros H. apply H1 in H. destruct H as [H|H]; [discriminate H|].
    apply H1 in H. destruct H as [H|H]; [discriminate H|]. now right. }
  destruct (code a =? 181)%N; [apply H1|].
  destruct (code a =? 255)%N; [apply H1|]. apply H1.
Qed.

Lemma prefix_upper (cs : list N) (s : str) :
  (forall c, In c cs -> In c (upper (lit "Acme Corp"))) ->
  prefixN cs (upper s) = true ->
  exists w post, s = w ++ post /\ lower_str w = lower_str (map ascii_of_N cs).
Proof.
  revert s. induction cs as [|c cs IH]; intros s Hc H.
  - exists [], s. split; reflexivity.
  - destruct s as [|a t]; [vm_compute in H; discriminate H|].
    change (upper (a :: t)) with (upper1 a ++ upper t) in H.
    assert (Hh : match upper1 a with x :: _ => x = c | [] => False end).
    { assert (Hne : upper1 a <> []).
      { unfold upper1.
        repeat match goal with |- context [if ?b then _ else _] => destruct b end;
          discriminate. }
      destruct (upper1 a) as [|x r]; [congruence|]. cbn in H.
      apply andb_prop in H. destruct H as [H _]. apply N.eqb_eq in H. congruence. }
    destruct (upper1_head a c (Hc c (or_introl eq_refl)) Hh) as [E1 E2].
    rewrite E1 in H. cbn in H. apply andb_prop in H. destruct H as [_ H].
    destruct (IH t (fun x Hx => Hc x (or_intror Hx)) H) as (w & post & -> & Hw).
    exists (a :: w), post. split; [reflexivity|]. cbn. rewrite E2. f_equal. exact Hw.
Qed.

Lemma contains_upper (s : str) :
  containsN (upper (lit "Acme Corp")) (upper s) = true ->
  contains_ci (lit "Acme Corp") s.
Proof.
  induction s as [|a t IH]; intros H; [vm_compute in H; discriminate H|].
  change (upper (a :: t)) with (upper1 a ++ upper t) in H.
  destruct (upper1_skip a (upper t) H) as [Hp|Hc].
  - change (upper1 a ++ upper t) with (upper (a :: t)) in Hp.
    destruct (prefix_upper _ (a :: t) (fun c Hc => Hc) Hp) as (w & post & E & Hw).
    exists [], w, post. split; [exact E|exact Hw].
  - destruct (IH Hc) as (pre & w & post & -> & Hw).
    exists (a :: pre), w, post. split; [reflexivity|exact Hw].
Qed.

(** X28: the vendor is taken as known exactly when the first five lines
    contain the name of the template, letter case ignored. *)
Theorem known_vendor_iff (raw : str) :
  is_known_vendor KNOWN_VENDOR_TEMPLATE raw = true <->
  contains_ci (lit "Acme Corp") (join [newline] (firstn 5 (split_on newline raw))).
Proof.
  split; [|apply known_vendor_of_contains].
  unfold is_known_vendor. apply contains_upper.
Qed.
